(** * Lift plugin: construct loading, deferred references, lifecycle

    A shallow embedding of [src/plugin.ts] (class [LiftPlugin]) and of the
    parts of its collaborators that the plugin calls, followed by the
    properties of the plugin engine stated in the specification.

    JavaScript objects are association lists kept in own-property
    enumeration order; an exception leaves every mutation made before it in
    place, so stateful code runs in a state monad whose result is either a
    value or a thrown error. *)

From Stdlib Require Import String Ascii List Bool Arith NArith ZArith Lia.
From Stdlib Require DecimalString.
From Stdlib Require Import RelationClasses.
Import ListNotations.

Open Scope string_scope.
Open Scope list_scope.

Infix "+++" := String.append (right associativity, at level 60).

(* ================================================================== *)
(** * Strings *)
(* ================================================================== *)

Module JsString.

(** [s.split(sep)] for a one-character separator: the pieces between the
    separators, at least one piece. *)
Fixpoint split (sep : ascii) (s : string) : list string :=
  match s with
  | EmptyString => [EmptyString]
  | String c rest =>
      if Ascii.eqb c sep then EmptyString :: split sep rest
      else match split sep rest with
           | [] => [String c EmptyString]
           | piece :: pieces => String c piece :: pieces
           end
  end.

(** [s.split(sep, limit)]: the first [limit] pieces. *)
Definition split_limit (sep : ascii) (limit : nat) (s : string) : list string :=
  firstn limit (split sep s).

(** [array.join(sep)]. *)
Definition join (sep : string) (l : list string) : string :=
  String.concat sep l.

(** The character [c] occurs in [s]. *)
Fixpoint has_char (c : ascii) (s : string) : bool :=
  match s with
  | EmptyString => false
  | String d rest => Ascii.eqb d c || has_char c rest
  end.

(** [sub] occurs in [s] as a contiguous substring. *)
Definition Contains (sub s : string) : Prop :=
  exists before after, s = before +++ sub +++ after.

(** Template-literal rendering of a value that may be [undefined]. *)
Definition template (x : option string) : string :=
  match x with
  | Some s => s
  | None => "undefined"
  end.

Definition digit (c : ascii) : option N :=
  let n := N_of_ascii c in
  if (48 <=? n)%N && (n <=? 57)%N then Some (n - 48)%N else None.

Fixpoint decimal (acc : N) (s : string) : option N :=
  match s with
  | EmptyString => Some acc
  | String c rest =>
      match digit c with
      | Some d => decimal (10 * acc + d)%N rest
      | None => None
      end
  end.

(** A property key is an array index when it is the canonical decimal
    form of an integer below [2^32 - 1]; such keys are enumerated first,
    in ascending numeric order. *)
Definition array_index (s : string) : option N :=
  match s with
  | EmptyString => None
  | String c rest =>
      if Ascii.eqb c "0" && negb (String.eqb rest "") then None
      else match decimal 0 s with
           | Some n => if (n <? 4294967295)%N then Some n else None
           | None => None
           end
  end.

End JsString.

(* ================================================================== *)
(** * Objects used as records of named properties *)
(* ================================================================== *)

Module JsObject.

(** Own enumerable string-keyed properties, in enumeration order. *)
Definition t (A : Type) := list (string * A).

Section Ops.
Context {A : Type}.

Fixpoint get (k : string) (o : t A) : option A :=
  match o with
  | [] => None
  | (k', v) :: rest => if String.eqb k' k then Some v else get k rest
  end.

(** [Object.prototype.hasOwnProperty.call(o, k)]. *)
Definition hasOwn (k : string) (o : t A) : bool :=
  match get k o with
  | Some _ => true
  | None => false
  end.

Definition keys (o : t A) : list string := map fst o.

Definition values (o : t A) : list A := map snd o.

(** [Object.entries(o)]. *)
Definition entries (o : t A) : list (string * A) := o.

(** Overwrite the value of a property that exists; its place is kept. *)
Fixpoint replace (k : string) (v : A) (o : t A) : t A :=
  match o with
  | [] => []
  | (k', v') :: rest =>
      if String.eqb k' k then (k', v) :: rest else (k', v') :: replace k v rest
  end.

(** Place a new array-index key [k] (of numeric value [n]) among the
    array-index keys, before the first key that is larger or is not an
    index. *)
Fixpoint insert_index (n : N) (k : string) (v : A) (o : t A) : t A :=
  match o with
  | [] => [(k, v)]
  | (k', v') :: rest =>
      match JsString.array_index k' with
      | Some m =>
          if (n <? m)%N then (k, v) :: o else (k', v') :: insert_index n k v rest
      | None => (k, v) :: o
      end
  end.

(** [o[k] = v]. *)
Definition set (k : string) (v : A) (o : t A) : t A :=
  if hasOwn k o then replace k v o
  else match JsString.array_index k with
       | Some n => insert_index n k v o
       | None => o ++ [(k, v)]
       end.

(** The enumeration order of an object: array-index keys in ascending
    order, then the other keys. [ordered_from lo o] also asks the index
    keys to be at least [lo]; [None] as bound means that an ordinary key
    was already seen. *)
Fixpoint ordered_from (lo : option N) (o : t A) : bool :=
  match o with
  | [] => true
  | (k, _) :: rest =>
      match JsString.array_index k, lo with
      | Some n, Some l => (l <=? n)%N && ordered_from (Some (n + 1)%N) rest
      | Some _, None => false
      | None, _ => negb (hasOwn k rest) && ordered_from None rest
      end
  end.

(** A list of entries is the enumeration of some object. *)
Definition well_formed (o : t A) : bool := ordered_from (Some 0%N) o.

End Ops.

(** [o[key]] for an own property, the key turned into a string the way
    a property access does it ([undefined] becomes the key
    "undefined"). *)
Definition index {A} (o : t A) (key : option string) : option A :=
  get (JsString.template key) o.

End JsObject.

(* ================================================================== *)
(** * Errors and results *)
(* ================================================================== *)

(** The class of a thrown error. The plugin throws plain [Error]s; the
    host reports a [ServerlessError] as a user (configuration) error and
    any other error as an unexpected failure of the tool. *)
Inductive ErrorClass : Type :=
| Error
| TypeError
| RangeError
| ServerlessError.

Record JsError : Type := mkError {
  errorClass : ErrorClass;
  message : string
}.

Inductive result (A : Type) : Type :=
| Ok (a : A)
| Throw (e : JsError).

Arguments Ok {A} a.
Arguments Throw {A} e.

(** How the host presents an error to the user. *)
Definition is_configuration_error (e : JsError) : bool :=
  match errorClass e with
  | ServerlessError => true
  | _ => false
  end.

(** Apply a fallible function to every element, left to right, stopping
    at the first error. *)
Definition traverse {A B : Type} (f : A -> result B) : list A -> result (list B) :=
  fix go (l : list A) : result (list B) :=
    match l with
    | [] => Ok []
    | x :: rest =>
        match f x with
        | Ok y =>
            match go rest with
            | Ok ys => Ok (y :: ys)
            | Throw e => Throw e
            end
        | Throw e => Throw e
        end
    end.

(* ================================================================== *)
(** * Configuration values and deferred-value tokens *)
(* ================================================================== *)

(** A node of the configuration tree. [VToken n] is the placeholder of
    the [n]-th deferred value that was handed out; [VUndefined] is the
    value [undefined], which a property read gives when nothing is
    there. *)
#[warnings="-register-all"]
Inductive value : Type :=
| VNull
| VUndefined
| VBool (b : bool)
| VNum (z : Z)
| VStr (s : string)
| VToken (n : nat)
| VArr (items : list value)
| VObj (fields : list (string * value)).

(** The tokens that occur in a tree, left to right. *)
Fixpoint tokens (v : value) : list nat :=
  match v with
  | VToken n => [n]
  | VArr items => flat_map tokens items
  | VObj fields => flat_map (fun kv => tokens (snd kv)) fields
  | _ => []
  end.

Definition token_free (v : value) : Prop := tokens v = [].

Definition object_tokens (o : JsObject.t value) : list nat := tokens (VObj o).

(* ================================================================== *)
(** * lodash: has *)
(* ================================================================== *)

(** [has(object, path)] of lodash 4: a path that is not a property name
    by itself is read as a sequence of keys, [a[b]] and [a.b] alike, and
    [has] then walks own properties along it. Strings are taken as
    sequences of one-byte characters. *)
Module Lodash.

Definition quote : ascii := "034".
Definition apostrophe : ascii := "039".
Definition backslash : ascii := "092".

(** [\w] *)
Definition word (c : ascii) : bool :=
  let n := N_of_ascii c in
  ((48 <=? n)%N && (n <=? 57)%N) || ((65 <=? n)%N && (n <=? 90)%N)
  || ((97 <=? n)%N && (n <=? 122)%N) || (n =? 95)%N.

(** [reIsPlainProp = /^\w*$/] *)
Fixpoint isPlainProp (s : string) : bool :=
  match s with
  | EmptyString => true
  | String c rest => word c && isPlainProp rest
  end.

(** What [.] does not match. *)
Definition line_terminator (c : ascii) : bool :=
  Ascii.eqb c "010" || Ascii.eqb c "013".

(** After an opening quote [q]: the text matched by
    [(?:(?!q)[^\\]|\\.)*?] up to the closing quote, and what follows
    that quote. *)
Fixpoint quoted (q : ascii) (s : string) : option (string * string) :=
  match s with
  | EmptyString => None
  | String c rest =>
      if Ascii.eqb c q then Some (EmptyString, rest)
      else if Ascii.eqb c backslash then
        match rest with
        | EmptyString => None
        | String d rest' =>
            if line_terminator d then None
            else match quoted q rest' with
                 | Some (body, after) => Some (String c (String d body), after)
                 | None => None
                 end
        end
      else match quoted q rest with
           | Some (body, after) => Some (String c body, after)
           | None => None
           end
  end.

(** After a [[]: a quoted text and []], and what follows. *)
Definition quoted_bracket (s : string) : option (string * string) :=
  match s with
  | EmptyString => None
  | String q rest =>
      if Ascii.eqb q quote || Ascii.eqb q apostrophe then
        match quoted q rest with
        | Some (body, String c after) =>
            if Ascii.eqb c "]" then Some (body, after) else None
        | _ => None
        end
      else None
  end.

(** After a [[]: [[^[\]]*\]]. *)
Fixpoint plain_bracket (s : string) : bool :=
  match s with
  | EmptyString => false
  | String c rest =>
      if Ascii.eqb c "]" then true
      else if Ascii.eqb c "[" then false
      else plain_bracket rest
  end.

(** [reIsDeepProp], somewhere in [s]: a dot, or a bracket that closes
    around text without brackets or around a quoted text. *)
Fixpoint isDeepProp (s : string) : bool :=
  match s with
  | EmptyString => false
  | String c rest =>
      Ascii.eqb c "."
      || (Ascii.eqb c "["
          && (plain_bracket rest
              || match quoted_bracket rest with Some _ => true | None => false end))
      || isDeepProp rest
  end.

(** [isKey(value, object)] for a string: a property name by itself.
    [own] says whether the string is a property of the object ([value in
    Object(object)]); a name with path syntax is none of
    [Object.prototype]. *)
Definition isKey (s : string) (own : bool) : bool :=
  isPlainProp s || negb (isDeepProp s) || own.

Definition special (c : ascii) : bool :=
  Ascii.eqb c "." || Ascii.eqb c "[" || Ascii.eqb c "]".

(** [[^.[\]]+]: the run at the head of [s], and what follows. *)
Fixpoint run (s : string) : string * string :=
  match s with
  | EmptyString => (EmptyString, EmptyString)
  | String c rest =>
      if special c then (EmptyString, s)
      else let (r, after) := run rest in (String c r, after)
  end.

(** [\d+] *)
Fixpoint digits (s : string) : string * string :=
  match s with
  | EmptyString => (EmptyString, EmptyString)
  | String c rest =>
      match JsString.digit c with
      | Some _ => let (r, after) := digits rest in (String c r, after)
      | None => (EmptyString, s)
      end
  end.

(** After a [[]: [-?\d+(?:\.\d+)?] and []], and what follows. *)
Definition number_bracket (s : string) : option (string * string) :=
  let (sign, s1) :=
    match s with
    | String c rest => if Ascii.eqb c "-" then ("-", rest) else (EmptyString, s)
    | EmptyString => (EmptyString, s)
    end in
  let (whole, s2) := digits s1 in
  if String.eqb whole "" then None
  else match s2 with
       | String c s3 =>
           if Ascii.eqb c "]" then Some (sign +++ whole, s3)
           else if Ascii.eqb c "." then
             let (fraction, s4) := digits s3 in
             if String.eqb fraction "" then None
             else match s4 with
                  | String c' after =>
                      if Ascii.eqb c' "]"
                      then Some (sign +++ whole +++ "." +++ fraction, after)
                      else None
                  | EmptyString => None
                  end
           else None
       | EmptyString => None
       end.

(** [.] or [[]] at the head of [s], and what follows. *)
Definition separator (s : string) : option string :=
  match s with
  | String c rest =>
      if Ascii.eqb c "." then Some rest
      else if Ascii.eqb c "[" then
        match rest with
        | String d after => if Ascii.eqb d "]" then Some after else None
        | EmptyString => None
        end
      else None
  | EmptyString => None
  end.

(** [(?=(?:\.|\[\])(?:\.|\[\]|$))]: an empty key stands here. *)
Definition empty_key (s : string) : bool :=
  match separator s with
  | Some EmptyString => true
  | Some after => match separator after with Some _ => true | None => false end
  | None => false
  end.

(** [string.replace(reEscapeChar, "$1")], [reEscapeChar = /\\(\\)?/g]. *)
Fixpoint unescape (s : string) : string :=
  match s with
  | EmptyString => EmptyString
  | String c rest =>
      if Ascii.eqb c backslash then
        match rest with
        | String d rest' =>
            if Ascii.eqb d backslash then String backslash (unescape rest')
            else unescape rest
        | EmptyString => EmptyString
        end
      else String c (unescape rest)
  end.

(** The matches of [rePropName] from left to right, each giving a key;
    where nothing matches the scan moves on by one character, as it does
    after an empty match. [fuel] bounds the positions tried. *)
Fixpoint scan (fuel : nat) (s : string) : list string :=
  match fuel with
  | O => []
  | S fuel =>
      match s with
      | EmptyString => []
      | String c rest =>
          if negb (special c) then
            let (r, after) := run s in r :: scan fuel after
          else
            let otherwise :=
              if empty_key s then EmptyString :: scan fuel rest
              else scan fuel rest in
            if Ascii.eqb c "[" then
              match number_bracket rest with
              | Some (number, after) => number :: scan fuel after
              | None =>
                  match quoted_bracket rest with
                  | Some (body, after) => unescape body :: scan fuel after
                  | None => otherwise
                  end
              end
            else otherwise
      end
  end.

Definition stringToPath (s : string) : list string :=
  match s with
  | String c _ =>
      (if Ascii.eqb c "." then [EmptyString] else []) ++ scan (S (String.length s)) s
  | EmptyString => []
  end.

(** The text of a token, as the comment in [resolveReference] gives
    it. *)
Definition token_text (n : nat) : string :=
  "${Token[TOKEN." +++ DecimalString.NilZero.string_of_uint (Nat.to_uint n)
    +++ "]}".

(** The own properties of a string: its characters by index, and
    [length]. *)
Definition string_member (s key : string) : option value :=
  if String.eqb key "length" then Some (VNum (Z.of_nat (String.length s)))
  else match JsString.array_index key with
       | Some i =>
           match String.get (N.to_nat i) s with
           | Some c => Some (VStr (String c EmptyString))
           | None => None
           end
       | None => None
       end.

(** [hasOwnProperty.call(v, key)] together with [v[key]]: the own
    property [key] of a value, if it has one. *)
Definition own_member (v : value) (key : string) : option value :=
  match v with
  | VObj fields => JsObject.get key fields
  | VArr items =>
      if String.eqb key "length" then Some (VNum (Z.of_nat (length items)))
      else match JsString.array_index key with
           | Some i => nth_error items (N.to_nat i)
           | None => None
           end
  | VStr s => string_member s key
  | VToken n => string_member (token_text n) key
  | _ => None
  end.

(** The loop of [hasPath] below a value, along what is left of the path:
    every key must be an own property of what the keys before it led
    to. *)
Fixpoint hasPath (object : value) (path : list string) : bool :=
  match path with
  | [] => false
  | key :: rest =>
      match own_member object key with
      | Some child =>
          match rest with
          | [] => true
          | _ :: _ => hasPath child rest
          end
      | None => false
      end
  end.

(** [has(object, path)] on an object whose properties are of type [A];
    [below child rest] is the walk below a property along the rest of
    the path. A path that is [undefined] is the key "undefined". *)
Definition has {A : Type} (below : A -> list string -> bool)
  (object : JsObject.t A) (path : option string) : bool :=
  match path with
  | None => JsObject.hasOwn "undefined" object
  | Some key =>
      if isKey key (JsObject.hasOwn key object) then JsObject.hasOwn key object
      else match stringToPath key with
           | [] => false
           | first :: rest =>
               match JsObject.get first object with
               | Some child =>
                   match rest with
                   | [] => true
                   | _ :: _ => below child rest
                   end
               | None => false
               end
           end
  end.

End Lodash.

Module Tokenization.

Section Walk.
(** [force n] forces the [n]-th deferred value; [deeper] resolves the
    forced value, which may hold tokens again. *)
Variable force : nat -> result value.
Variable deeper : value -> result value.

(** Modelled from the spec: the token resolver of the lazy-value library
    ([Tokenization.resolve] with [DefaultTokenResolver]) is an external
    collaborator and is not under src/. Section 4.4 describes it: walk the
    tree and replace each deferred-value token with its forced value,
    recursively, so that nested deferred values are flattened before the
    walk completes. A token stands in the tree in place of the expression
    it was handed out for. *)
Fixpoint walk (v : value) : result value :=
  match v with
  | VToken n =>
      match force n with
      | Ok forced => deeper forced
      | Throw e => Throw e
      end
  | VArr items =>
      match traverse walk items with
      | Ok items' => Ok (VArr items')
      | Throw e => Throw e
      end
  | VObj fields =>
      match traverse (fun kv : string * value =>
                        match walk (snd kv) with
                        | Ok v' => Ok (fst kv, v')
                        | Throw e => Throw e
                        end) fields with
      | Ok fields' => Ok (VObj fields')
      | Throw e => Throw e
      end
  | _ => Ok v
  end.

End Walk.

(** A chain of deferred values that never ends exhausts the call stack. *)
Definition stack_overflow : JsError :=
  mkError RangeError "Maximum call stack size exceeded".

(** Modelled from the spec: [Tokenization.resolve] (section 4.4, phase
    2), with the recursion on forced values bounded by the call stack:
    [resolve depth force v] is the resolution of [v] in which deferred
    values may be nested [depth] deep. *)
Fixpoint resolve (depth : nat) (force : nat -> result value) (v : value)
  : result value :=
  match depth with
  | O => walk force (fun _ => Throw stack_overflow) v
  | S d => walk force (resolve d force) v
  end.

(** Modelled from the spec: [Tokenization.resolve] on an object, field
    by field, as [walk] does on the fields of [VObj]. *)
Definition resolve_object (depth : nat) (force : nat -> result value)
  (o : JsObject.t value) : result (JsObject.t value) :=
  traverse (fun kv : string * value =>
              match resolve depth force (snd kv) with
              | Ok v' => Ok (fst kv, v')
              | Throw e => Throw e
              end) o.

End Tokenization.

(* ================================================================== *)
(** * Constructs and the provider *)
(* ================================================================== *)

Module ConstructInterface.

(** An instantiated construct, seen through the methods the plugin calls.
    [permissions], [postDeploy] and [preRemove] are optional members. An
    output resolver and a hook are given by their outcome when awaited.
    The plugin reads no field of a construct; lodash does, when [has] is
    given an id with path syntax: [hasPath path] says whether the
    instance has the own properties that [path] names, each below the
    one before. *)
Record t : Type := make {
  references : JsObject.t value;
  permissions : option (list value);
  outputs : JsObject.t (result (option string));
  postDeploy : option (result unit);
  preRemove : option (result unit);
  hasPath : list string -> bool
}.

End ConstructInterface.

Module CommandDefinition.

Record t : Type := make {
  usage : string;
  options : JsObject.t value;
  (** [handler.call(construct, cliOptions)] *)
  handler : option ConstructInterface.t -> JsObject.t string -> result unit
}.

End CommandDefinition.

(** The provider context handed to construct factories. *)
Record ProviderContext : Type := {
  stack : string;
  region : string
}.

Module StaticConstructInterface.

(** A construct class: its static members and its factory. *)
Record t : Type := make {
  type : string;
  schema : value;
  commands : option (JsObject.t CommandDefinition.t);
  create : ProviderContext -> string -> JsObject.t value -> ConstructInterface.t
}.

End StaticConstructInterface.

Module Declaration.

(** One entry of the [constructs] section: [{ type, ...parameters }]. *)
Record t : Type := make {
  type : string;
  parameters : JsObject.t value
}.

End Declaration.

Module AwsProvider.

(** Modelled from the spec: the provider class ([classes/AwsProvider]) is
    not under src/. Section 6 gives the contract the plugin consumes:
    [create], [registerConstructs], [getAllConstructClasses],
    [appendCloudformationResources] and a stack handle; section 4.1 the
    registry: classes are added under the provider and listed in
    registration order, with no deduplication. *)
Record t : Type := make {
  context : ProviderContext;
  constructClasses : list StaticConstructInterface.t
}.

(** Modelled from the spec: section 4.1, [register] adds the classes
    under the provider, with no deduplication. *)
Definition registerConstructs (classes : list StaticConstructInterface.t) (p : t) : t :=
  make (context p) (constructClasses p ++ classes).

(** Modelled from the spec: section 4.1, the list of the registered
    classes. *)
Definition getAllConstructClasses (p : t) : list StaticConstructInterface.t :=
  constructClasses p.

(** Modelled from the spec: section 4.3, for each declaration the
    provider resolves the type to a class via the registry (fails naming
    the type if absent), then constructs an instance passing the construct
    id, the type-specific parameters and the provider context. The
    provider reads the parameters of [id] from the configuration. *)
Definition create (p : t) (declarations : JsObject.t Declaration.t)
  (type id : string) : result ConstructInterface.t :=
  match find (fun C => String.eqb (StaticConstructInterface.type C) type)
             (getAllConstructClasses p) with
  | None => Throw (mkError Error ("Unknown construct type " +++ type))
  | Some C =>
      let parameters :=
        match JsObject.get id declarations with
        | Some d => Declaration.parameters d
        | None => []
        end in
      Ok (StaticConstructInterface.create C (context p) id parameters)
  end.

End AwsProvider.

(* ================================================================== *)
(** * The plugin and what it can reach *)
(* ================================================================== *)

Module Service.

(** [serverless.service]: the sections the plugin reads and writes.
    [provider] is an object; the other sections may be [undefined]. *)
Record t : Type := make {
  provider : JsObject.t value;
  functions : option value;
  custom : option value;
  resources : option value;
  layers : option value;
  outputs : option value
}.

End Service.

(** Marks left by the lifecycle steps, in the order in which they ran. *)
Inductive Event : Type :=
| Instantiation
| PermissionAggregation
| ForcedResolution
| TemplateEmission.

(** An entry of [this.commands]: a command with its lifecycle events,
    usage and options, or a group of commands, each with its usage and
    its lifecycle events. *)
Inductive CommandEntry : Type :=
| Build_CommandEntry (lifecycleEvents : list string) (usage : string)
                     (options : JsObject.t value)
| CommandGroup (commands : JsObject.t (string * list string)).

(** The plugin object [this] together with the state it reaches:
    [configurationInput] is [serverless.configurationInput.constructs]
    ([None] when the section is absent), [tokenMap] the producers of the
    deferred values handed out so far (a producer is fixed by the address
    it closes over), [callStack] how deep deferred values may nest before
    the call stack is exhausted, [console] the lines printed and [trace]
    the lifecycle steps that ran. [constructs] holds the own properties of
    the object [this.constructs] and [constructsPrototype] the construct
    that was made its prototype, [None] while the prototype is
    [Object.prototype]. *)
Record LiftPlugin : Type := mkPlugin {
  constructs : option (JsObject.t ConstructInterface.t);
  configurationInput : option (JsObject.t Declaration.t);
  service : Service.t;
  providers : list AwsProvider.t;
  commands : JsObject.t CommandEntry;
  commandHooks : JsObject.t (string * CommandDefinition.t);
  cliOptions : JsObject.t string;
  tokenMap : list string;
  callStack : nat;
  console : list string;
  trace : list Event;
  constructsPrototype : option ConstructInterface.t
}.

(** [this.constructs = c], for [c] a new object. *)
Definition set_constructs (c : option (JsObject.t ConstructInterface.t))
  (s : LiftPlugin) : LiftPlugin :=
  mkPlugin c (configurationInput s) (service s) (providers s) (commands s)
           (commandHooks s) (cliOptions s) (tokenMap s) (callStack s)
           (console s) (trace s) None.

(** The object [this.constructs] after an assignment to one of its
    members: its own properties and its prototype. *)
Definition set_object (own : JsObject.t ConstructInterface.t)
  (prototype : option ConstructInterface.t) (s : LiftPlugin) : LiftPlugin :=
  mkPlugin (Some own) (configurationInput s) (service s) (providers s) (commands s)
           (commandHooks s) (cliOptions s) (tokenMap s) (callStack s)
           (console s) (trace s) prototype.

Definition set_service (sv : Service.t) (s : LiftPlugin) : LiftPlugin :=
  mkPlugin (constructs s) (configurationInput s) sv (providers s) (commands s)
           (commandHooks s) (cliOptions s) (tokenMap s) (callStack s)
           (console s) (trace s)
           (constructsPrototype s).

Definition set_providers (ps : list AwsProvider.t) (s : LiftPlugin) : LiftPlugin :=
  mkPlugin (constructs s) (configurationInput s) (service s) ps (commands s)
           (commandHooks s) (cliOptions s) (tokenMap s) (callStack s)
           (console s) (trace s)
           (constructsPrototype s).

Definition set_commands (cs : JsObject.t CommandEntry)
  (hs : JsObject.t (string * CommandDefinition.t)) (s : LiftPlugin) : LiftPlugin :=
  mkPlugin (constructs s) (configurationInput s) (service s) (providers s) cs
           hs (cliOptions s) (tokenMap s) (callStack s) (console s) (trace s)
           (constructsPrototype s).

Definition set_tokenMap (tm : list string) (s : LiftPlugin) : LiftPlugin :=
  mkPlugin (constructs s) (configurationInput s) (service s) (providers s)
           (commands s) (commandHooks s) (cliOptions s) tm (callStack s)
           (console s) (trace s)
           (constructsPrototype s).

Definition set_console (c : list string) (s : LiftPlugin) : LiftPlugin :=
  mkPlugin (constructs s) (configurationInput s) (service s) (providers s)
           (commands s) (commandHooks s) (cliOptions s) (tokenMap s)
           (callStack s) c (trace s)
           (constructsPrototype s).

Definition set_trace (t : list Event) (s : LiftPlugin) : LiftPlugin :=
  mkPlugin (constructs s) (configurationInput s) (service s) (providers s)
           (commands s) (commandHooks s) (cliOptions s) (tokenMap s)
           (callStack s) (console s) t
           (constructsPrototype s).

(* ================================================================== *)
(** * Stateful code that may throw *)
(* ================================================================== *)

(** A computation over the plugin state. A throw keeps the state reached
    so far. *)
Definition M (A : Type) : Type := LiftPlugin -> result A * LiftPlugin.

Definition ret {A} (a : A) : M A := fun s => (Ok a, s).

Definition bind {A B} (m : M A) (k : A -> M B) : M B :=
  fun s =>
    match m s with
    | (Ok a, s') => k a s'
    | (Throw e, s') => (Throw e, s')
    end.

Definition throw {A} (e : JsError) : M A := fun s => (Throw e, s).

Definition this : M LiftPlugin := fun s => (Ok s, s).

Definition modify (f : LiftPlugin -> LiftPlugin) : M unit := fun s => (Ok tt, f s).

Definition lift {A} (r : result A) : M A := fun s => (r, s).

Declare Scope js_scope.
Delimit Scope js_scope with js.
Notation "x <- m ;; k" := (bind m (fun x => k))
  (at level 100, m at next level, right associativity) : js_scope.
Notation "m ;; k" := (bind m (fun _ => k))
  (at level 100, right associativity) : js_scope.
Open Scope js_scope.

(** [for (const x of l) body(x)]. *)
Fixpoint for_of {A} (l : list A) (body : A -> M unit) : M unit :=
  match l with
  | [] => ret tt
  | x :: rest => body x ;; for_of rest body
  end.

Definition mark (e : Event) : M unit :=
  modify (fun s => set_trace (trace s ++ [e]) s).

Definition console_log (line : string) : M unit :=
  modify (fun s => set_console (console s ++ [line]) s).

(* ================================================================== *)
(** * class LiftPlugin *)
(* ================================================================== *)

Definition set_provider (p : JsObject.t value) (s : LiftPlugin) : LiftPlugin :=
  let sv := service s in
  set_service (Service.make p (Service.functions sv) (Service.custom sv)
                 (Service.resources sv) (Service.layers sv) (Service.outputs sv)) s.

Definition set_functions (v : option value) (s : LiftPlugin) : LiftPlugin :=
  let sv := service s in
  set_service (Service.make (Service.provider sv) v (Service.custom sv)
                 (Service.resources sv) (Service.layers sv) (Service.outputs sv)) s.

Definition set_custom (v : option value) (s : LiftPlugin) : LiftPlugin :=
  let sv := service s in
  set_service (Service.make (Service.provider sv) (Service.functions sv) v
                 (Service.resources sv) (Service.layers sv) (Service.outputs sv)) s.

Definition set_resources (v : option value) (s : LiftPlugin) : LiftPlugin :=
  let sv := service s in
  set_service (Service.make (Service.provider sv) (Service.functions sv)
                 (Service.custom sv) v (Service.layers sv) (Service.outputs sv)) s.

Definition set_layers (v : option value) (s : LiftPlugin) : LiftPlugin :=
  let sv := service s in
  set_service (Service.make (Service.provider sv) (Service.functions sv)
                 (Service.custom sv) (Service.resources sv) v (Service.outputs sv)) s.

Definition set_outputs (v : option value) (s : LiftPlugin) : LiftPlugin :=
  let sv := service s in
  set_service (Service.make (Service.provider sv) (Service.functions sv)
                 (Service.custom sv) (Service.resources sv) (Service.layers sv) v) s.

(** [this.providers[0]], then a member access on it. *)
Definition providers_0 : M AwsProvider.t :=
  s <- this ;;
  match providers s with
  | p :: _ => ret p
  | [] => throw (mkError TypeError "Cannot read properties of undefined")
  end.

(** [get(this.serverless.configurationInput, "constructs", {})]. *)
Definition constructsInputConfiguration (s : LiftPlugin) : JsObject.t Declaration.t :=
  match configurationInput s with
  | Some c => c
  | None => []
  end.

Definition registerProviders (context : ProviderContext) : M unit :=
  modify (fun s => set_providers (providers s ++ [AwsProvider.make context []]) s).

(** [this.providers[0].registerConstructs(...)]. *)
Definition registerConstructs (classes : list StaticConstructInterface.t) : M unit :=
  p <- providers_0 ;;
  modify (fun s => set_providers (AwsProvider.registerConstructs classes p
                                    :: tl (providers s)) s).

Definition already_initialized : JsError :=
  mkError Error "Constructs are already initialized: this should not happen".

Definition not_initialized : JsError :=
  mkError Error "Constructs are not initialized: this should not happen".

(** [this.constructs[id] = construct]. The key [__proto__] is the
    accessor of [Object.prototype]: assigning an object to it makes the
    object the prototype of [this.constructs] and adds no own property. *)
Definition assign_construct (id : string) (construct : ConstructInterface.t) : M unit :=
  s <- this ;;
  match constructs s with
  | Some o =>
      if String.eqb id "__proto__" then modify (set_object o (Some construct))
      else modify (set_object (JsObject.set id construct o) (constructsPrototype s))
  | None => throw (mkError TypeError "Cannot set properties of undefined")
  end.

(** The body of the loop of [loadConstructs], for one entry
    [[id, { type }]] of the configuration [input]. *)
Definition loadConstructs_body (input : JsObject.t Declaration.t)
  (entry : string * Declaration.t) : M unit :=
  let id := fst entry in
  let type := Declaration.type (snd entry) in
  provider <- providers_0 ;;
  construct <- lift (AwsProvider.create provider input type id) ;;
  assign_construct id construct.

Definition loadConstructs : M unit :=
  s <- this ;;
  match constructs s with
  | Some _ => throw already_initialized
  | None =>
      modify (set_constructs (Some [])) ;;
      mark Instantiation ;;
      let input := constructsInputConfiguration s in
      for_of (JsObject.entries input) (loadConstructs_body input)
  end.

Definition getConstructs : M (JsObject.t ConstructInterface.t) :=
  s <- this ;;
  match constructs s with
  | None => throw not_initialized
  | Some c => ret c
  end.

Definition no_construct_named (id property : option string) : JsError :=
  mkError Error
    ("No construct named '" +++ JsString.template id
       +++ "' was found, the ${construct:" +++ JsString.template id +++ "."
       +++ JsString.template property +++ "} variable is invalid.").

Definition does_not_exist (id property : option string) (names : list string)
  : JsError :=
  mkError Error
    ("${construct:" +++ JsString.template id +++ "."
       +++ JsString.template property
       +++ "} does not exist. Properties available on ${construct:"
       +++ JsString.template id +++ "} are: "
       +++ JsString.join ", " names +++ ".").

(** What reading a member of [undefined] throws: a [TypeError] whose
    message, worded by the engine, names the member. *)
Definition cannot_read (member : string) : JsError :=
  mkError TypeError
    ("Cannot read properties of undefined (reading '" +++ member +++ "')").

(** The [produce] closure of [resolveReference]. Where [has] holds for
    a key that is no own property (it was read as a path), the read that
    follows gives [undefined]. *)
Definition produce (address : string) : M value :=
  constructs <- getConstructs ;;
  let pieces := JsString.split_limit "." 2 address in
  let id := nth_error pieces 0 in
  let property := nth_error pieces 1 in
  if negb (Lodash.has ConstructInterface.hasPath constructs id)
  then throw (no_construct_named id property)
  else
    match JsObject.index constructs id with
    | None => throw (cannot_read "references")
    | Some construct =>
        let properties := ConstructInterface.references construct in
        if negb (Lodash.has Lodash.hasPath properties property)
        then throw (does_not_exist id property (JsObject.keys properties))
        else ret match JsObject.index properties property with
                 | Some v => v
                 | None => VUndefined
                 end
    end.

(** [resolveReference({ address })]: [Lazy.any({ produce }).toString()]
    registers a new deferred value, whose producer closes over [address],
    and returns its token. *)
Definition resolveReference (address : string) : M value :=
  s <- this ;;
  modify (set_tokenMap (tokenMap s ++ [address])) ;;
  ret (VToken (length (tokenMap s))).

(** Modelled from the spec: forcing the [n]-th deferred value in state
    [s] runs the producer registered for it (section 9: a registry from
    placeholder to thunk); a token that was never handed out is not
    recognised. *)
Definition force (s : LiftPlugin) (n : nat) : result value :=
  match nth_error (tokenMap s) n with
  | Some address => fst (produce address s)
  | None => Throw (mkError Error "Unrecognized token key")
  end.

(** [chalk.yellow]: colour is not part of the text. *)
Definition chalk_yellow (s : string) : string := s.

Definition info : M unit :=
  constructs <- getConstructs ;;
  for_of (JsObject.entries constructs)
    (fun entry =>
       let id := fst entry in
       let outputs := ConstructInterface.outputs (snd entry) in
       if Nat.ltb 0 (length (JsObject.keys outputs)) then
         console_log (chalk_yellow (id +++ ":")) ;;
         for_of (JsObject.entries outputs)
           (fun o =>
              output <- lift (snd o) ;;
              match output with
              | Some text => console_log ("  " +++ fst o +++ ": " +++ text)
              | None => ret tt
              end)
       else ret tt).

Definition getAllConstructClasses (s : LiftPlugin) : list StaticConstructInterface.t :=
  flat_map AwsProvider.getAllConstructClasses (providers s).

Definition getConstructClass (constructType : string) : M StaticConstructInterface.t :=
  s <- this ;;
  match find (fun constructClass =>
                String.eqb (StaticConstructInterface.type constructClass) constructType)
             (getAllConstructClasses s) with
  | None => throw (mkError Error ("Unknown construct type " +++ constructType))
  | Some found => ret found
  end.

(** [constructs[id]] for the object [this.constructs]: the own property,
    and for [__proto__], when there is no own property of that name, the
    construct that is the prototype. *)
Definition construct_at (own : JsObject.t ConstructInterface.t)
  (prototype : option ConstructInterface.t) (id : string)
  : option ConstructInterface.t :=
  match JsObject.get id own with
  | Some construct => Some construct
  | None => if String.eqb id "__proto__" then prototype else None
  end.

(** The handler registered under [`${id}:${command}:${command}`]. *)
Definition commandHook (id : string) (definition : CommandDefinition.t) : M unit :=
  constructs <- getConstructs ;;
  s <- this ;;
  let construct := construct_at constructs (constructsPrototype s) id in
  lift (CommandDefinition.handler definition construct (cliOptions s)).

Definition registerCommands : M unit :=
  s <- this ;;
  for_of (JsObject.entries (constructsInputConfiguration s))
    (fun entry =>
       let id := fst entry in
       constructClass <- getConstructClass (Declaration.type (snd entry)) ;;
       match StaticConstructInterface.commands constructClass with
       | None => ret tt
       | Some definitions =>
           for_of (JsObject.entries definitions)
             (fun c =>
                let command := fst c in
                let entry :=
                  Build_CommandEntry [command] (CommandDefinition.usage (snd c))
                                     (CommandDefinition.options (snd c)) in
                modify (fun s =>
                  set_commands
                    (JsObject.set (id +++ ":" +++ command) entry (commands s))
                    (JsObject.set (id +++ ":" +++ command +++ ":" +++ command)
                                  (id, snd c) (commandHooks s)) s))
       end).

Definition postDeploy : M unit :=
  constructs <- getConstructs ;;
  for_of (JsObject.entries constructs)
    (fun entry =>
       match ConstructInterface.postDeploy (snd entry) with
       | Some outcome => lift outcome
       | None => ret tt
       end).

Definition preRemove : M unit :=
  constructs <- getConstructs ;;
  for_of (JsObject.entries constructs)
    (fun entry =>
       match ConstructInterface.preRemove (snd entry) with
       | Some outcome => lift outcome
       | None => ret tt
       end).

(** [resolveTokens(input)] of [resolveLazyVariables], on a section that
    may be [undefined]. *)
Definition resolveTokens (input : option value) : M (option value) :=
  match input with
  | None => ret None
  | Some v =>
      _ <- providers_0 ;;
      s <- this ;;
      v' <- lift (Tokenization.resolve (callStack s) (force s) v) ;;
      ret (Some v')
  end.

(** [resolveTokens(input)] on the provider section, which is an object. *)
Definition resolveTokens_object (input : JsObject.t value) : M (JsObject.t value) :=
  _ <- providers_0 ;;
  s <- this ;;
  lift (Tokenization.resolve_object (callStack s) (force s) input).

Definition resolveLazyVariables : M unit :=
  mark ForcedResolution ;;
  s <- this ;;
  provider <- resolveTokens_object (Service.provider (service s)) ;;
  modify (set_provider provider) ;;
  s <- this ;;
  functions <- resolveTokens (Service.functions (service s)) ;;
  modify (set_functions functions) ;;
  s <- this ;;
  custom <- resolveTokens (Service.custom (service s)) ;;
  modify (set_custom custom) ;;
  s <- this ;;
  resources <- resolveTokens (Service.resources (service s)) ;;
  modify (set_resources resources) ;;
  s <- this ;;
  layers <- resolveTokens (Service.layers (service s)) ;;
  modify (set_layers layers) ;;
  s <- this ;;
  outputs <- resolveTokens (Service.outputs (service s)) ;;
  modify (set_outputs outputs).

(** Modelled from the spec: [AwsProvider.appendCloudformationResources]
    is not under src/. Section 4.5 (package): the compiled resource
    fragments are merged into the deployment template. The merge is the
    template compiler's work; the plugin state records that the template
    was emitted. *)
Definition appendCloudformationResources : M unit :=
  _ <- providers_0 ;;
  mark TemplateEmission.

(** [construct.permissions ? construct.permissions() : []]. *)
Definition permissions_of (construct : ConstructInterface.t) : list value :=
  match ConstructInterface.permissions construct with
  | Some statements => statements
  | None => []
  end.

(** [provider.iamRoleStatements ?? []]. *)
Definition iamRoleStatements_or_empty (provider : JsObject.t value) : value :=
  match JsObject.get "iamRoleStatements" provider with
  | None => VArr []
  | Some VNull => VArr []
  | Some VUndefined => VArr []
  | Some v => v
  end.

Definition appendPermissions : M unit :=
  constructs <- getConstructs ;;
  mark PermissionAggregation ;;
  let statements :=
    flat_map (fun entry => permissions_of (snd entry)) (JsObject.entries constructs) in
  if Nat.eqb (length statements) 0 then ret tt
  else
    s <- this ;;
    let provider := Service.provider (service s) in
    let current := iamRoleStatements_or_empty provider in
    modify (set_provider (JsObject.set "iamRoleStatements" current provider)) ;;
    match current with
    | VArr existing =>
        modify (set_provider
                  (JsObject.set "iamRoleStatements" (VArr (existing ++ statements))
                     (JsObject.set "iamRoleStatements" current provider)))
    | _ => throw (mkError TypeError "iamRoleStatements.push is not a function")
    end.

(** [log] of [utils/logger] prints a line. *)
Definition log (line : string) : M unit := console_log line.

(** [eject]: spawning [package] makes the host run the package lifecycle,
    in which this plugin's [after:package:compileEvents] hook runs. The
    path of the compiled template and its YAML rendering come from the
    host and the file system. *)
Definition eject (compiledTemplateFilePath formattedYaml : string) : M unit :=
  log "Ejecting from Lift to CloudFormation" ;;
  appendCloudformationResources ;;
  console_log formattedYaml ;;
  log "You can also find that CloudFormation template in the following file:" ;;
  log compiledTemplateFilePath.

(** The keys of [this.hooks]. *)
Inductive Hook : Type :=
| initialize
| before_aws_info_displayStackOutputs
| after_package_compileEvents
| after_deploy_deploy
| before_remove_remove
| lift_eject_eject (compiledTemplateFilePath formattedYaml : string)
| construct_command (key : string).

Definition hooks (h : Hook) : M unit :=
  match h with
  | initialize =>
      loadConstructs ;;
      appendPermissions ;;
      resolveLazyVariables
  | before_aws_info_displayStackOutputs => info
  | after_package_compileEvents => appendCloudformationResources
  | after_deploy_deploy => postDeploy
  | before_remove_remove => preRemove
  | lift_eject_eject path yaml => eject path yaml
  | construct_command key =>
      s <- this ;;
      match JsObject.get key (commandHooks s) with
      | Some (id, definition) => commandHook id definition
      | None => ret tt
      end
  end.

(** The host dispatches lifecycle events one after the other and stops at
    the first hook that throws. *)
Fixpoint dispatch (events : list Hook) : M unit :=
  match events with
  | [] => ret tt
  | h :: rest => hooks h ;; dispatch rest
  end.

(** One run of the plugin: the host fires [initialize] before the
    lifecycle events of the command. *)
Definition run (events : list Hook) : M unit :=
  dispatch (initialize :: events).

(** The state before the constructor body runs. *)
Definition blank (configuration : option (JsObject.t Declaration.t))
  (sv : Service.t) (cli : JsObject.t string) (depth : nat) : LiftPlugin :=
  mkPlugin None configuration sv [] [] [] cli [] depth [] [] None.

(** [this.commands.lift]: the group that holds the command [eject]. *)
Definition lift_commands : CommandEntry :=
  CommandGroup [("eject", ("Eject Lift constructs to raw CloudFormation", ["eject"]))].

(** [new LiftPlugin(serverless, cliOptions)]; [classes] are the construct
    classes registered in the constructor ([Storage, Queue, Webhook,
    StaticWebsite] in the source). The fixed hooks are the constructors
    of [Hook]; the registration of the configuration schema touches
    nothing of the state kept here. *)
Definition constructor (context : ProviderContext)
  (classes : list StaticConstructInterface.t) : M unit :=
  modify (fun s =>
    set_commands (JsObject.set "lift" lift_commands (commands s)) (commandHooks s) s) ;;
  registerProviders context ;;
  registerConstructs classes ;;
  registerCommands.

(** What the deployment role holds: the statements of the provider
    section, none when the list is absent. *)
Definition role_statements (s : LiftPlugin) : list value :=
  match iamRoleStatements_or_empty (Service.provider (service s)) with
  | VArr statements => statements
  | _ => []
  end.

(** The sections that phase 2 walks hold no token. *)
Definition section_token_free (section : option value) : Prop :=
  match section with
  | Some v => token_free v
  | None => True
  end.

Definition service_token_free (sv : Service.t) : Prop :=
  object_tokens (Service.provider sv) = []
  /\ section_token_free (Service.functions sv)
  /\ section_token_free (Service.custom sv)
  /\ section_token_free (Service.resources sv)
  /\ section_token_free (Service.layers sv)
  /\ section_token_free (Service.outputs sv).

(** ** A sample deployment *)

Module Sample.

Definition context : ProviderContext := {| stack := "app-dev"; region := "us-east-1" |}.

Definition bucketArn : value :=
  VObj [("Fn::GetAtt", VArr [VStr "avatarsBucket"; VStr "Arn"])].

Definition bucketName : value := VObj [("Ref", VStr "avatarsBucket")].

(** A class shaped like [Storage]: the references [bucketArn] and
    [bucketName], one policy statement on the bucket and on what is below
    it, the output [bucketName]. *)
Definition Storage : StaticConstructInterface.t :=
  StaticConstructInterface.make "storage" (VObj []) (Some [])
    (fun _ _ _ =>
       ConstructInterface.make
         [("bucketArn", bucketArn); ("bucketName", bucketName)]
         (Some [VObj [("Effect", VStr "Allow");
                      ("Action", VArr [VStr "s3:PutObject"; VStr "s3:GetObject";
                                       VStr "s3:DeleteObject"; VStr "s3:ListBucket"]);
                      ("Resource",
                       VArr [bucketArn;
                             VObj [("Fn::Join",
                                    VArr [VStr "/";
                                          VArr [bucketArn; VStr "*"]])]])]])
         [("bucketName", Ok (Some "app-dev-avatars"))]
         None None (fun _ => false)).

(** A class without [permissions] whose reference is itself deferred. *)
Definition Alias : StaticConstructInterface.t :=
  StaticConstructInterface.make "alias" (VObj []) None
    (fun _ _ _ =>
       ConstructInterface.make [("target", VToken 0)] None [] None None
                               (fun _ => false)).

(** A class whose references carry the key [undefined]. *)
Definition Odd : StaticConstructInterface.t :=
  StaticConstructInterface.make "odd" (VObj []) None
    (fun _ _ _ =>
       ConstructInterface.make [("undefined", VStr "u")] None [] None None
                               (fun _ => false)).

Definition declarations : JsObject.t Declaration.t :=
  [("avatars", Declaration.make "storage" []);
   ("link", Declaration.make "alias" []);
   ("odd", Declaration.make "odd" [])].

Definition service : Service.t :=
  Service.make [("name", VStr "aws");
                ("iamRoleStatements", VArr [VObj [("Effect", VStr "Deny")]])]
               (Some (VObj [("env", VArr [VToken 1; VStr "x"])]))
               None (Some (VObj [])) None None.

(** The plugin after its constructor ran. *)
Definition fresh : LiftPlugin :=
  snd (constructor context [Storage; Alias; Odd]
         (blank (Some declarations) service [] 8)).

(** Phase 1 handed out two tokens. *)
Definition referenced : LiftPlugin :=
  snd ((resolveReference "avatars.bucketArn" ;;
        resolveReference "link.target") fresh).

(** The plugin after [loadConstructs]. *)
Definition loaded : LiftPlugin := snd (loadConstructs referenced).

(** The plugin after the whole [initialize] hook. *)
Definition settled : LiftPlugin := snd (hooks initialize referenced).

End Sample.

(** ** Predicates used to state the properties *)

(** Below [v] deferred values nest at most [depth] deep, and each of
    them can be forced. *)
Fixpoint nests_within (force : nat -> result value) (depth : nat) (v : value)
  : bool :=
  forallb (fun n =>
             match force n with
             | Ok forced =>
                 match depth with
                 | O => false
                 | S d => nests_within force d forced
                 end
             | Throw _ => false
             end) (tokens v).

Definition section_nests_within (force : nat -> result value) (depth : nat)
  (section : option value) : bool :=
  match section with
  | Some v => nests_within force depth v
  | None => true
  end.

Definition service_nests_within (force : nat -> result value) (depth : nat)
  (sv : Service.t) : bool :=
  nests_within force depth (VObj (Service.provider sv))
  && section_nests_within force depth (Service.functions sv)
  && section_nests_within force depth (Service.custom sv)
  && section_nests_within force depth (Service.resources sv)
  && section_nests_within force depth (Service.layers sv)
  && section_nests_within force depth (Service.outputs sv).

(** The resolution of a section that may be [undefined]. *)
Definition resolve_section (depth : nat) (force : nat -> result value)
  (section : option value) : result (option value) :=
  match section with
  | None => Ok None
  | Some t =>
      match Tokenization.resolve depth force t with
      | Ok r => Ok (Some r)
      | Throw e => Throw e
      end
  end.

(** Every section of [after] is the resolution of the section of
    [before]. *)
Definition resolution_of (depth : nat) (force : nat -> result value)
  (before after : Service.t) : Prop :=
  Tokenization.resolve_object depth force (Service.provider before)
  = Ok (Service.provider after)
  /\ resolve_section depth force (Service.functions before)
     = Ok (Service.functions after)
  /\ resolve_section depth force (Service.custom before)
     = Ok (Service.custom after)
  /\ resolve_section depth force (Service.resources before)
     = Ok (Service.resources after)
  /\ resolve_section depth force (Service.layers before)
     = Ok (Service.layers after)
  /\ resolve_section depth force (Service.outputs before)
     = Ok (Service.outputs after).

(** lodash takes [key] as one property name of [o], not as a path: it
    is [undefined], or it holds no path syntax, or it is a property of
    [o]. *)
Definition single_key {A : Type} (o : JsObject.t A) (key : option string) : Prop :=
  match key with
  | None => True
  | Some k => Lodash.isDeepProp k = false \/ JsObject.hasOwn k o = true
  end.

(** The entries of an object that assigning them to the members of
    another object makes own properties there: all but [__proto__]. *)
Definition own_ids {A : Type} (o : JsObject.t A) : JsObject.t A :=
  filter (fun kv => negb (String.eqb (fst kv) "__proto__")) o.

(** The prototype of the constructs once the declarations [rest] are
    instantiated: the construct declared under [__proto__] if there is
    one, else the prototype [before] them. *)
Definition prototype_after (p : AwsProvider.t) (input rest : JsObject.t Declaration.t)
  (before : option ConstructInterface.t) : option ConstructInterface.t :=
  match JsObject.get "__proto__" rest with
  | Some d =>
      match AwsProvider.create p input (Declaration.type d) "__proto__" with
      | Ok c => Some c
      | Throw _ => before
      end
  | None => before
  end.




(** The type of a declaration is registered with the provider. *)
Definition registered (p : AwsProvider.t) (entry : string * Declaration.t) : bool :=
  existsb (fun C => String.eqb (StaticConstructInterface.type C)
                               (Declaration.type (snd entry)))
          (AwsProvider.getAllConstructClasses p).

(** The class that [find] gives for a type name. *)
Definition class_of (classes : list StaticConstructInterface.t) (type : string)
  : option StaticConstructInterface.t :=
  find (fun C => String.eqb (StaticConstructInterface.type C) type) classes.

(** [id.property], the address of the reference [${construct:id.property}]. *)
Definition address_of (id property : string) : string :=
  id +++ "." +++ property.

(** [state] keeps the value of [proj]. *)
Definition keeps {X : Type} (proj : LiftPlugin -> X) (s s' : LiftPlugin) : Prop :=
  proj s = proj s'.

(** Running [m] relates the state before and the state after by [R],
    whether [m] returns or throws. *)
Definition preserves {A : Type} (R : LiftPlugin -> LiftPlugin -> Prop) (m : M A)
  : Prop :=
  forall s, R s (snd (m s)).

(** Once the constructs exist they keep existing. *)
Definition stays_initialized (s s' : LiftPlugin) : Prop :=
  constructs s <> None -> constructs s' <> None.

(** The state [s] resolves as the state [ref] does. *)
Definition resolves_as (ref s : LiftPlugin) : Prop :=
  constructs ref = constructs s
  /\ tokenMap ref = tokenMap s
  /\ callStack ref = callStack s
  /\ providers ref = providers s.




(* ================================================================== *)
(** * The rest of the plugin: what its properties are stated with *)
(* ================================================================== *)

(** The lines [info] prints for the outputs of a construct: one line per
    output whose resolver gives a value. *)
Definition output_lines (outputs : JsObject.t (result (option string)))
  : list string :=
  flat_map (fun o =>
              match snd o with
              | Ok (Some text) => ["  " +++ fst o +++ ": " +++ text]
              | _ => []
              end) outputs.

(** The lines [info] prints for a construct: the id, then its outputs;
    nothing for a construct without outputs. *)
Definition info_lines (entry : string * ConstructInterface.t) : list string :=
  let outputs := ConstructInterface.outputs (snd entry) in
  match outputs with
  | [] => []
  | _ :: _ => (fst entry +++ ":") :: output_lines outputs
  end.

(** Every resolver of [outputs] resolves. *)
Definition resolves_all (outputs : JsObject.t (result (option string))) : Prop :=
  forall name r, In (name, r) outputs -> exists o, r = Ok o.

(** A hook of a construct that is absent or returns. *)
Definition passes (outcome : option (result unit)) : Prop :=
  outcome = None \/ outcome = Some (Ok tt).

(** [`${id}:${command}`], the key of a delegated command in
    [this.commands]. *)
Definition command_key (id command : string) : string :=
  id +++ ":" +++ command.

(** [`${id}:${command}:${command}`], the key of its handler in
    [this.hooks]. *)
Definition hook_key (id command : string) : string :=
  id +++ ":" +++ command +++ ":" +++ command.

(** The commands of the class of a declaration, none when the class has no
    [commands] member. *)
Definition commands_of (classes : list StaticConstructInterface.t)
  (d : Declaration.t) : JsObject.t CommandDefinition.t :=
  match class_of classes (Declaration.type d) with
  | Some C =>
      match StaticConstructInterface.commands C with
      | Some definitions => definitions
      | None => []
      end
  | None => []
  end.

(** The commands that the declarations give rise to, in the order in
    which [registerCommands] meets them: construct id, command name,
    definition. *)
Definition declared_commands (classes : list StaticConstructInterface.t)
  (declarations : JsObject.t Declaration.t)
  : list (string * (string * CommandDefinition.t)) :=
  flat_map (fun entry =>
              map (fun c => (fst entry, c)) (commands_of classes (snd entry)))
           declarations.

(** What registering one command changes: its entry in [this.commands]
    and its handler in [this.hooks]. *)
Definition register_command (w : string * (string * CommandDefinition.t))
  (s : LiftPlugin) : LiftPlugin :=
  let id := fst w in
  let command := fst (snd w) in
  let definition := snd (snd w) in
  set_commands
    (JsObject.set (command_key id command)
       (Build_CommandEntry [command] (CommandDefinition.usage definition)
                           (CommandDefinition.options definition))
       (commands s))
    (JsObject.set (hook_key id command) (id, definition) (commandHooks s)) s.

(** Registering commands one after the other. *)
Definition register_commands (ws : list (string * (string * CommandDefinition.t)))
  (s : LiftPlugin) : LiftPlugin :=
  fold_left (fun s w => register_command w s) ws s.

(** [Object.assign(target, source)]: the own properties of [source] are
    set on [target] in enumeration order. *)
Definition Object_assign {A : Type} (target source : JsObject.t A) : JsObject.t A :=
  fold_left (fun o kv => JsObject.set (fst kv) (snd kv) o) source target.

(** The tokens of a section that may be [undefined]. *)
Definition section_tokens (section : option value) : list nat :=
  match section with
  | Some v => tokens v
  | None => []
  end.

(** The tokens that occur in the sections that phase 2 walks. *)
Definition service_tokens (sv : Service.t) : list nat :=
  object_tokens (Service.provider sv)
  ++ section_tokens (Service.functions sv)
  ++ section_tokens (Service.custom sv)
  ++ section_tokens (Service.resources sv)
  ++ section_tokens (Service.layers sv)
  ++ section_tokens (Service.outputs sv).

(* ================================================================== *)
(** * constructs/Storage *)
(* ================================================================== *)

Module Storage.

(** The members of [@aws-cdk/aws-s3] that the constructor names. *)
Inductive BucketEncryption : Type := S3_MANAGED | KMS_MANAGED.
Inductive BlockPublicAccess : Type := BLOCK_ALL.
Inductive StorageClass : Type := INTELLIGENT_TIERING.

(** [Duration.days(n)] is kept as the number of days. *)
Record Transition : Type := {
  storageClass : StorageClass;
  transitionAfter : nat
}.

(** A rule names [transitions], [noncurrentVersionExpiration], or both. *)
Record LifecycleRule : Type := {
  transitions : option (list Transition);
  noncurrentVersionExpiration : option nat
}.

(** The properties passed to [new Bucket(this, "Bucket", ...)]. *)
Record BucketProps : Type := {
  encryption : option BucketEncryption;
  versioned : bool;
  blockPublicAccess : BlockPublicAccess;
  enforceSSL : bool;
  lifecycleRules : list LifecycleRule
}.

Definition STORAGE_DEFAULTS : JsObject.t value :=
  [("type", VStr "storage"); ("archive", VNum 45); ("encryption", VStr "s3")].

(** [STORAGE_DEFINITION]: an object whose only properties are [type]
    (the constant "storage"), [archive] (a number, at least 30) and
    [encryption] ("s3" or "kms"). *)
Definition valid_property (kv : string * value) : bool :=
  match snd kv with
  | VStr text =>
      (String.eqb (fst kv) "type" && String.eqb text "storage")
      || (String.eqb (fst kv) "encryption"
          && (String.eqb text "s3" || String.eqb text "kms"))
  | VNum n => String.eqb (fst kv) "archive" && (30 <=? n)%Z
  | _ => false
  end.

Definition valid_configuration (configuration : JsObject.t value) : bool :=
  forallb valid_property configuration.

Definition encryptionOptions : JsObject.t BucketEncryption :=
  [("s3", S3_MANAGED); ("kms", KMS_MANAGED)].

(** [Object.assign({}, STORAGE_DEFAULTS, configuration)]. *)
Definition resolvedConfiguration (configuration : JsObject.t value)
  : JsObject.t value :=
  Object_assign (Object_assign [] STORAGE_DEFAULTS) configuration.

(** [encryptionOptions[resolvedConfiguration.encryption]]; the type of
    the configuration admits "s3" and "kms" there. *)
Definition bucketEncryption (configuration : JsObject.t value)
  : option BucketEncryption :=
  match JsObject.get "encryption" (resolvedConfiguration configuration) with
  | Some (VStr name) => JsObject.get name encryptionOptions
  | _ => None
  end.

(** The bucket that the constructor creates. *)
Definition bucketProps (configuration : JsObject.t value) : BucketProps :=
  {| encryption := bucketEncryption configuration;
     versioned := true;
     blockPublicAccess := BLOCK_ALL;
     enforceSSL := true;
     lifecycleRules :=
       [ {| transitions := Some [ {| storageClass := INTELLIGENT_TIERING;
                                     transitionAfter := 0 |} ];
            noncurrentVersionExpiration := None |};
         {| transitions := None;
            noncurrentVersionExpiration := Some 30 |} ] |}.

End Storage.

(* ================================================================== *)
(** * The plugin of the earlier layout (before:package:initialize) *)
(* ================================================================== *)

Module Legacy.

(** What [stack.compile()] returns. *)
Record CloudFormationTemplate : Type := {
  template_Resources : JsObject.t value;
  template_Outputs : JsObject.t value
}.

(** The stack built from the configuration ([./Stack] is not part of the
    file): the outcome of [compile()] and of awaiting
    [permissionsInStack()]. *)
Record Stack : Type := {
  compile : result CloudFormationTemplate;
  permissionsInStack : result (list value)
}.

(** [serverless.service.resources]: the two members the plugin touches,
    each an object or [undefined]. *)
Record ServiceResources : Type := {
  Resources : option (JsObject.t value);
  Outputs : option (JsObject.t value)
}.

(** [serverless.service]. *)
Record Service : Type := {
  custom : option (JsObject.t value);
  resources : option ServiceResources;
  provider : JsObject.t value
}.

(** What [setup] asks of its collaborators: the stack name and the region
    of the provider, and the stack that [new Config(name, region,
    lift).getStack()] yields (or the error it throws). *)
Record Environment : Type := {
  getStackName : string;
  getRegion : string;
  getStack : string -> string -> value -> result Stack
}.

(** The service together with the lines logged. *)
Record State : Type := {
  service : Service;
  logged : list string
}.

Definition set_resources (r : ServiceResources) (sv : Service) : Service :=
  {| custom := custom sv; resources := Some r; provider := provider sv |}.

Definition set_provider (p : JsObject.t value) (sv : Service) : Service :=
  {| custom := custom sv; resources := resources sv; provider := p |}.

(** [x ?? {}]. *)
Definition or_empty (x : option (JsObject.t value)) : JsObject.t value :=
  match x with
  | Some o => o
  | None => []
  end.

(** A value counts as true in a condition. *)
Definition truthy (v : value) : bool :=
  match v with
  | VNull => false
  | VUndefined => false
  | VBool b => b
  | VNum z => negb (z =? 0)%Z
  | VStr s => negb (String.eqb s "")
  | _ => true
  end.

(** [service.custom.lift] when [!custom || !custom.lift] is false. *)
Definition lift_configuration (sv : Service) : option value :=
  match custom sv with
  | None => None
  | Some c =>
      match JsObject.get "lift" c with
      | Some v => if truthy v then Some v else None
      | None => None
      end
  end.

Definition configureCloudFormation (stack : Stack) (sv : Service)
  : result unit * Service :=
  let r := match resources sv with
           | Some r => r
           | None => {| Resources := None; Outputs := None |}
           end in
  let declared := or_empty (Resources r) in
  let outputs := or_empty (Outputs r) in
  let sv1 := set_resources {| Resources := Some declared;
                              Outputs := Some outputs |} sv in
  match compile stack with
  | Throw e => (Throw e, sv1)
  | Ok template =>
      (Ok tt,
       set_resources
         {| Resources := Some (Object_assign declared (template_Resources template));
            Outputs := Some (Object_assign outputs (template_Outputs template)) |}
         sv1)
  end.

Definition configurePermissions (permissions : list value) (sv : Service)
  : result unit * Service :=
  let current := iamRoleStatements_or_empty (provider sv) in
  let sv1 := set_provider (JsObject.set "iamRoleStatements" current (provider sv)) sv in
  match current with
  | VArr existing =>
      (Ok tt,
       set_provider (JsObject.set "iamRoleStatements" (VArr (existing ++ permissions))
                       (provider sv1)) sv1)
  | _ => (Throw (mkError TypeError "iamRoleStatements.push is not a function"), sv1)
  end.

(** [logServerless] of [utils/logger] logs a line. *)
Definition logServerless (line : string) (st : State) : State :=
  {| service := service st; logged := logged st ++ [line] |}.

Definition setup (env : Environment) (st : State) : result unit * State :=
  match lift_configuration (service st) with
  | None => (Ok tt, st)
  | Some lift_value =>
      let st1 := logServerless "Lift configuration found, applying config." st in
      match getStack env (getStackName env) (getRegion env) lift_value with
      | Throw e => (Throw e, st1)
      | Ok stack =>
          match configureCloudFormation stack (service st1) with
          | (Throw e, sv) => (Throw e, {| service := sv; logged := logged st1 |})
          | (Ok _, sv) =>
              match permissionsInStack stack with
              | Throw e => (Throw e, {| service := sv; logged := logged st1 |})
              | Ok permissions =>
                  match configurePermissions permissions sv with
                  | (r, sv') => (r, {| service := sv'; logged := logged st1 |})
                  end
              end
          end
      end
  end.

End Legacy.

(* ================================================================== *)
(** * More sample deployments *)
(* ================================================================== *)

Module Example.

Definition offline : JsError :=
  mkError Error "getaddrinfo ENOTFOUND cloudformation.us-east-1.amazonaws.com".

Definition upload_failed : JsError := mkError Error "Access Denied".

(** A website: four outputs, of which [domain] has no value and [cname]
    cannot be fetched; a [postDeploy] that rejects and a [preRemove] that
    returns. *)
Definition site : ConstructInterface.t :=
  ConstructInterface.make []
    None
    [("url", Ok (Some "https://example.com"));
     ("domain", Ok None);
     ("cname", Throw offline);
     ("bucket", Ok (Some "app-dev-landing"))]
    (Some (Throw upload_failed))
    (Some (Ok tt))
    (fun _ => false).

(** The command [upload]: its handler needs the construct. *)
Definition upload : CommandDefinition.t :=
  CommandDefinition.make "Upload the files of the website" []
    (fun construct _ =>
       match construct with
       | Some _ => Ok tt
       | None => Throw (mkError TypeError "Cannot read properties of undefined")
       end).

Definition Website : StaticConstructInterface.t :=
  StaticConstructInterface.make "static-website" (VObj []) (Some [("upload", upload)])
    (fun _ _ _ => site).

(** A class whose references carry a key with a dot. *)
Definition Mirror : StaticConstructInterface.t :=
  StaticConstructInterface.make "mirror" (VObj []) None
    (fun _ _ _ =>
       ConstructInterface.make [("bucket.arn", VStr "arn:aws:s3:::mirror")]
         None [] None None (fun _ => false)).

(** A second class registered under the type of [Sample.Alias]. *)
Definition Shadow : StaticConstructInterface.t :=
  StaticConstructInterface.make "alias" (VObj []) None (fun _ _ _ => site).

Definition avatars : ConstructInterface.t :=
  StaticConstructInterface.create Sample.Storage Sample.context "avatars" [].

Definition declarations : JsObject.t Declaration.t :=
  [("avatars", Declaration.make "storage" []);
   ("landing", Declaration.make "static-website" []);
   ("docs", Declaration.make "static-website" [])].

(** Declarations of which the second has a type that nothing
    registers. *)
Definition mistyped : JsObject.t Declaration.t :=
  [("landing", Declaration.make "static-website" []);
   ("db", Declaration.make "database" []);
   ("docs", Declaration.make "static-website" [])].

(** A service without tokens. *)
Definition service : Service.t :=
  Service.make [("name", VStr "aws")] None None (Some (VObj [])) None None.

(** The plugin once the providers and the classes are registered, before
    [registerCommands]. *)
Definition registered (classes : list StaticConstructInterface.t)
  (configuration : option (JsObject.t Declaration.t)) : LiftPlugin :=
  snd ((registerProviders Sample.context ;; registerConstructs classes)
         (blank configuration service [] 8)).

(** The plugin after its constructor ran. *)
Definition plugin (classes : list StaticConstructInterface.t)
  (configuration : option (JsObject.t Declaration.t)) : LiftPlugin :=
  snd (constructor Sample.context classes (blank configuration service [] 8)).

Definition fresh : LiftPlugin := plugin [Sample.Storage; Website] (Some declarations).

Definition loaded : LiftPlugin := snd (loadConstructs fresh).

(** A deployment with a construct of class [Mirror], loaded. *)
Definition mirrored : LiftPlugin :=
  snd (loadConstructs
         (plugin [Mirror] (Some [("copy", Declaration.make "mirror" [])]))).



(** A deployment of websites only: no construct has permissions. *)
Definition quiet : LiftPlugin :=
  snd (loadConstructs
         (plugin [Sample.Storage; Website]
                 (Some [("landing", Declaration.make "static-website" [])]))).

(** A deployment without a [constructs] section. *)
Definition bare : LiftPlugin := plugin [Sample.Storage; Website] None.

(** The sample deployment of [Sample] before the tokens are resolved. *)
Definition unsettled : LiftPlugin :=
  snd ((loadConstructs ;; appendPermissions) Sample.referenced).

(** A deployment whose provider section refers to the bucket of
    [avatars] and whose functions refer to a construct that is not
    declared, after [loadConstructs]. *)
Definition dangling : LiftPlugin :=
  snd ((resolveReference "avatars.bucketName" ;;
        resolveReference "cache.arn" ;;
        loadConstructs)
         (snd (constructor Sample.context [Sample.Storage; Website]
                 (blank (Some declarations)
                    (Service.make [("name", VStr "aws"); ("bucket", VToken 0)]
                       (Some (VObj [("env", VToken 1)]))
                       None (Some (VObj [])) None None)
                    [] 8)))).

(** A storage configuration. *)
Definition archive : JsObject.t value :=
  [("type", VStr "storage"); ("archive", VNum 60); ("encryption", VStr "kms")].

(** The earlier layout: a service with a Lift configuration, and the
    stack that it describes. *)
Definition template : Legacy.CloudFormationTemplate :=
  {| Legacy.template_Resources :=
       [("avatarsBucket", VObj [("Type", VStr "AWS::S3::Bucket")])];
     Legacy.template_Outputs :=
       [("avatarsBucketName", VObj [("Value", VObj [("Ref", VStr "avatarsBucket")])])] |}.

Definition statement : value :=
  VObj [("Effect", VStr "Allow"); ("Action", VStr "s3:*")].

Definition stack : Legacy.Stack :=
  {| Legacy.compile := Ok template;
     Legacy.permissionsInStack := Ok [statement] |}.

(** The same stack when its permissions cannot be obtained. *)
Definition unreachable : Legacy.Stack :=
  {| Legacy.compile := Ok template;
     Legacy.permissionsInStack := Throw offline |}.

Definition environment (stack : Legacy.Stack) : Legacy.Environment :=
  {| Legacy.getStackName := "app-dev";
     Legacy.getRegion := "us-east-1";
     Legacy.getStack := fun _ _ _ => Ok stack |}.

Definition legacy_service : Legacy.Service :=
  {| Legacy.custom := Some [("lift", VObj [("storage", VObj [("avatars", VObj [])])])];
     Legacy.resources :=
       Some {| Legacy.Resources :=
                 Some [("table", VObj [("Type", VStr "AWS::DynamoDB::Table")]);
                       ("avatarsBucket", VObj [("Type", VStr "Custom::Bucket")])];
               Legacy.Outputs := None |};
     Legacy.provider := [("name", VStr "aws")] |}.

Definition legacy_state : Legacy.State :=
  {| Legacy.service := legacy_service; Legacy.logged := [] |}.

End Example.

(* ================================================================== *)
(** * Properties *)
(* ================================================================== *)

(** ** Strings *)

Lemma append_assoc (a b c : string) : (a +++ b) +++ c = a +++ b +++ c.
Proof.
  induction a as [|ch a IH]; simpl; [reflexivity | now rewrite IH].
Qed.

Lemma append_empty_r (a : string) : a +++ "" = a.
Proof.
  induction a as [|ch a IH]; simpl; [reflexivity | now rewrite IH].
Qed.

Lemma Contains_refl (x : string) : JsString.Contains x x.
Proof.
  exists "", "". simpl. now rewrite append_empty_r.
Qed.

Lemma has_char_append (c : ascii) (a b : string) :
  JsString.has_char c (a +++ b) = JsString.has_char c a || JsString.has_char c b.
Proof.
  induction a as [|d a IH]; cbn [append JsString.has_char]; [reflexivity|].
  now rewrite IH, orb_assoc.
Qed.

(** A text holds the characters of what it contains. *)
Lemma Contains_has_char (c : ascii) (sub s : string) :
  JsString.Contains sub s ->
  JsString.has_char c sub = true -> JsString.has_char c s = true.
Proof.
  intros (before & after & ->) H.
  now rewrite !has_char_append, H, orb_true_r.
Qed.

Lemma Contains_prepend (x a s : string) :
  JsString.Contains x s -> JsString.Contains x (a +++ s).
Proof.
  intros (before & after & ->). exists (a +++ before), after.
  now rewrite append_assoc.
Qed.

Lemma Contains_extend (x s b : string) :
  JsString.Contains x s -> JsString.Contains x (s +++ b).
Proof.
  intros (before & after & ->). exists before, (after +++ b).
  now rewrite !append_assoc.
Qed.

Lemma Contains_head (x b : string) : JsString.Contains x (x +++ b).
Proof.
  apply Contains_extend, Contains_refl.
Qed.

Lemma Contains_join (sep name : string) (names : list string) :
  In name names -> JsString.Contains name (JsString.join sep names).
Proof.
  unfold JsString.join.
  induction names as [|n rest IH]; intros Hin; [destruct Hin|].
  destruct rest as [|n' rest'].
  - destruct Hin as [-> | []]. apply Contains_refl.
  - change (String.concat sep (n :: n' :: rest'))
      with (n +++ sep +++ String.concat sep (n' :: rest')).
    destruct Hin as [-> | Hin].
    + apply Contains_head.
    + do 2 apply Contains_prepend. now apply IH.
Qed.

Lemma split_without_separator (sep : ascii) (s : string) :
  JsString.has_char sep s = false -> JsString.split sep s = [s].
Proof.
  induction s as [|c s IH]; simpl; intros H; [reflexivity|].
  apply orb_false_iff in H as [Hc Hs].
  rewrite Hc, (IH Hs). reflexivity.
Qed.

Lemma split_at_separator (sep : ascii) (a b : string) :
  JsString.has_char sep a = false ->
  JsString.split sep (a +++ String sep b) = a :: JsString.split sep b.
Proof.
  induction a as [|c a IH]; simpl; intros H.
  - now rewrite Ascii.eqb_refl.
  - apply orb_false_iff in H as [Hc Ha].
    rewrite Hc, (IH Ha). reflexivity.
Qed.

(** An address without a dot is one piece: the id, and no property. *)
Lemma split_limit_id (id : string) :
  JsString.has_char "." id = false ->
  JsString.split_limit "." 2 id = [id].
Proof.
  intros H. unfold JsString.split_limit.
  now rewrite (split_without_separator _ _ H).
Qed.

(** [id.property]: the text before the first dot and the text after it. *)
Lemma split_limit_id_property (id property : string) :
  JsString.has_char "." id = false ->
  JsString.has_char "." property = false ->
  JsString.split_limit "." 2 (address_of id property) = [id; property].
Proof.
  intros Hid Hp. unfold JsString.split_limit, address_of.
  change ("." +++ property) with (String "." property).
  rewrite (split_at_separator _ _ _ Hid), (split_without_separator _ _ Hp).
  reflexivity.
Qed.

(** [id.property.extra]: what follows the second dot is dropped. *)
Lemma split_limit_id_property_extra (id property extra : string) :
  JsString.has_char "." id = false ->
  JsString.has_char "." property = false ->
  JsString.split_limit "." 2 (address_of id (address_of property extra))
  = [id; property].
Proof.
  intros Hid Hp. unfold JsString.split_limit, address_of.
  change ("." +++ property +++ "." +++ extra)
    with (String "." (property +++ String "." extra)).
  rewrite (split_at_separator _ _ _ Hid), (split_at_separator _ _ _ Hp).
  destruct (JsString.split "." extra); reflexivity.
Qed.

(** ** Objects *)

Section ObjectFacts.
Context {A : Type}.
Implicit Types (o p q : JsObject.t A) (k : string).

Lemma get_app k p q :
  JsObject.get k (p ++ q)
  = match JsObject.get k p with
    | Some v => Some v
    | None => JsObject.get k q
    end.
Proof.
  induction p as [|[k' v'] p IH]; simpl; [reflexivity|].
  destruct (String.eqb k' k); [reflexivity | exact IH].
Qed.

Lemma get_In k o v : JsObject.get k o = Some v -> In (k, v) o.
Proof.
  induction o as [|[k' v'] o IH]; simpl; [discriminate|].
  destruct (String.eqb_spec k' k) as [-> | _].
  - intros [= ->]. now left.
  - intros H. right. now apply IH.
Qed.

Lemma get_not_key k o : JsObject.get k o = None -> ~ In k (JsObject.keys o).
Proof.
  induction o as [|[k' v'] o IH]; simpl; [tauto|].
  destruct (String.eqb_spec k' k) as [-> | Hne]; [discriminate|].
  intros H [Heq | Hin]; [congruence | now apply IH].
Qed.

(** An index key cannot follow an ordinary key. *)
Lemma ordered_after_ordinary_key p k (v : A) n :
  JsString.array_index k = Some n ->
  JsObject.ordered_from None (p ++ [(k, v)]) = false.
Proof.
  intros Hk. induction p as [|[k' v'] p IH]; simpl.
  - now rewrite Hk.
  - destruct (JsString.array_index k'); [reflexivity|].
    rewrite IH. apply andb_false_r.
Qed.

(** The last index key is at least the lower bound. *)
Lemma ordered_last_index p k (v : A) n lo :
  JsString.array_index k = Some n ->
  JsObject.ordered_from (Some lo) (p ++ [(k, v)]) = true ->
  (lo <= n)%N.
Proof.
  intros Hk. revert lo.
  induction p as [|[k' v'] p IH]; simpl; intros lo H.
  - rewrite Hk in H. apply andb_true_iff in H as [H _].
    now apply N.leb_le.
  - destruct (JsString.array_index k') as [m|].
    + apply andb_true_iff in H as [Hlo H]. apply N.leb_le in Hlo.
      apply IH in H. lia.
    + apply andb_true_iff in H as [_ H].
      now rewrite (ordered_after_ordinary_key _ _ _ _ Hk) in H.
Qed.

(** A prefix of an enumeration is an enumeration. *)
Lemma ordered_prefix p q lo :
  JsObject.ordered_from lo (p ++ q) = true -> JsObject.ordered_from lo p = true.
Proof.
  revert lo. induction p as [|[k v] p IH]; simpl; intros lo H; [reflexivity|].
  destruct (JsString.array_index k) as [n|], lo as [l|];
    try discriminate;
    apply andb_true_iff in H as [H1 H2]; apply andb_true_iff; split;
    eauto.
  all: unfold JsObject.hasOwn in *; rewrite get_app in H1;
    destruct (JsObject.get k p); [discriminate | reflexivity].
Qed.

(** In an enumeration the last key does not occur before. *)
Lemma ordered_last_fresh p k (v : A) lo :
  JsObject.ordered_from lo (p ++ [(k, v)]) = true -> JsObject.get k p = None.
Proof.
  revert lo. induction p as [|[k' v'] p IH]; simpl; intros lo H; [reflexivity|].
  destruct (String.eqb_spec k' k) as [-> | Hne].
  - exfalso. destruct (JsString.array_index k) as [n|] eqn:Hk.
    + destruct lo as [l|]; [|discriminate].
      apply andb_true_iff in H as [_ H].
      apply (ordered_last_index _ _ _ _ _ Hk) in H. lia.
    + apply andb_true_iff in H as [H _].
      unfold JsObject.hasOwn in H. rewrite get_app in H.
      destruct (JsObject.get k p); [discriminate|].
      simpl in H. now rewrite String.eqb_refl in H.
  - destruct (JsString.array_index k') as [m|], lo as [l|];
      try discriminate; apply andb_true_iff in H as [_ H]; eauto.
Qed.

(** Before the last index key of an enumeration, a new index key of the
    same value is placed at the end. *)
Lemma insert_index_last p k (v : A) n lo :
  JsString.array_index k = Some n ->
  JsObject.ordered_from (Some lo) (p ++ [(k, v)]) = true ->
  forall (B : Type) (p' : JsObject.t B) (w : B),
    JsObject.keys p' = JsObject.keys p ->
    JsObject.insert_index n k w p' = p' ++ [(k, w)].
Proof.
  intros Hk. revert lo.
  induction p as [|[k' v'] p IH]; simpl; intros lo H B p' w Hkeys.
  - destruct p'; [reflexivity | discriminate].
  - destruct p' as [|[k'' w''] p']; [discriminate|].
    simpl in Hkeys. injection Hkeys as -> Hkeys. simpl.
    destruct (JsString.array_index k') as [m|].
    + apply andb_true_iff in H as [_ H].
      pose proof (ordered_last_index _ _ _ _ _ Hk H) as Hlt.
      destruct (N.ltb_spec n m); [lia|].
      now rewrite (IH _ H).
    + apply andb_true_iff in H as [_ H].
      now rewrite (ordered_after_ordinary_key _ _ _ _ Hk) in H.
Qed.

End ObjectFacts.

Lemma get_same_keys {A B : Type} (k : string) (p : JsObject.t A) (p' : JsObject.t B) :
  JsObject.keys p' = JsObject.keys p ->
  JsObject.get k p = None -> JsObject.get k p' = None.
Proof.
  revert p'. induction p as [|[k1 v1] p IH]; intros [|[k2 v2] p'] Hkeys;
    simpl in *; try discriminate; [reflexivity|].
  injection Hkeys as -> Hkeys.
  destruct (String.eqb k1 k); [discriminate | now apply IH].
Qed.

(** Setting the next key of an enumeration appends it: filling an empty
    object with the entries of an object, in its enumeration order, gives
    the same order of keys. *)
Lemma set_next_key {A B : Type} (p : JsObject.t A) (k : string) (v : A)
  (p' : JsObject.t B) (w : B) :
  JsObject.well_formed (p ++ [(k, v)]) = true ->
  JsObject.keys p' = JsObject.keys p ->
  JsObject.set k w p' = p' ++ [(k, w)].
Proof.
  unfold JsObject.well_formed. intros Hwf Hkeys.
  unfold JsObject.set, JsObject.hasOwn.
  rewrite (get_same_keys k p p' Hkeys (ordered_last_fresh _ _ _ _ Hwf)).
  destruct (JsString.array_index k) as [n|] eqn:Hk; [|reflexivity].
  exact (insert_index_last _ _ _ _ _ Hk Hwf _ _ _ Hkeys).
Qed.

(** ** What a computation leaves in place *)

#[local] Instance keeps_PreOrder {X : Type} (proj : LiftPlugin -> X) :
  PreOrder (keeps proj).
Proof.
  split; unfold keeps; [intros s; reflexivity | intros a b c; congruence].
Qed.

#[local] Instance stays_initialized_PreOrder : PreOrder stays_initialized.
Proof.
  split; unfold stays_initialized; [intros s; tauto | intros a b c; tauto].
Qed.

Section Preservation.
Context (R : LiftPlugin -> LiftPlugin -> Prop) `{!PreOrder R}.

Lemma preserves_ret {A} (a : A) : preserves R (ret a).
Proof. intros s. simpl. reflexivity. Qed.

Lemma preserves_throw {A} (e : JsError) : preserves R (@throw A e).
Proof. intros s. simpl. reflexivity. Qed.

Lemma preserves_lift {A} (r : result A) : preserves R (lift r).
Proof. intros s. simpl. reflexivity. Qed.

Lemma preserves_this : preserves R this.
Proof. intros s. simpl. reflexivity. Qed.

Lemma preserves_modify (f : LiftPlugin -> LiftPlugin) :
  (forall s, R s (f s)) -> preserves R (modify f).
Proof. intros H s. simpl. apply H. Qed.

Lemma preserves_bind {A B} (m : M A) (k : A -> M B) :
  preserves R m -> (forall a, preserves R (k a)) -> preserves R (bind m k).
Proof.
  intros Hm Hk s. unfold bind.
  specialize (Hm s). destruct (m s) as [[a | e] s1]; simpl in *.
  - etransitivity; [exact Hm | apply Hk].
  - exact Hm.
Qed.

Lemma preserves_for_of {A} (l : list A) (body : A -> M unit) :
  (forall x, preserves R (body x)) -> preserves R (for_of l body).
Proof.
  intros Hbody. induction l as [|x l IH]; simpl.
  - apply preserves_ret.
  - apply preserves_bind; [apply Hbody | intros _; exact IH].
Qed.

End Preservation.

(** Walk through a computation; what remains are its state updates. *)
Ltac frame :=
  repeat match goal with
    | |- preserves _ (ret _) => apply preserves_ret; typeclasses eauto
    | |- preserves _ (throw _) => apply preserves_throw; typeclasses eauto
    | |- preserves _ (lift _) => apply preserves_lift; typeclasses eauto
    | |- preserves _ this => apply preserves_this; typeclasses eauto
    | |- preserves _ (bind _ _) =>
        apply preserves_bind; [typeclasses eauto | | intro]
    | |- preserves _ (for_of _ _) =>
        apply preserves_for_of; [typeclasses eauto | intro]
    | |- preserves _ (modify _) => apply preserves_modify; intro
    | |- preserves _ (match ?x with _ => _ end) => destruct x
    | |- preserves _ (let _ := _ in _) => cbv zeta
    end.

Ltac frame_keeps := frame; try (unfold keeps; reflexivity).

Lemma providers_0_pure (s : LiftPlugin) : snd (providers_0 s) = s.
Proof.
  unfold providers_0, bind, this. simpl. now destruct (providers s).
Qed.

Lemma getConstructs_pure (s : LiftPlugin) : snd (getConstructs s) = s.
Proof.
  unfold getConstructs, bind, this. simpl. now destruct (constructs s).
Qed.

Lemma produce_pure (address : string) (s : LiftPlugin) :
  snd (produce address s) = s.
Proof.
  unfold produce, getConstructs, bind, this, throw, ret. cbn.
  destruct (constructs s) as [cs|]; cbn; [|reflexivity].
  repeat match goal with
         | |- context [Lodash.has ?b ?o ?k] => destruct (Lodash.has b o k); cbn
         | |- context [JsObject.index ?o ?k] => destruct (JsObject.index o k); cbn
         end; reflexivity.
Qed.

Lemma assign_construct_stays id c : preserves stays_initialized (assign_construct id c).
Proof.
  unfold assign_construct. frame; unfold stays_initialized; simpl;
    solve [intros _; discriminate | intros H; exact H].
Qed.

Lemma loadConstructs_keeps_tokenMap : preserves (keeps tokenMap) loadConstructs.
Proof. unfold loadConstructs, loadConstructs_body, assign_construct, mark, providers_0.
  frame_keeps. Qed.

Lemma loadConstructs_keeps_providers : preserves (keeps providers) loadConstructs.
Proof. unfold loadConstructs, loadConstructs_body, assign_construct, mark, providers_0.
  frame_keeps. Qed.

Lemma loadConstructs_keeps_service : preserves (keeps service) loadConstructs.
Proof. unfold loadConstructs, loadConstructs_body, assign_construct, mark, providers_0.
  frame_keeps. Qed.


Lemma appendPermissions_keeps_tokenMap : preserves (keeps tokenMap) appendPermissions.
Proof. unfold appendPermissions, getConstructs, mark. frame_keeps. Qed.

Lemma resolveTokens_pure input s : snd (resolveTokens input s) = s.
Proof.
  destruct input as [v|]; [|reflexivity].
  unfold resolveTokens, providers_0, bind, this, lift, ret. simpl.
  destruct (providers s); [reflexivity|].
  now destruct (Tokenization.resolve _ _ _).
Qed.

Lemma resolveTokens_object_pure input s : snd (resolveTokens_object input s) = s.
Proof.
  unfold resolveTokens_object, providers_0, bind, this, lift. simpl.
  now destruct (providers s).
Qed.










(** ** Instantiation happens once *)

Lemma loadConstructs_fresh (s : LiftPlugin) :
  constructs s = None ->
  loadConstructs s
  = for_of (JsObject.entries (constructsInputConfiguration s))
      (loadConstructs_body (constructsInputConfiguration s))
      (set_trace (trace s ++ [Instantiation]) (set_constructs (Some []) s)).
Proof.
  intros H. unfold loadConstructs, bind, this. rewrite H. reflexivity.
Qed.

Lemma loadConstructs_body_stays input entry :
  preserves stays_initialized (loadConstructs_body input entry).
Proof.
  unfold loadConstructs_body, providers_0. frame.
  apply assign_construct_stays.
Qed.

(** Whatever happens in [loadConstructs], the constructs mapping exists
    afterwards. *)
Lemma loadConstructs_initializes (s : LiftPlugin) :
  constructs (snd (loadConstructs s)) <> None.
Proof.
  destruct (constructs s) as [cs|] eqn:H.
  - unfold loadConstructs, bind, this. rewrite H. simpl. congruence.
  - rewrite (loadConstructs_fresh s H).
    apply (preserves_for_of stays_initialized).
    + apply loadConstructs_body_stays.
    + simpl. discriminate.
Qed.

Lemma loadConstructs_again (s : LiftPlugin) :
  constructs s <> None -> loadConstructs s = (Throw already_initialized, s).
Proof.
  intros H. unfold loadConstructs, bind, this.
  destruct (constructs s); [reflexivity | congruence].
Qed.

(** C3. A second call of [loadConstructs] in the same run throws the
    "already initialized" error and changes nothing, whatever the
    declarations are and whether the first call returned or threw. *)
Theorem loadConstructs_twice_fails (s : LiftPlugin) :
  let s1 := snd (loadConstructs s) in
  loadConstructs s1 = (Throw already_initialized, s1)
  /\ errorClass already_initialized = Error
  /\ is_configuration_error already_initialized = false.
Proof.
  intros s1. split; [|split; reflexivity].
  apply loadConstructs_again, loadConstructs_initializes.
Qed.

(** ** Reads before instantiation *)

(** C4. Before [loadConstructs] has run, every reader of the constructs
    mapping throws the "not initialized" error and leaves the state as
    it is: forcing a deferred reference, aggregating permissions, info,
    post-deploy, pre-remove and a delegated command. *)
Theorem reads_before_loadConstructs_fail (s : LiftPlugin) :
  constructs s = None ->
  getConstructs s = (Throw not_initialized, s)
  /\ (forall address, produce address s = (Throw not_initialized, s))
  /\ (forall n address,
        nth_error (tokenMap s) n = Some address ->
        force s n = Throw not_initialized)
  /\ appendPermissions s = (Throw not_initialized, s)
  /\ info s = (Throw not_initialized, s)
  /\ postDeploy s = (Throw not_initialized, s)
  /\ preRemove s = (Throw not_initialized, s)
  /\ (forall id definition,
        commandHook id definition s = (Throw not_initialized, s))
  /\ (forall key id definition,
        JsObject.get key (commandHooks s) = Some (id, definition) ->
        hooks (construct_command key) s = (Throw not_initialized, s)).
Proof.
  intros H.
  assert (Hget : getConstructs s = (Throw not_initialized, s)).
  { unfold getConstructs, bind, this. now rewrite H. }
  assert (Hbind : forall (B : Type) (k : JsObject.t ConstructInterface.t -> M B),
             bind getConstructs k s = (Throw not_initialized, s)).
  { intros B k. unfold bind. now rewrite Hget. }
  repeat split; try exact Hget; intros; try apply Hbind.
  - unfold force. rewrite H0. unfold produce. now rewrite Hbind.
  - unfold hooks, bind at 1, this. rewrite H0. apply Hbind.
Qed.

Lemma reads_before_loadConstructs_fail_witness :
  constructs Sample.fresh = None
  /\ info Sample.fresh = (Throw not_initialized, Sample.fresh).
Proof.
  split; [reflexivity|].
  apply (reads_before_loadConstructs_fail Sample.fresh). reflexivity.
Defined.

(** ** Instantiation *)

Lemma registered_class (p : AwsProvider.t) (entry : string * Declaration.t) :
  registered p entry = true ->
  exists C, class_of (AwsProvider.constructClasses p) (Declaration.type (snd entry))
            = Some C.
Proof.
  unfold registered, class_of, AwsProvider.getAllConstructClasses.
  induction (AwsProvider.constructClasses p) as [|C classes IH]; simpl;
    [discriminate|].
  destruct (String.eqb _ _); [now exists C | exact IH].
Qed.

Lemma class_of_type classes type C :
  class_of classes type = Some C ->
  StaticConstructInterface.type C = type /\ In C classes.
Proof.
  unfold class_of. intros H. apply find_some in H as [Hin Heq].
  now apply String.eqb_eq in Heq.
Qed.

(** *** The key [__proto__] *)

Lemma ordered_from_none {A : Type} (o : JsObject.t A) lo :
  JsObject.ordered_from None o = true -> JsObject.ordered_from lo o = true.
Proof.
  destruct o as [|[k v] o]; [reflexivity|]. simpl.
  destruct (JsString.array_index k); [discriminate | now destruct lo].
Qed.

Lemma get_own_ids_none {A : Type} (o : JsObject.t A) k :
  JsObject.get k o = None -> JsObject.get k (own_ids o) = None.
Proof.
  unfold own_ids. remember "__proto__" as proto.
  induction o as [|[k' v'] o IH]; cbn [JsObject.get filter fst]; [reflexivity|].
  destruct (String.eqb k' k) eqn:E; [discriminate|]. intros H.
  destruct (negb (String.eqb k' proto)); cbn [JsObject.get]; [rewrite E|];
    now apply IH.
Qed.

Lemma get_own_ids {A : Type} (o : JsObject.t A) k :
  k <> "__proto__" -> JsObject.get k (own_ids o) = JsObject.get k o.
Proof.
  unfold own_ids. remember "__proto__" as proto. intros Hk.
  induction o as [|[k' v'] o IH]; cbn [JsObject.get filter fst]; [reflexivity|].
  destruct (String.eqb_spec k' proto) as [-> | Hne]; cbn [negb JsObject.get].
  - destruct (String.eqb_spec proto k) as [<- | _]; [contradiction | exact IH].
  - destruct (String.eqb k' k); [reflexivity | exact IH].
Qed.

Lemma get_own_ids_proto {A : Type} (o : JsObject.t A) :
  JsObject.get "__proto__" (own_ids o) = None.
Proof.
  unfold own_ids. remember "__proto__" as proto.
  induction o as [|[k' v'] o IH]; cbn [JsObject.get filter fst]; [reflexivity|].
  destruct (String.eqb k' proto) eqn:E; cbn [negb JsObject.get]; [exact IH|].
  now rewrite E.
Qed.

(** Without the entry under [__proto__] an enumeration is still one. *)
Lemma ordered_own_ids {A : Type} (o : JsObject.t A) lo :
  JsObject.ordered_from lo o = true -> JsObject.ordered_from lo (own_ids o) = true.
Proof.
  revert lo. induction o as [|[k v] o IH]; intros lo; [reflexivity|].
  destruct (String.eqb_spec k "__proto__") as [-> | Hne].
  - change (own_ids (("__proto__", v) :: o)) with (own_ids o).
    cbn [JsObject.ordered_from].
    change (JsString.array_index "__proto__") with (@None N).
    intros H. apply andb_true_iff in H as [_ H].
    apply ordered_from_none, IH, H.
  - assert (Hkept : own_ids ((k, v) :: o) = (k, v) :: own_ids o).
    { unfold own_ids. cbn [filter fst].
      apply String.eqb_neq in Hne. now rewrite Hne. }
    rewrite Hkept. cbn [JsObject.ordered_from].
    destruct (JsString.array_index k) as [n|].
    + destruct lo as [l|]; [|discriminate]. intros H.
      apply andb_true_iff in H as [Hl H]. rewrite Hl. now apply IH.
    + intros H. apply andb_true_iff in H as [Hfresh H].
      rewrite (IH None H), andb_true_r.
      unfold JsObject.hasOwn in *.
      destruct (JsObject.get k o) eqn:E; [discriminate|].
      now rewrite (get_own_ids_none o k E).
Qed.

Lemma own_ids_cons {A : Type} (o : JsObject.t A) k (v : A) :
  own_ids ((k, v) :: o)
  = if String.eqb k "__proto__" then own_ids o else (k, v) :: own_ids o.
Proof.
  unfold own_ids. cbn [filter fst]. now destruct (String.eqb k "__proto__").
Qed.

Lemma own_ids_app {A : Type} (p q : JsObject.t A) :
  own_ids (p ++ q) = own_ids p ++ own_ids q.
Proof. apply filter_app. Qed.

(** In an enumeration an ordinary key does not come back. *)
Lemma ordered_later_fresh {A : Type} (p q : JsObject.t A) k (v : A) lo :
  JsString.array_index k = None ->
  JsObject.ordered_from lo (p ++ (k, v) :: q) = true ->
  JsObject.get k q = None.
Proof.
  intros Hk. revert lo. induction p as [|[k' v'] p IH]; intros lo; simpl.
  - rewrite Hk. intros H. apply andb_true_iff in H as [H _].
    unfold JsObject.hasOwn in H. now destruct (JsObject.get k q).
  - destruct (JsString.array_index k') as [n|].
    + destruct lo as [l|]; [|discriminate]. intros H.
      apply andb_true_iff in H as [_ H]. exact (IH _ H).
    + intros H. apply andb_true_iff in H as [_ H]. exact (IH _ H).
Qed.

(** What one turn of the loop does when the type of the entry is
    registered and the entry is the next one in enumeration order: the
    construct becomes an own property, or, under [__proto__], the
    prototype. *)
Lemma loadConstructs_body_spec (p : AwsProvider.t) ps input done id d s acc :
  providers s = p :: ps ->
  constructs s = Some acc ->
  JsObject.well_formed (done ++ [(id, d)]) = true ->
  JsObject.keys acc = JsObject.keys (own_ids done) ->
  registered p (id, d) = true ->
  exists C,
    class_of (AwsProvider.constructClasses p) (Declaration.type d) = Some C
    /\ AwsProvider.create p input (Declaration.type d) id
       = Ok (StaticConstructInterface.create C (AwsProvider.context p) id
               match JsObject.get id input with
               | Some d' => Declaration.parameters d'
               | None => []
               end)
    /\ forall c, AwsProvider.create p input (Declaration.type d) id = Ok c ->
       loadConstructs_body input (id, d) s
       = (Ok tt,
          if String.eqb id "__proto__" then set_object acc (Some c) s
          else set_object (acc ++ [(id, c)]) (constructsPrototype s) s).
Proof.
  intros Hp Hc Hwf Hkeys Hreg.
  destruct (registered_class p _ Hreg) as [C HC]. simpl in HC.
  exists C. split; [exact HC|].
  assert (Hcreate : AwsProvider.create p input (Declaration.type d) id
                    = Ok (StaticConstructInterface.create C (AwsProvider.context p) id
                            match JsObject.get id input with
                            | Some d' => Declaration.parameters d'
                            | None => []
                            end)).
  { unfold AwsProvider.create. unfold class_of in HC.
    unfold AwsProvider.getAllConstructClasses. now rewrite HC. }
  split; [exact Hcreate|].
  intros c Hc'.
  unfold loadConstructs_body, providers_0, assign_construct, bind, this, lift,
    modify, ret.
  rewrite Hp. cbn [fst snd]. rewrite Hc', Hc.
  destruct (String.eqb_spec id "__proto__") as [-> | Hne]; [reflexivity|].
  assert (Hwf' : JsObject.well_formed (own_ids done ++ [(id, d)]) = true).
  { unfold JsObject.well_formed in *.
    apply ordered_own_ids in Hwf. rewrite own_ids_app in Hwf.
    unfold own_ids at 2 in Hwf. cbn [filter fst] in Hwf.
    apply String.eqb_neq in Hne. now rewrite Hne in Hwf. }
  now rewrite (set_next_key (own_ids done) id d acc c Hwf' Hkeys).
Qed.

(** The loop of [loadConstructs] over entries whose types are all
    registered, [done] being the entries handled before them. *)
Lemma loadConstructs_loop (p : AwsProvider.t) ps input rest :
  forallb (registered p) rest = true ->
  forall done s acc,
    JsObject.well_formed (done ++ rest) = true ->
    providers s = p :: ps ->
    constructs s = Some acc ->
    JsObject.keys acc = JsObject.keys (own_ids done) ->
    exists more,
      for_of rest (loadConstructs_body input) s
      = (Ok tt,
         set_object (acc ++ more)
           (prototype_after p input rest (constructsPrototype s)) s)
      /\ Forall2 (fun entry made =>
                    fst made = fst entry
                    /\ AwsProvider.create p input (Declaration.type (snd entry))
                                          (fst entry) = Ok (snd made))
                 (own_ids rest) more.
Proof.
  induction rest as [|[id d] rest IH]; intros Hreg done s acc Hwf Hp Hc Hkeys.
  - exists []. split; [|constructor].
    simpl. unfold ret, prototype_after. cbn. rewrite app_nil_r. f_equal.
    destruct s; simpl in *; now subst.
  - cbn [forallb] in Hreg. apply andb_true_iff in Hreg as [Hreg1 Hreg].
    assert (Hwf1 : JsObject.well_formed (done ++ [(id, d)]) = true).
    { unfold JsObject.well_formed in *. apply (ordered_prefix _ rest).
      now rewrite <- app_assoc. }
    destruct (loadConstructs_body_spec p ps input done id d s acc
                Hp Hc Hwf1 Hkeys Hreg1) as (C & HC & Hcreate & Hstep).
    specialize (Hstep _ Hcreate).
    set (c := StaticConstructInterface.create C _ _ _) in *.
    assert (Hwf2 : JsObject.well_formed ((done ++ [(id, d)]) ++ rest) = true)
      by now rewrite <- app_assoc.
    destruct (String.eqb_spec id "__proto__") as [-> | Hne].
    + destruct (IH Hreg (done ++ [("__proto__", d)]) (set_object acc (Some c) s) acc
                  Hwf2 Hp eq_refl) as (more & Hloop & Hall).
      { rewrite own_ids_app. cbn. now rewrite app_nil_r. }
      exists more. split; [|exact Hall].
      cbn [for_of]. unfold bind. rewrite Hstep, Hloop. f_equal.
      assert (Hfresh : JsObject.get "__proto__" rest = None).
      { unfold JsObject.well_formed in Hwf.
        now apply (ordered_later_fresh done rest "__proto__" d _ eq_refl Hwf). }
      unfold prototype_after. rewrite Hfresh. cbn.
      now rewrite Hcreate.
    + destruct (IH Hreg (done ++ [(id, d)])
                  (set_object (acc ++ [(id, c)]) (constructsPrototype s) s)
                  (acc ++ [(id, c)]) Hwf2 Hp eq_refl) as (more & Hloop & Hall).
      { rewrite own_ids_app. unfold own_ids at 2. cbn [filter fst].
        apply String.eqb_neq in Hne. rewrite Hne. cbn [negb].
        unfold JsObject.keys in *. rewrite !map_app, Hkeys. reflexivity. }
      exists ((id, c) :: more). split.
      * cbn [for_of]. unfold bind. rewrite Hstep, Hloop.
        rewrite <- app_assoc. f_equal.
        unfold prototype_after. cbn [JsObject.get].
        apply String.eqb_neq in Hne. now rewrite Hne.
      * unfold own_ids. cbn [filter fst].
        apply String.eqb_neq in Hne. rewrite Hne. cbn [negb].
        constructor; [split; [reflexivity | exact Hcreate] | exact Hall].
Qed.

Lemma Forall2_keys {A B} (R : string * A -> string * B -> Prop) l l' :
  Forall2 (fun x y => fst y = fst x /\ R x y) l l' ->
  JsObject.keys l' = JsObject.keys l.
Proof.
  induction 1 as [|x y l l' [H _] _ IH]; simpl; [reflexivity|].
  now rewrite H, IH.
Qed.

(** In an enumeration an entry is found under its key. *)
Lemma get_entry {A} (o : JsObject.t A) k v :
  JsObject.well_formed o = true -> In (k, v) o -> JsObject.get k o = Some v.
Proof.
  intros Hwf Hin. apply in_split in Hin as (l1 & l2 & ->).
  rewrite get_app.
  assert (H : JsObject.get k l1 = None).
  { apply (ordered_last_fresh l1 k v (Some 0%N)).
    apply (ordered_prefix _ l2). now rewrite <- app_assoc. }
  rewrite H. simpl. now rewrite String.eqb_refl.
Qed.

Lemma In_own_ids {A : Type} (o : JsObject.t A) k v :
  In (k, v) o -> k <> "__proto__" -> In (k, v) (own_ids o).
Proof.
  intros Hin Hk. apply filter_In. split; [exact Hin|].
  cbn. now apply String.eqb_neq in Hk as ->.
Qed.

(** [loadConstructs] on a fresh plugin with a valid declaration set. *)
Lemma loadConstructs_valid (s : LiftPlugin) p ps :
  constructs s = None ->
  providers s = p :: ps ->
  JsObject.well_formed (constructsInputConfiguration s) = true ->
  forallb (registered p) (constructsInputConfiguration s) = true ->
  exists instances,
    loadConstructs s
    = (Ok tt,
       set_object instances
         (prototype_after p (constructsInputConfiguration s)
            (constructsInputConfiguration s) None)
         (set_trace (trace s ++ [Instantiation]) s))
    /\ JsObject.keys instances
       = JsObject.keys (own_ids (constructsInputConfiguration s))
    /\ forall id d,
         In (id, d) (constructsInputConfiguration s) ->
         exists C,
           class_of (AwsProvider.constructClasses p) (Declaration.type d) = Some C
           /\ construct_at instances
                (prototype_after p (constructsInputConfiguration s)
                   (constructsInputConfiguration s) None) id
              = Some (StaticConstructInterface.create C (AwsProvider.context p) id
                        (Declaration.parameters d))
           /\ (id <> "__proto__" ->
               JsObject.get id instances
               = Some (StaticConstructInterface.create C (AwsProvider.context p) id
                         (Declaration.parameters d))).
Proof.
  intros Hnone Hp Hwf Hreg.
  set (input := constructsInputConfiguration s) in *.
  destruct (loadConstructs_loop p ps input input Hreg []
              (set_trace (trace s ++ [Instantiation]) (set_constructs (Some []) s))
              [] Hwf Hp eq_refl eq_refl) as (instances & Hloop & Hall).
  exists instances. split; [|split].
  - rewrite (loadConstructs_fresh s Hnone). fold input.
    unfold JsObject.entries. rewrite Hloop. reflexivity.
  - exact (Forall2_keys _ _ _ Hall).
  - intros id d Hin.
    pose proof (get_entry input id d Hwf Hin) as Hget.
    assert (Hreg1 : registered p (id, d) = true).
    { rewrite forallb_forall in Hreg. now apply Hreg. }
    destruct (registered_class p _ Hreg1) as [C HC]. simpl in HC.
    assert (Hcreate : AwsProvider.create p input (Declaration.type d) id
                      = Ok (StaticConstructInterface.create C (AwsProvider.context p)
                              id (Declaration.parameters d))).
    { unfold AwsProvider.create. unfold class_of in HC.
      unfold AwsProvider.getAllConstructClasses. now rewrite HC, Hget. }
    exists C. split; [exact HC|].
    assert (Hown : id <> "__proto__" ->
                   JsObject.get id instances
                   = Some (StaticConstructInterface.create C (AwsProvider.context p)
                             id (Declaration.parameters d))).
    { intros Hne.
      pose proof (In_own_ids input id d Hin Hne) as Hin'.
      assert (Hwf' : JsObject.well_formed (own_ids input) = true)
        by (unfold JsObject.well_formed in *; now apply ordered_own_ids).
      apply in_split in Hin' as (l1 & l2 & Hsplit).
      rewrite Hsplit in Hall, Hwf'.
      apply Forall2_app_inv_l in Hall as (i1 & i2 & H1 & H2 & ->).
      inversion H2 as [|x [id' c] l l' [Hid Hc] Hrest]; subst x l i2.
      simpl in Hid, Hc. subst id'.
      rewrite get_app.
      assert (Hfresh : JsObject.get id l1 = None).
      { apply (ordered_last_fresh l1 id d (Some 0%N)).
        apply (ordered_prefix _ l2). rewrite <- app_assoc. exact Hwf'. }
      rewrite (get_same_keys id l1 i1 (Forall2_keys _ _ _ H1) Hfresh).
      simpl. rewrite String.eqb_refl. f_equal.
      rewrite Hcreate in Hc. now injection Hc as <-. }
    split; [|exact Hown].
    unfold construct_at.
    destruct (String.eqb_spec id "__proto__") as [-> | Hne].
    + assert (Hnot : JsObject.get "__proto__" instances = None).
      { apply (get_same_keys "__proto__" (own_ids input) instances
                 (Forall2_keys _ _ _ Hall)), get_own_ids_proto. }
      rewrite Hnot. unfold prototype_after. now rewrite Hget, Hcreate.
    + now rewrite (Hown Hne).
Qed.

Lemma own_ids_id {A : Type} (o : JsObject.t A) :
  JsObject.get "__proto__" o = None -> own_ids o = o.
Proof.
  unfold own_ids. remember "__proto__" as proto.
  induction o as [|[k v] o IH]; cbn [JsObject.get filter fst]; [reflexivity|].
  destruct (String.eqb k proto); [discriminate|].
  intros H. cbn [negb]. now rewrite (IH H).
Qed.

(** X21. For a valid declaration set (the entries of the [constructs]
    object, every type registered), [loadConstructs] on a fresh plugin
    returns; each declaration has its instance, built by the factory of
    the class found in the registry from the provider context, the id
    and the parameters of the declaration, and [constructs[id]] is that
    instance. The instances are own properties under their ids, in
    declaration order, but for a declaration under [__proto__], whose
    instance is the prototype of the mapping: without such a declaration
    the keys of the mapping are the declaration ids and there are as
    many instances as declarations. *)
Theorem loadConstructs_one_instance_per_declaration (s : LiftPlugin) p ps :
  constructs s = None ->
  providers s = p :: ps ->
  JsObject.well_formed (constructsInputConfiguration s) = true ->
  forallb (registered p) (constructsInputConfiguration s) = true ->
  exists s' instances,
    loadConstructs s = (Ok tt, s')
    /\ constructs s' = Some instances
    /\ JsObject.keys instances
       = JsObject.keys (own_ids (constructsInputConfiguration s))
    /\ (JsObject.get "__proto__" (constructsInputConfiguration s) = None ->
        JsObject.keys instances = JsObject.keys (constructsInputConfiguration s)
        /\ length instances = length (constructsInputConfiguration s))
    /\ forall id d,
         In (id, d) (constructsInputConfiguration s) ->
         exists C,
           class_of (AwsProvider.constructClasses p) (Declaration.type d) = Some C
           /\ StaticConstructInterface.type C = Declaration.type d
           /\ construct_at instances (constructsPrototype s') id
              = Some (StaticConstructInterface.create C (AwsProvider.context p) id
                        (Declaration.parameters d))
           /\ (id <> "__proto__" ->
               JsObject.get id instances
               = Some (StaticConstructInterface.create C (AwsProvider.context p) id
                         (Declaration.parameters d))).
Proof.
  intros Hnone Hp Hwf Hreg.
  destruct (loadConstructs_valid s p ps Hnone Hp Hwf Hreg)
    as (instances & Hrun & Hkeys & Hall).
  eexists _, instances. split; [exact Hrun|].
  split; [reflexivity|]. split; [exact Hkeys|]. split.
  - intros Hnoproto. rewrite (own_ids_id _ Hnoproto) in Hkeys.
    split; [exact Hkeys|].
    unfold JsObject.keys in Hkeys.
    now rewrite <- (length_map fst instances), Hkeys, length_map.
  - intros id d Hin. destruct (Hall id d Hin) as (C & HC & Hat & Hget).
    exists C. split; [exact HC|]. split; [now apply class_of_type in HC|].
    split; [exact Hat | exact Hget].
Qed.

Lemma loadConstructs_one_instance_per_declaration_witness :
  exists s' instances,
    loadConstructs Sample.referenced = (Ok tt, s')
    /\ constructs s' = Some instances
    /\ JsObject.keys instances = ["avatars"; "link"; "odd"].
Proof.
  destruct (loadConstructs_one_instance_per_declaration Sample.referenced
              (AwsProvider.make Sample.context
                 [Sample.Storage; Sample.Alias; Sample.Odd]) [])
    as (s' & instances & Hrun & Hc & Hkeys & _);
    try reflexivity.
  exists s', instances. repeat split; assumption.
Defined.


(** ** Reading back what was set *)

Section SetFacts.
Context {A : Type}.
Implicit Types (o : JsObject.t A) (k : string) (v : A).

Lemma get_replace_same k v o :
  JsObject.hasOwn k o = true -> JsObject.get k (JsObject.replace k v o) = Some v.
Proof.
  unfold JsObject.hasOwn.
  induction o as [|[k' v'] o IH]; simpl; [discriminate|].
  destruct (String.eqb k' k) eqn:E; simpl; rewrite E; [reflexivity | exact IH].
Qed.

Lemma get_replace_other k k' v o :
  k' <> k -> JsObject.get k' (JsObject.replace k v o) = JsObject.get k' o.
Proof.
  intros Hne. induction o as [|[k1 v1] o IH]; simpl; [reflexivity|].
  destruct (String.eqb_spec k1 k) as [-> | H1]; simpl.
  - apply not_eq_sym, String.eqb_neq in Hne. now rewrite Hne.
  - destruct (String.eqb k1 k'); [reflexivity | exact IH].
Qed.

Lemma get_insert_index_same n k v o :
  JsObject.get k o = None ->
  JsObject.get k (JsObject.insert_index n k v o) = Some v.
Proof.
  induction o as [|[k' v'] o IH]; simpl; intros H.
  - now rewrite String.eqb_refl.
  - destruct (String.eqb k' k) eqn:E; [discriminate|].
    destruct (JsString.array_index k') as [m|];
      [destruct (n <? m)%N|]; simpl; rewrite ?String.eqb_refl, ?E; auto.
Qed.

Lemma get_insert_index_other n k k' v o :
  k' <> k ->
  JsObject.get k' (JsObject.insert_index n k v o) = JsObject.get k' o.
Proof.
  intros Hne. apply not_eq_sym, String.eqb_neq in Hne.
  induction o as [|[k1 v1] o IH]; simpl.
  - now rewrite Hne.
  - destruct (JsString.array_index k1) as [m|];
      [destruct (n <? m)%N|]; simpl; rewrite ?Hne; try reflexivity.
    destruct (String.eqb k1 k'); [reflexivity | exact IH].
Qed.

(** [o[k] = v; o[k]] reads [v]. *)
Lemma get_set_same k v o : JsObject.get k (JsObject.set k v o) = Some v.
Proof.
  unfold JsObject.set. destruct (JsObject.hasOwn k o) eqn:Hown.
  - now apply get_replace_same.
  - assert (Hnone : JsObject.get k o = None).
    { unfold JsObject.hasOwn in Hown. now destruct (JsObject.get k o). }
    destruct (JsString.array_index k).
    + now apply get_insert_index_same.
    + rewrite get_app, Hnone. simpl. now rewrite String.eqb_refl.
Qed.

(** [o[k] = v] leaves the other properties as they are. *)
Lemma get_set_other k k' v o :
  k' <> k -> JsObject.get k' (JsObject.set k v o) = JsObject.get k' o.
Proof.
  intros Hne. unfold JsObject.set. destruct (JsObject.hasOwn k o).
  - now apply get_replace_other.
  - destruct (JsString.array_index k).
    + now apply get_insert_index_other.
    + rewrite get_app. destruct (JsObject.get k' o); [reflexivity|].
      simpl. apply not_eq_sym, String.eqb_neq in Hne. now rewrite Hne.
Qed.

End SetFacts.

(** ** Permission aggregation *)

Lemma length_flat_map_sum {A B} (f : A -> list B) (l : list A) :
  length (flat_map f l) = list_sum (map (fun x => length (f x)) l).
Proof.
  induction l as [|x l IH]; simpl; [reflexivity|].
  now rewrite length_app, IH.
Qed.

(** X22. With the constructs [cs] in place and the statement list of the
    role a list (or absent), [appendPermissions] returns;
    the statements it aggregates are the permission statements of the
    constructs, construct after construct in the order of the mapping
    (none for a construct without [permissions]), as many as the sum of
    the [k_i]; the statement list of the deployment role afterwards is
    the list it held before followed by these statements, and no other
    property of the provider section changes. After [loadConstructs] on
    a valid declaration set the order of the mapping is the order of the
    declarations, a declaration under [__proto__] left out. *)
Theorem appendPermissions_appends_in_order (s : LiftPlugin) cs existing :
  constructs s = Some cs ->
  iamRoleStatements_or_empty (Service.provider (service s)) = VArr existing ->
  let statements :=
    flat_map (fun entry => permissions_of (snd entry)) (JsObject.entries cs) in
  exists s',
    appendPermissions s = (Ok tt, s')
    /\ role_statements s = existing
    /\ role_statements s' = existing ++ statements
    /\ statements = concat (map permissions_of (JsObject.values cs))
    /\ length statements
       = list_sum (map (fun entry => length (permissions_of (snd entry))) cs)
    /\ (forall k, k <> "iamRoleStatements" ->
          JsObject.get k (Service.provider (service s'))
          = JsObject.get k (Service.provider (service s)))
    /\ (forall s0 p ps,
          constructs s0 = None ->
          providers s0 = p :: ps ->
          JsObject.well_formed (constructsInputConfiguration s0) = true ->
          forallb (registered p) (constructsInputConfiguration s0) = true ->
          s = snd (loadConstructs s0) ->
          JsObject.keys cs
          = JsObject.keys (own_ids (constructsInputConfiguration s0))).
Proof.
  intros Hcs Hrole statements.
  assert (Hconcat : statements = concat (map permissions_of (JsObject.values cs))).
  { unfold statements, JsObject.entries, JsObject.values.
    rewrite flat_map_concat_map, map_map. reflexivity. }
  assert (Hlen : length statements
                 = list_sum (map (fun entry => length (permissions_of (snd entry))) cs)).
  { apply length_flat_map_sum. }
  assert (Hdecl : forall s0 p ps,
             constructs s0 = None ->
             providers s0 = p :: ps ->
             JsObject.well_formed (constructsInputConfiguration s0) = true ->
             forallb (registered p) (constructsInputConfiguration s0) = true ->
             s = snd (loadConstructs s0) ->
             JsObject.keys cs
             = JsObject.keys (own_ids (constructsInputConfiguration s0))).
  { intros s0 p ps H0 Hp Hwf Hreg ->.
    destruct (loadConstructs_valid s0 p ps H0 Hp Hwf Hreg)
      as (instances & Hrun & Hkeys & _).
    rewrite Hrun in Hcs. simpl in Hcs. now injection Hcs as <-. }
  assert (Hbefore : role_statements s = existing).
  { unfold role_statements. now rewrite Hrole. }
  unfold appendPermissions, getConstructs, bind, this, mark, modify.
  rewrite Hcs. cbn [fst snd ret]. fold statements.
  destruct (Nat.eqb_spec (length statements) 0) as [Hzero | Hpos].
  - eexists. split; [reflexivity|].
    apply length_zero_iff_nil in Hzero.
    split; [exact Hbefore|]. split.
    { unfold role_statements. cbn. rewrite Hrole, Hzero.
      now rewrite app_nil_r. }
    split; [exact Hconcat|]. split; [exact Hlen|].
    split; [intros k _; reflexivity | exact Hdecl].
  - cbn [service set_trace]. rewrite Hrole. cbn.
    eexists. split; [reflexivity|].
    split; [exact Hbefore|]. split.
    { unfold role_statements, iamRoleStatements_or_empty. cbn.
      now rewrite get_set_same. }
    split; [exact Hconcat|]. split; [exact Hlen|].
    split; [|exact Hdecl].
    intros k Hk. cbn. now rewrite !get_set_other.
Qed.

Lemma appendPermissions_appends_in_order_witness :
  exists s',
    appendPermissions Sample.loaded = (Ok tt, s')
    /\ length (role_statements s') = 2.
Proof.
  destruct (appendPermissions_appends_in_order Sample.loaded
              [("avatars", StaticConstructInterface.create Sample.Storage
                             Sample.context "avatars" []);
               ("link", StaticConstructInterface.create Sample.Alias
                          Sample.context "link" []);
               ("odd", StaticConstructInterface.create Sample.Odd
                         Sample.context "odd" [])]
              [VObj [("Effect", VStr "Deny")]])
    as (s' & Hrun & _ & Hafter & _); try reflexivity.
  exists s'. split; [exact Hrun|]. now rewrite Hafter.
Defined.


(** ** Forcing a reference *)

(** A text without dot and without opening bracket holds no path
    syntax. *)
Lemma isDeepProp_plain (key : string) :
  JsString.has_char "." key = false ->
  JsString.has_char "[" key = false ->
  Lodash.isDeepProp key = false.
Proof.
  induction key as [|c key IH]; [reflexivity|].
  cbn [JsString.has_char Lodash.isDeepProp]. intros Hdot Hbracket.
  apply orb_false_iff in Hdot as [Hdot Hdot'].
  apply orb_false_iff in Hbracket as [Hbracket Hbracket'].
  now rewrite Hdot, Hbracket, (IH Hdot' Hbracket').
Qed.

(** For a key that lodash takes as one property name, [has(o, key)]
    holds exactly when [o[key]] is an own property. *)
Lemma has_as_index {A : Type} (below : A -> list string -> bool)
  (o : JsObject.t A) (key : option string) :
  single_key o key ->
  Lodash.has below o key
  = match JsObject.index o key with
    | Some _ => true
    | None => false
    end.
Proof.
  destruct key as [k|]; [|reflexivity].
  unfold single_key, Lodash.has, Lodash.isKey, JsObject.index, JsObject.hasOwn.
  cbn [JsString.template]. intros [Hplain | Hown].
  - rewrite Hplain. cbn [negb]. now rewrite orb_true_r.
  - destruct (JsObject.get k o); [|discriminate]. now rewrite orb_true_r.
Qed.

(** [produce] once the constructs exist, by the pieces of the address. *)
Lemma produce_loaded (address : string) (s : LiftPlugin) cs :
  constructs s = Some cs ->
  produce address s
  = (let pieces := JsString.split_limit "." 2 address in
     let id := nth_error pieces 0 in
     let property := nth_error pieces 1 in
     if negb (Lodash.has ConstructInterface.hasPath cs id)
     then Throw (no_construct_named id property)
     else
       match JsObject.index cs id with
       | None => Throw (cannot_read "references")
       | Some construct =>
           let properties := ConstructInterface.references construct in
           if negb (Lodash.has Lodash.hasPath properties property)
           then Throw (does_not_exist id property (JsObject.keys properties))
           else Ok match JsObject.index properties property with
                   | Some v => v
                   | None => VUndefined
                   end
       end, s).
Proof.
  intros H. unfold produce, getConstructs, bind, this, throw, ret.
  rewrite H. cbn zeta.
  repeat match goal with
         | |- context [Lodash.has ?b ?o ?k] => destruct (Lodash.has b o k); cbn [negb]
         | |- context [JsObject.index ?o ?k] => destruct (JsObject.index o k)
         end; reflexivity.
Qed.

(** [produce] for an address whose id and property lodash takes as
    property names: each test and the read that follows it agree. *)
Lemma produce_single (address : string) (s : LiftPlugin) cs :
  constructs s = Some cs ->
  let pieces := JsString.split_limit "." 2 address in
  let id := nth_error pieces 0 in
  let property := nth_error pieces 1 in
  single_key cs id ->
  (forall construct, JsObject.index cs id = Some construct ->
                     single_key (ConstructInterface.references construct) property) ->
  produce address s
  = (match JsObject.index cs id with
     | None => Throw (no_construct_named id property)
     | Some construct =>
         let properties := ConstructInterface.references construct in
         match JsObject.index properties property with
         | None => Throw (does_not_exist id property (JsObject.keys properties))
         | Some v => Ok v
         end
     end, s).
Proof.
  intros H pieces id property Hid Hproperty.
  rewrite (produce_loaded address s cs H). cbv zeta. fold pieces id property.
  rewrite (has_as_index ConstructInterface.hasPath cs id Hid).
  destruct (JsObject.index cs id) as [construct|]; [|reflexivity].
  cbn [negb].
  rewrite (has_as_index Lodash.hasPath _ property (Hproperty construct eq_refl)).
  now destruct (JsObject.index (ConstructInterface.references construct) property).
Qed.

Ltac contains :=
  repeat first
    [ apply Contains_head
    | apply Contains_refl
    | apply Contains_prepend ].

(** X23. After instantiation, for an id and a property that hold neither
    a dot nor an opening bracket, forcing [${construct:id.property}]
    throws when [id] names no construct, and the message holds the id; it
    throws when [property] is not a key of the references of the
    construct, and the message holds the id, the property and the list of
    the valid property names (hence each of them). *)
Theorem unknown_reference_fails (s : LiftPlugin) cs (id property : string) :
  constructs s = Some cs ->
  JsString.has_char "." id = false ->
  JsString.has_char "." property = false ->
  JsString.has_char "[" id = false ->
  JsString.has_char "[" property = false ->
  (JsObject.get id cs = None ->
   exists e,
     produce (address_of id property) s = (Throw e, s)
     /\ e = no_construct_named (Some id) (Some property)
     /\ JsString.Contains id (message e))
  /\ (forall construct,
        JsObject.get id cs = Some construct ->
        JsObject.get property (ConstructInterface.references construct) = None ->
        let names := JsObject.keys (ConstructInterface.references construct) in
        exists e,
          produce (address_of id property) s = (Throw e, s)
          /\ e = does_not_exist (Some id) (Some property) names
          /\ JsString.Contains id (message e)
          /\ JsString.Contains property (message e)
          /\ JsString.Contains (JsString.join ", " names) (message e)
          /\ forall name, In name names -> JsString.Contains name (message e)).
Proof.
  intros Hcs Hid Hprop Hid' Hprop'.
  pose proof (produce_single (address_of id property) s cs Hcs) as Hrun.
  cbv zeta in Hrun.
  rewrite (split_limit_id_property id property Hid Hprop) in Hrun.
  cbn [nth_error] in Hrun.
  specialize (Hrun (or_introl (isDeepProp_plain id Hid Hid'))
                   (fun _ _ => or_introl (isDeepProp_plain property Hprop Hprop'))).
  unfold JsObject.index in Hrun. cbn [JsString.template] in Hrun.
  split.
  - intros Hnone. rewrite Hnone in Hrun.
    eexists. split; [exact Hrun|]. split; [reflexivity|].
    unfold no_construct_named. cbn [message JsString.template]. contains.
  - intros construct Hsome Hnone names. rewrite Hsome in Hrun. cbn zeta in Hrun.
    rewrite Hnone in Hrun.
    eexists. split; [exact Hrun|]. split; [reflexivity|].
    unfold does_not_exist. cbn [message JsString.template]. fold names.
    assert (Hjoin : forall x, JsString.Contains x (JsString.join ", " names) ->
                              JsString.Contains x
                                ("${construct:" +++ id +++ "." +++ property
                                 +++ "} does not exist. Properties available on ${construct:"
                                 +++ id +++ "} are: " +++ JsString.join ", " names +++ ".")).
    { intros x Hx. do 7 apply Contains_prepend. now apply Contains_extend. }
    split; [contains|]. split; [contains|]. split.
    + apply Hjoin, Contains_refl.
    + intros name Hin. apply Hjoin. now apply Contains_join.
Qed.

Lemma unknown_reference_fails_witness :
  exists e,
    produce (address_of "avatars" "bucketUrl") Sample.loaded
    = (Throw e, Sample.loaded)
    /\ JsString.Contains "bucketArn" (message e).
Proof.
  destruct (unknown_reference_fails Sample.loaded
              [("avatars", StaticConstructInterface.create Sample.Storage
                             Sample.context "avatars" []);
               ("link", StaticConstructInterface.create Sample.Alias
                          Sample.context "link" []);
               ("odd", StaticConstructInterface.create Sample.Odd
                         Sample.context "odd" [])]
              "avatars" "bucketUrl") as [_ H]; try reflexivity.
  destruct (H (StaticConstructInterface.create Sample.Storage
                 Sample.context "avatars" []))
    as (e & Hrun & _ & _ & _ & _ & Hnames); try reflexivity.
  exists e. split; [exact Hrun|]. apply Hnames. simpl. now left.
Defined.

(** C5. Two references with brackets that the checks of [produce] do not
    catch, on the sample deployment, where [avatars] is a bucket with the
    references [bucketArn] and [bucketName]. [has] of lodash reads its
    second argument as a path. So [bucketName[Ref]], which is no key of
    the references, passes the property check, because the value of
    [bucketName] has a key [Ref]: forcing
    [${construct:avatars.bucketName[Ref]}] does not throw, it returns
    [undefined]. And [[avatars]], which names no construct, passes the
    construct check: forcing [${construct:[avatars].bucketArn}] throws,
    but a [TypeError] on the missing construct, whose message does not
    hold the id. *)
Theorem bracket_reference_passes_the_checks :
  exists cs construct e,
    constructs Sample.loaded = Some cs
    /\ JsObject.get "avatars" cs = Some construct
    /\ JsObject.keys (ConstructInterface.references construct)
       = ["bucketArn"; "bucketName"]
    /\ JsObject.get "bucketName[Ref]" (ConstructInterface.references construct) = None
    /\ produce (address_of "avatars" "bucketName[Ref]") Sample.loaded
       = (Ok VUndefined, Sample.loaded)
    /\ JsObject.get "[avatars]" cs = None
    /\ produce (address_of "[avatars]" "bucketArn") Sample.loaded
       = (Throw e, Sample.loaded)
    /\ e = cannot_read "references"
    /\ errorClass e = TypeError
    /\ ~ JsString.Contains "[avatars]" (message e).
Proof.
  exists [("avatars", StaticConstructInterface.create Sample.Storage
                        Sample.context "avatars" []);
          ("link", StaticConstructInterface.create Sample.Alias
                     Sample.context "link" []);
          ("odd", StaticConstructInterface.create Sample.Odd
                    Sample.context "odd" [])],
         (StaticConstructInterface.create Sample.Storage Sample.context "avatars" []),
         (cannot_read "references").
  do 9 (split; [vm_compute; reflexivity|]).
  intros H. apply (Contains_has_char "[") in H; [|reflexivity].
  vm_compute in H. discriminate H.
Qed.

(** ** The shape of an address *)

Lemma produce_by_pieces (a b : string) (s : LiftPlugin) :
  JsString.split_limit "." 2 a = JsString.split_limit "." 2 b ->
  produce a s = produce b s.
Proof.
  intros H. unfold produce. now rewrite H.
Qed.

(** C10, as stated, fails: an address without a dot does not always fail
    the unknown-property check. The missing property is looked up as the
    key [undefined], which the references of a construct may carry. *)
Lemma address_without_dot_can_resolve :
  ~ (forall (s : LiftPlugin) cs (address : string) construct,
       constructs s = Some cs ->
       JsString.has_char "." address = false ->
       JsObject.get address cs = Some construct ->
       exists e, fst (produce address s) = Throw e).
Proof.
  intros H.
  destruct (H Sample.loaded
              [("avatars", StaticConstructInterface.create Sample.Storage
                             Sample.context "avatars" []);
               ("link", StaticConstructInterface.create Sample.Alias
                          Sample.context "link" []);
               ("odd", StaticConstructInterface.create Sample.Odd
                         Sample.context "odd" [])]
              "odd"
              (StaticConstructInterface.create Sample.Odd Sample.context "odd" [])
              eq_refl eq_refl eq_refl) as [e He].
  discriminate He.
Qed.

(** C10, amended. The id is the text before the first dot and the
    property the text between the first and the second dot; what follows
    a second dot is dropped, so [id.property.extra] is forced exactly as
    [id.property] is. An address without a dot is the id alone and the
    property is [undefined]: forcing it reads the key [undefined] of the
    references, returns its value when the key exists and fails the
    unknown-property check otherwise. *)
Theorem reference_address_pieces (s : LiftPlugin) (id property extra : string) :
  JsString.has_char "." id = false ->
  JsString.has_char "." property = false ->
  JsString.split_limit "." 2 (address_of id property) = [id; property]
  /\ JsString.split_limit "." 2 (address_of id (address_of property extra))
     = [id; property]
  /\ produce (address_of id (address_of property extra)) s
     = produce (address_of id property) s
  /\ JsString.split_limit "." 2 id = [id]
  /\ forall cs construct,
       constructs s = Some cs ->
       JsObject.get id cs = Some construct ->
       let properties := ConstructInterface.references construct in
       produce id s
       = match JsObject.get "undefined" properties with
         | Some v => (Ok v, s)
         | None =>
             (Throw (does_not_exist (Some id) None (JsObject.keys properties)), s)
         end.
Proof.
  intros Hid Hprop.
  pose proof (split_limit_id_property id property Hid Hprop) as H1.
  pose proof (split_limit_id_property_extra id property extra Hid Hprop) as H2.
  pose proof (split_limit_id id Hid) as H0.
  split; [exact H1|]. split; [exact H2|]. split.
  { apply produce_by_pieces. now rewrite H1, H2. }
  split; [exact H0|].
  intros cs construct Hcs Hget properties.
  pose proof (produce_single id s cs Hcs) as Hrun. cbv zeta in Hrun.
  rewrite H0 in Hrun. cbn [nth_error] in Hrun.
  assert (Hown : JsObject.hasOwn id cs = true)
    by (unfold JsObject.hasOwn; now rewrite Hget).
  rewrite (Hrun (or_intror Hown) (fun _ _ => I)).
  unfold JsObject.index. cbn [JsString.template].
  rewrite Hget. fold properties.
  now destruct (JsObject.get "undefined" properties).
Qed.

Lemma reference_address_pieces_witness :
  produce "avatars.bucketArn.extra" Sample.loaded
  = produce "avatars.bucketArn" Sample.loaded.
Proof.
  apply (reference_address_pieces Sample.loaded "avatars" "bucketArn" "extra");
    reflexivity.
Defined.

(** ** Trees and their walk *)

(** Induction over trees, with the hypothesis for every item of an array
    and every field of an object. *)
Lemma value_nested_ind (P : value -> Prop) :
  P VNull ->
  P VUndefined ->
  (forall b, P (VBool b)) ->
  (forall z, P (VNum z)) ->
  (forall s, P (VStr s)) ->
  (forall n, P (VToken n)) ->
  (forall items, Forall P items -> P (VArr items)) ->
  (forall fields, Forall (fun kv => P (snd kv)) fields -> P (VObj fields)) ->
  forall v, P v.
Proof.
  intros HNull HUndefined HBool HNum HStr HTok HArr HObj.
  fix IH 1. intros [ | | b | z | s | n | items | fields ].
  - exact HNull.
  - exact HUndefined.
  - apply HBool.
  - apply HNum.
  - apply HStr.
  - apply HTok.
  - apply HArr. induction items as [|x items IHl]; constructor;
      [apply IH | exact IHl].
  - apply HObj. induction fields as [|kv fields IHl]; constructor;
      [apply IH | exact IHl].
Qed.

Section TraverseFacts.
Context {A B : Type}.

Lemma traverse_Forall (f : A -> result B) (Q : B -> Prop) (l : list A) :
  Forall (fun x => forall y, f x = Ok y -> Q y) l ->
  forall l', traverse f l = Ok l' -> Forall Q l'.
Proof.
  induction 1 as [|x l Hx _ IH]; simpl; intros l' H.
  - injection H as <-. constructor.
  - destruct (f x) as [y|e] eqn:Ex; [|discriminate].
    destruct (traverse f l) as [ys|e]; [|discriminate].
    injection H as <-. constructor; [now apply Hx | now apply IH].
Qed.

Lemma traverse_total (f : A -> result B) (l : list A) :
  Forall (fun x => exists y, f x = Ok y) l -> exists l', traverse f l = Ok l'.
Proof.
  induction 1 as [|x l [y Hy] _ [ys IH]]; simpl.
  - now exists [].
  - rewrite Hy, IH. now exists (y :: ys).
Qed.

Lemma traverse_ext (f g : A -> result B) (l : list A) :
  Forall (fun x => f x = g x) l -> traverse f l = traverse g l.
Proof.
  induction 1 as [|x l Hx _ IH]; simpl; [reflexivity|].
  now rewrite Hx, IH.
Qed.

End TraverseFacts.

Lemma traverse_id {A : Type} (f : A -> result A) (l : list A) :
  Forall (fun x => f x = Ok x) l -> traverse f l = Ok l.
Proof.
  induction 1 as [|x l Hx _ IH]; simpl; [reflexivity|].
  now rewrite Hx, IH.
Qed.

Lemma flat_map_nil {A B : Type} (f : A -> list B) (l : list A) :
  flat_map f l = [] <-> Forall (fun x => f x = []) l.
Proof.
  induction l as [|x l IH]; simpl.
  - split; [constructor | reflexivity].
  - split.
    + intros H. apply app_eq_nil in H as [Hx Hl].
      constructor; [exact Hx | now apply IH].
    + intros H. inversion H as [|? ? Hx Hl]; subst.
      rewrite Hx. now apply IH.
Qed.

Lemma forallb_flat_map {A : Type} (g : nat -> bool) (f : A -> list nat) (l : list A) :
  forallb g (flat_map f l) = true <-> Forall (fun x => forallb g (f x) = true) l.
Proof.
  induction l as [|x l IH]; simpl.
  - split; [constructor | reflexivity].
  - rewrite forallb_app, andb_true_iff, IH. split.
    + intros [Hx Hl]. now constructor.
    + intros H. now inversion H.
Qed.

Section WalkFacts.
Variable force : nat -> result value.
Variable deeper : value -> result value.

(** What the walk returns holds no token, when what the deeper
    resolution returns holds none. *)
Lemma walk_token_free :
  (forall v r, deeper v = Ok r -> token_free r) ->
  forall t r, Tokenization.walk force deeper t = Ok r -> token_free r.
Proof.
  intros Hdeeper.
  induction t as [ | | b | z | s | n | items IH | fields IH ]
    using value_nested_ind; simpl; intros r H;
    try (injection H as <-; reflexivity).
  - destruct (force n) as [forced|e]; [|discriminate]. now apply (Hdeeper forced).
  - destruct (traverse _ items) as [items'|e] eqn:E; [|discriminate].
    injection H as <-. unfold token_free. simpl. apply flat_map_nil.
    apply (traverse_Forall _ _ _ IH _ E).
  - destruct (traverse _ fields) as [fields'|e] eqn:E; [|discriminate].
    injection H as <-. unfold token_free. simpl. apply flat_map_nil.
    refine (traverse_Forall _ (fun kv => tokens (snd kv) = []) _ _ _ E).
    apply Forall_impl with (2 := IH). intros [k x] Hx [k' y] Hy. simpl in *.
    destruct (Tokenization.walk force deeper x) as [x'|e] eqn:Ex; [|discriminate].
    injection Hy as <- <-. now apply Hx.
Qed.

(** A tree without tokens comes back as it is. *)
Lemma walk_token_free_id :
  forall t, token_free t -> Tokenization.walk force deeper t = Ok t.
Proof.
  unfold token_free.
  induction t as [ | | b | z | s | n | items IH | fields IH ]
    using value_nested_ind; simpl; intros H; try reflexivity.
  - discriminate.
  - apply flat_map_nil in H.
    rewrite (traverse_id _ items); [reflexivity|].
    apply Forall_impl with (2 := Forall_and IH H). intros x [Hx Hfree]. auto.
  - apply flat_map_nil in H.
    rewrite (traverse_id _ fields); [reflexivity|].
    apply Forall_impl with (2 := Forall_and IH H).
    intros [k x] [Hx Hfree]. simpl in *. now rewrite (Hx Hfree).
Qed.

(** The walk returns when every token of the tree can be forced and the
    forced value resolved. *)
Lemma walk_total (g : nat -> bool) :
  (forall n, g n = true ->
             exists forced r, force n = Ok forced /\ deeper forced = Ok r) ->
  forall t, forallb g (tokens t) = true ->
            exists r, Tokenization.walk force deeper t = Ok r.
Proof.
  intros Hg.
  induction t as [ | | b | z | s | n | items IH | fields IH ]
    using value_nested_ind; simpl; intros H; try (eexists; reflexivity).
  - rewrite andb_true_r in H. destruct (Hg n H) as (forced & r & -> & Hr).
    now exists r.
  - apply forallb_flat_map in H.
    destruct (traverse_total (Tokenization.walk force deeper) items) as [l' E].
    { apply Forall_impl with (2 := Forall_and IH H). intros x [Hx Hok]. auto. }
    rewrite E. eexists; reflexivity.
  - apply forallb_flat_map in H.
    match goal with
    | |- context [traverse ?f fields] =>
        destruct (traverse_total f fields) as [l' E]
    end.
    { apply Forall_impl with (2 := Forall_and IH H).
      intros [k x] [Hx Hok]. simpl in *.
      destruct (Hx Hok) as [r ->]. eexists; reflexivity. }
    rewrite E. eexists; reflexivity.
Qed.

End WalkFacts.

(** The walk depends on the forcing function and on the deeper
    resolution only through their values. *)
Lemma walk_ext (f g : nat -> result value) (d1 d2 : value -> result value) :
  (forall n, f n = g n) ->
  (forall v, d1 v = d2 v) ->
  forall t, Tokenization.walk f d1 t = Tokenization.walk g d2 t.
Proof.
  intros Hf Hd.
  induction t as [ | | b | z | s | n | items IH | fields IH ]
    using value_nested_ind; simpl; try reflexivity.
  - rewrite Hf. destruct (g n); [apply Hd | reflexivity].
  - now rewrite (traverse_ext _ _ _ IH).
  - match goal with
    | |- context [traverse ?h fields] =>
        rewrite (traverse_ext h
                   (fun kv : string * value =>
                      match Tokenization.walk g d2 (snd kv) with
                      | Ok v' => Ok (fst kv, v')
                      | Throw e => Throw e
                      end) fields)
    end; [reflexivity|].
    apply Forall_impl with (2 := IH). intros kv Hkv. now rewrite Hkv.
Qed.

(** ** Resolution *)

Lemma resolve_ext (f g : nat -> result value) :
  (forall n, f n = g n) ->
  forall depth t, Tokenization.resolve depth f t = Tokenization.resolve depth g t.
Proof.
  intros Hfg. induction depth as [|d IH]; intros t; simpl.
  - now apply walk_ext.
  - now apply walk_ext.
Qed.

(** Resolution leaves no token behind. *)
Lemma resolve_token_free (force : nat -> result value) :
  forall depth t r, Tokenization.resolve depth force t = Ok r -> token_free r.
Proof.
  induction depth as [|d IH]; simpl; intros t r.
  - apply walk_token_free. discriminate.
  - apply walk_token_free. exact IH.
Qed.

(** Resolution is the identity on a tree without tokens. *)
Lemma resolve_token_free_id (force : nat -> result value) depth t :
  token_free t -> Tokenization.resolve depth force t = Ok t.
Proof.
  destruct depth; simpl; apply walk_token_free_id.
Qed.

(** Resolution returns when the deferred values nest no deeper than the
    call stack allows and each of them can be forced. *)
Lemma resolve_total (force : nat -> result value) :
  forall depth t,
    nests_within force depth t = true ->
    exists r, Tokenization.resolve depth force t = Ok r.
Proof.
  induction depth as [|d IH]; intros t H.
  - simpl. eapply walk_total; [|exact H].
    intros n Hn. simpl in Hn. now destruct (force n).
  - simpl. eapply walk_total; [|exact H].
    intros n Hn. simpl in Hn. destruct (force n) as [forced|e]; [|discriminate].
    destruct (IH forced Hn) as [r Hr]. now exists forced, r.
Qed.

Lemma resolve_object_as_value (force : nat -> result value) depth o :
  Tokenization.resolve depth force (VObj o)
  = match Tokenization.resolve_object depth force o with
    | Ok o' => Ok (VObj o')
    | Throw e => Throw e
    end.
Proof.
  destruct depth; reflexivity.
Qed.

Lemma resolve_object_token_free force depth o o' :
  Tokenization.resolve_object depth force o = Ok o' -> object_tokens o' = [].
Proof.
  intros H. apply (resolve_token_free force depth (VObj o) (VObj o')).
  now rewrite resolve_object_as_value, H.
Qed.

Lemma resolve_object_token_free_id force depth o :
  object_tokens o = [] -> Tokenization.resolve_object depth force o = Ok o.
Proof.
  intros H. pose proof (resolve_token_free_id force depth (VObj o) H) as E.
  rewrite resolve_object_as_value in E.
  destruct (Tokenization.resolve_object depth force o); congruence.
Qed.

Lemma resolve_object_total force depth o :
  nests_within force depth (VObj o) = true ->
  exists o', Tokenization.resolve_object depth force o = Ok o'.
Proof.
  intros H. destruct (resolve_total force depth (VObj o) H) as [r E].
  rewrite resolve_object_as_value in E.
  destruct (Tokenization.resolve_object depth force o) as [o'|e];
    [now exists o' | discriminate].
Qed.

(** Forcing reads the constructs and the token map, nothing else. *)
Lemma force_ext (s1 s2 : LiftPlugin) :
  constructs s1 = constructs s2 ->
  tokenMap s1 = tokenMap s2 ->
  forall n, force s1 n = force s2 n.
Proof.
  intros Hc Ht n. unfold force. rewrite Ht.
  destruct (nth_error (tokenMap s2) n) as [address|]; [|reflexivity].
  destruct (constructs s2) as [cs|] eqn:E.
  - rewrite (produce_loaded address s1 cs), (produce_loaded address s2 cs E);
      [reflexivity | congruence].
  - unfold produce, getConstructs, bind, this, throw. now rewrite Hc, E.
Qed.

Lemma resolveTokens_sound input s out s' :
  resolveTokens input s = (Ok out, s') -> s' = s /\ section_token_free out.
Proof.
  intros H. pose proof (resolveTokens_pure input s) as Hpure.
  rewrite H in Hpure. simpl in Hpure. split; [exact Hpure|].
  destruct input as [v|]; simpl in H.
  - unfold providers_0, bind, this, lift, ret in H.
    destruct (providers s); [discriminate|]. cbn in H.
    destruct (Tokenization.resolve _ _ v) as [r|e] eqn:E; [|discriminate].
    injection H as <- _. simpl. exact (resolve_token_free _ _ _ _ E).
  - injection H as <- _. exact I.
Qed.

Lemma resolveTokens_object_sound input s out s' :
  resolveTokens_object input s = (Ok out, s') -> s' = s /\ object_tokens out = [].
Proof.
  intros H. pose proof (resolveTokens_object_pure input s) as Hpure.
  rewrite H in Hpure. simpl in Hpure. split; [exact Hpure|].
  unfold resolveTokens_object, providers_0, bind, this, lift in H.
  destruct (providers s); [discriminate|]. cbn in H.
  injection H as H _. exact (resolve_object_token_free _ _ _ _ H).
Qed.

Lemma resolveTokens_id input s :
  providers s <> [] -> section_token_free input ->
  resolveTokens input s = (Ok input, s).
Proof.
  intros Hp Hfree. destruct input as [v|]; [|reflexivity].
  unfold resolveTokens, providers_0, bind, this, lift, ret.
  destruct (providers s); [congruence|]. cbn.
  now rewrite (resolve_token_free_id _ _ v Hfree).
Qed.

Lemma resolveTokens_object_id input s :
  providers s <> [] -> object_tokens input = [] ->
  resolveTokens_object input s = (Ok input, s).
Proof.
  intros Hp Hfree.
  unfold resolveTokens_object, providers_0, bind, this, lift.
  destruct (providers s); [congruence|]. cbn.
  now rewrite (resolve_object_token_free_id _ _ input Hfree).
Qed.

Lemma resolveTokens_total ref input s :
  resolves_as ref s -> providers ref <> [] ->
  section_nests_within (force ref) (callStack ref) input = true ->
  exists out, resolveTokens input s = (Ok out, s).
Proof.
  intros (Hc & Ht & Hd & Hp) Hne H. destruct input as [v|]; [|now exists None].
  unfold resolveTokens, providers_0, bind, this, lift, ret.
  rewrite <- Hp. destruct (providers ref); [congruence|]. cbn.
  destruct (resolve_total _ _ v H) as [r Hr].
  rewrite <- Hd, <- (resolve_ext _ _ (force_ext ref s Hc Ht)), Hr.
  now exists (Some r).
Qed.

Lemma resolveTokens_object_total ref input s :
  resolves_as ref s -> providers ref <> [] ->
  nests_within (force ref) (callStack ref) (VObj input) = true ->
  exists out, resolveTokens_object input s = (Ok out, s).
Proof.
  intros (Hc & Ht & Hd & Hp) Hne H.
  unfold resolveTokens_object, providers_0, bind, this, lift.
  rewrite <- Hp. destruct (providers ref); [congruence|]. cbn.
  destruct (resolve_total _ _ _ H) as [r Hr].
  rewrite (resolve_ext _ _ (force_ext ref s Hc Ht)), Hd in Hr.
  rewrite resolve_object_as_value in Hr.
  destruct (Tokenization.resolve_object _ _ input) as [o'|e];
    [now exists o' | discriminate].
Qed.

(** ** Phase 2 over the sections of the service *)

(** Take the next [resolveTokens] call of a run that returned. *)
Ltac next_section H :=
  match type of H with
  | context [resolveTokens_object ?input ?st] =>
      let out := fresh "out" in
      let st' := fresh "st" in
      let E := fresh "E" in
      let Hfree := fresh "Hfree" in
      destruct (resolveTokens_object input st) as [[out|?] st'] eqn:E;
      [|discriminate H];
      apply resolveTokens_object_sound in E as [-> Hfree];
      cbn [fst snd service set_provider set_service Service.provider
             Service.functions Service.custom Service.resources
             Service.layers Service.outputs] in H
  | context [resolveTokens ?input ?st] =>
      let out := fresh "out" in
      let st' := fresh "st" in
      let E := fresh "E" in
      let Hfree := fresh "Hfree" in
      destruct (resolveTokens input st) as [[out|?] st'] eqn:E;
      [|discriminate H];
      apply resolveTokens_sound in E as [-> Hfree];
      cbn [fst snd service set_provider set_functions set_custom set_resources
             set_layers set_outputs set_service Service.provider
             Service.functions Service.custom Service.resources
             Service.layers Service.outputs] in H
  end.

(** When [resolveLazyVariables] returns, no section holds a token. *)
Lemma resolveLazyVariables_sound (s s' : LiftPlugin) :
  resolveLazyVariables s = (Ok tt, s') -> service_token_free (service s').
Proof.
  intros H. unfold resolveLazyVariables, bind, mark, modify, this in H.
  cbn [fst snd] in H.
  do 6 next_section H.
  injection H as <-. unfold service_token_free. cbn. tauto.
Qed.

(** On a service without tokens [resolveLazyVariables] returns and
    writes back what it read. *)
Lemma resolveLazyVariables_id (s : LiftPlugin) :
  providers s <> [] ->
  service_token_free (service s) ->
  resolveLazyVariables s
  = (Ok tt, set_trace (trace s ++ [ForcedResolution]) s).
Proof.
  intros Hp (H1 & H2 & H3 & H4 & H5 & H6).
  unfold resolveLazyVariables, bind, mark, modify, this. cbn [fst snd].
  rewrite resolveTokens_object_id by assumption. cbn.
  rewrite resolveTokens_id by assumption. cbn.
  rewrite resolveTokens_id by assumption. cbn.
  rewrite resolveTokens_id by assumption. cbn.
  rewrite resolveTokens_id by assumption. cbn.
  rewrite resolveTokens_id by assumption. cbn.
  destruct s as [c ci [p f cu r l o] ps cm ch cli tm d co tr pr]. reflexivity.
Qed.

(** Take the next [resolveTokens] call of a run whose sections can all
    be resolved in the state [ref]. *)
Ltac next_section_total ref Hp :=
  match goal with
  | |- context [resolveTokens_object ?input ?st] =>
      let out := fresh "out" in
      let E := fresh "E" in
      destruct (resolveTokens_object_total ref input st) as [out E];
      [ repeat split; reflexivity | exact Hp | assumption | rewrite E ]
  | |- context [resolveTokens ?input ?st] =>
      let out := fresh "out" in
      let E := fresh "E" in
      destruct (resolveTokens_total ref input st) as [out E];
      [ repeat split; reflexivity | exact Hp | assumption | rewrite E ]
  end;
  cbn [fst snd service set_provider set_functions set_custom set_resources
         set_layers set_outputs set_service Service.provider
         Service.functions Service.custom Service.resources
         Service.layers Service.outputs].

(** [resolveLazyVariables] returns when, in every section, deferred
    values nest no deeper than the call stack allows and can be forced. *)
Lemma resolveLazyVariables_total (s : LiftPlugin) :
  providers s <> [] ->
  service_nests_within (force s) (callStack s) (service s) = true ->
  exists s', resolveLazyVariables s = (Ok tt, s').
Proof.
  intros Hp H. unfold service_nests_within in H.
  repeat (apply andb_true_iff in H as [H ?]).
  unfold resolveLazyVariables, bind, mark, modify, this. cbn [fst snd].
  do 6 next_section_total s Hp.
  eexists. reflexivity.
Qed.

(** ** What [resolveLazyVariables] writes back *)

Lemma resolve_object_ext (f g : nat -> result value) :
  (forall n, f n = g n) ->
  forall depth o,
    Tokenization.resolve_object depth f o = Tokenization.resolve_object depth g o.
Proof.
  intros Hfg depth o. unfold Tokenization.resolve_object.
  apply traverse_ext, Forall_forall. intros kv _.
  now rewrite (resolve_ext f g Hfg).
Qed.

(** [resolveTokens] in a state that resolves as [ref] does. *)
Lemma resolveTokens_object_as ref input s :
  resolves_as ref s -> providers ref <> [] ->
  resolveTokens_object input s
  = (Tokenization.resolve_object (callStack ref) (force ref) input, s).
Proof.
  intros (Hc & Ht & Hd & Hp) Hne.
  unfold resolveTokens_object, providers_0, bind, this, lift.
  rewrite <- Hp. destruct (providers ref); [congruence|]. cbn.
  now rewrite <- Hd, <- (resolve_object_ext _ _ (force_ext ref s Hc Ht)).
Qed.

Lemma resolveTokens_as ref v s :
  resolves_as ref s -> providers ref <> [] ->
  resolveTokens (Some v) s
  = (match Tokenization.resolve (callStack ref) (force ref) v with
     | Ok v' => Ok (Some v')
     | Throw e => Throw e
     end, s).
Proof.
  intros (Hc & Ht & Hd & Hp) Hne.
  unfold resolveTokens, providers_0, bind, this, lift, ret.
  rewrite <- Hp. destruct (providers ref); [congruence|]. cbn.
  rewrite <- Hd, <- (resolve_ext _ _ (force_ext ref s Hc Ht)).
  now destruct (Tokenization.resolve _ _ v).
Qed.

Lemma resolveTokens_section ref input s :
  resolves_as ref s -> providers ref <> [] ->
  resolveTokens input s = (resolve_section (callStack ref) (force ref) input, s).
Proof.
  intros Has Hp. destruct input as [v|]; [|reflexivity].
  exact (resolveTokens_as ref v s Has Hp).
Qed.

(** Take the next section of a run that returned: it was replaced by
    its resolution. *)
Ltac written_back ref Hp H :=
  rewrite (resolveTokens_section ref) in H by (repeat split; reflexivity || exact Hp);
  match type of H with
  | context [resolve_section ?d ?f ?input] =>
      let E := fresh "E" in
      destruct (resolve_section d f input) eqn:E; [|discriminate H]
  end;
  cbn [fst snd service set_provider set_functions set_custom set_resources
         set_layers set_outputs set_service set_trace Service.provider
         Service.functions Service.custom Service.resources
         Service.layers Service.outputs] in H.

(** When [resolveLazyVariables] returns, every section has been replaced
    by its resolution, and nothing else of the service has changed. *)
Lemma resolveLazyVariables_resolves (s s' : LiftPlugin) :
  resolveLazyVariables s = (Ok tt, s') ->
  resolution_of (callStack s) (force s) (service s) (service s').
Proof.
  intros H.
  assert (Hp : providers s <> []).
  { intros Hempty.
    unfold resolveLazyVariables, bind at 1, bind at 1, bind at 1, mark, modify,
      this, resolveTokens_object, bind at 1, providers_0, bind at 1, this in H.
    cbn [fst snd providers set_trace] in H.
    rewrite Hempty in H. discriminate. }
  unfold resolveLazyVariables, bind, mark, modify, this in H. cbn [fst snd] in H.
  rewrite (resolveTokens_object_as s) in H by (repeat split; reflexivity || exact Hp).
  cbn [service set_trace] in H.
  destruct (Tokenization.resolve_object _ _ (Service.provider (service s)))
    as [provider'|] eqn:E0; [|discriminate].
  cbn [fst snd service set_provider set_service set_trace Service.provider
         Service.functions Service.custom Service.resources Service.layers
         Service.outputs] in H.
  do 5 written_back s Hp H.
  injection H as <-. unfold resolution_of. cbn. repeat split; assumption.
Qed.

(** The resolution of an object resolves its fields, key by key. *)
Lemma resolve_field (force : nat -> result value) depth fields r k t :
  Tokenization.resolve depth force (VObj fields) = Ok r ->
  JsObject.get k fields = Some t ->
  exists fields' r',
    r = VObj fields'
    /\ JsObject.get k fields' = Some r'
    /\ Tokenization.resolve depth force t = Ok r'.
Proof.
  rewrite resolve_object_as_value. unfold Tokenization.resolve_object.
  destruct (traverse _ fields) as [fields'|] eqn:E; [|discriminate].
  intros H Hget. injection H as <-. exists fields'.
  revert fields' E. induction fields as [|[k0 t0] fields IH]; [discriminate|].
  intros fields' E. cbn in E, Hget.
  destruct (Tokenization.resolve depth force t0) as [r0|] eqn:E0; [|discriminate].
  destruct (traverse _ fields) as [rest|] eqn:Erest; [|discriminate].
  injection E as <-. cbn.
  destruct (String.eqb k0 k).
  - injection Hget as <-. exists r0. now repeat split.
  - destruct (IH Hget rest eq_refl) as (r' & _ & Hr' & Hres).
    exists r'. now repeat split.
Qed.

(** ** References resolve to the property they name *)

Lemma resolveReference_run (address : string) (s : LiftPlugin) :
  resolveReference address s
  = (Ok (VToken (length (tokenMap s))), set_tokenMap (tokenMap s ++ [address]) s).
Proof. reflexivity. Qed.

(** C1, as stated, fails: a key of the references that holds a dot is
    out of reach. The address [copy.bucket.arn] is cut at its dots, so
    forcing it looks up the property [bucket] of [copy], which does not
    exist. *)
Lemma dotted_key_is_out_of_reach :
  ~ (forall (s : LiftPlugin) cs (A x : string) construct (v : value),
       constructs s = Some cs ->
       JsObject.get A cs = Some construct ->
       JsObject.get x (ConstructInterface.references construct) = Some v ->
       fst (produce (address_of A x) s) = Ok v).
Proof.
  intros H.
  specialize (H Example.mirrored
                [("copy", StaticConstructInterface.create Example.Mirror
                            Sample.context "copy" [])]
                "copy" "bucket.arn"
                (StaticConstructInterface.create Example.Mirror Sample.context "copy" [])
                (VStr "arn:aws:s3:::mirror") eq_refl eq_refl eq_refl).
  vm_compute in H. discriminate H.
Qed.

(** C1, amended. Let [${construct:A.x}] be resolved in phase 1 (state
    [s0]), and let [s] be a later state in which [A] is a construct of
    the mapping and [x], which holds no dot, is a key of its references,
    with value [v]. Then forcing the deferred value that
    [resolveReference] handed out yields exactly [v]; resolving its
    token is resolving [v], which gives [v] itself when [v] holds no
    token, also where the token is a field of an object; whatever
    resolution returns holds no token. When [resolveLazyVariables]
    returns, every section of the service has been replaced by its
    resolution and holds no token; and it does return when the deferred
    values of the sections nest no deeper than the call stack allows and
    can each be forced. *)
Theorem reference_resolves_to_property
  (s0 s : LiftPlugin) cs (A x : string) construct (v : value) (later : list string) :
  JsString.has_char "." A = false ->
  JsString.has_char "." x = false ->
  tokenMap s = tokenMap (snd (resolveReference (address_of A x) s0)) ++ later ->
  constructs s = Some cs ->
  JsObject.get A cs = Some construct ->
  JsObject.get x (ConstructInterface.references construct) = Some v ->
  let token := length (tokenMap s0) in
  fst (resolveReference (address_of A x) s0) = Ok (VToken token)
  /\ produce (address_of A x) s = (Ok v, s)
  /\ force s token = Ok v
  /\ (forall depth,
        Tokenization.resolve (S depth) (force s) (VToken token)
        = Tokenization.resolve depth (force s) v)
  /\ (forall depth,
        token_free v ->
        Tokenization.resolve (S depth) (force s) (VToken token) = Ok v
        /\ forall fields k r,
             Tokenization.resolve (S depth) (force s) (VObj fields) = Ok r ->
             JsObject.get k fields = Some (VToken token) ->
             exists fields', r = VObj fields' /\ JsObject.get k fields' = Some v)
  /\ (forall depth t r,
        Tokenization.resolve depth (force s) t = Ok r -> token_free r)
  /\ (forall s',
        resolveLazyVariables s = (Ok tt, s') ->
        resolution_of (callStack s) (force s) (service s) (service s')
        /\ service_token_free (service s'))
  /\ (providers s <> [] ->
      service_nests_within (force s) (callStack s) (service s) = true ->
      exists s',
        resolveLazyVariables s = (Ok tt, s')
        /\ resolution_of (callStack s) (force s) (service s) (service s')
        /\ service_token_free (service s')).
Proof.
  intros HA Hx Hmap Hcs Hconstruct Hproperty token.
  assert (Hproduce : produce (address_of A x) s = (Ok v, s)).
  { pose proof (produce_single (address_of A x) s cs Hcs) as Hrun.
    cbv zeta in Hrun.
    rewrite (split_limit_id_property A x HA Hx) in Hrun. cbn [nth_error] in Hrun.
    assert (HownA : JsObject.hasOwn A cs = true)
      by (unfold JsObject.hasOwn; now rewrite Hconstruct).
    rewrite Hrun; [|right; exact HownA|].
    - unfold JsObject.index. cbn [JsString.template].
      rewrite Hconstruct. cbn zeta. now rewrite Hproperty.
    - intros c Hc. unfold JsObject.index in Hc. cbn [JsString.template] in Hc.
      rewrite Hconstruct in Hc. injection Hc as <-.
      right. unfold JsObject.hasOwn. now rewrite Hproperty. }
  assert (Hforce : force s token = Ok v).
  { unfold force. rewrite Hmap, resolveReference_run. cbn [snd tokenMap set_tokenMap].
    rewrite <- app_assoc. unfold token.
    rewrite nth_error_app2 by apply Nat.le_refl.
    rewrite Nat.sub_diag. cbn [nth_error app]. now rewrite Hproduce. }
  assert (Htoken : forall depth,
             Tokenization.resolve (S depth) (force s) (VToken token)
             = Tokenization.resolve depth (force s) v).
  { intros depth. simpl. now rewrite Hforce. }
  split; [reflexivity|]. split; [exact Hproduce|]. split; [exact Hforce|].
  split; [exact Htoken|].
  split.
  { intros depth Hfree.
    assert (Hv : Tokenization.resolve (S depth) (force s) (VToken token) = Ok v)
      by (rewrite Htoken; now apply resolve_token_free_id).
    split; [exact Hv|].
    intros fields k r Hr Hget.
    destruct (resolve_field _ _ _ _ _ _ Hr Hget) as (fields' & r' & -> & Hget' & Hr').
    exists fields'. split; [reflexivity|]. congruence. }
  split; [apply resolve_token_free|].
  split.
  { intros s' Hrun. split; [exact (resolveLazyVariables_resolves s s' Hrun)|].
    exact (resolveLazyVariables_sound s s' Hrun). }
  intros Hp Hnest.
  destruct (resolveLazyVariables_total s Hp Hnest) as [s' Hrun].
  exists s'. split; [exact Hrun|].
  split; [exact (resolveLazyVariables_resolves s s' Hrun)|].
  exact (resolveLazyVariables_sound s s' Hrun).
Qed.

Lemma reference_resolves_to_property_witness :
  force Sample.loaded 0 = Ok Sample.bucketArn
  /\ exists s',
       resolveLazyVariables Sample.loaded = (Ok tt, s')
       /\ Service.functions (service s')
          = Some (VObj [("env", VArr [Sample.bucketArn; VStr "x"])]).
Proof.
  destruct (reference_resolves_to_property Sample.fresh Sample.loaded
              [("avatars", StaticConstructInterface.create Sample.Storage
                             Sample.context "avatars" []);
               ("link", StaticConstructInterface.create Sample.Alias
                          Sample.context "link" []);
               ("odd", StaticConstructInterface.create Sample.Odd
                         Sample.context "odd" [])]
              "avatars" "bucketArn"
              (StaticConstructInterface.create Sample.Storage
                 Sample.context "avatars" [])
              Sample.bucketArn ["link.target"])
    as (_ & _ & Hforce & _ & _ & _ & _ & Htotal); try reflexivity.
  split; [exact Hforce|].
  destruct Htotal as (s' & Hrun & (_ & Hfunctions & _) & _);
    [discriminate | reflexivity |].
  exists s'. split; [exact Hrun|].
  assert (Hresolved : resolve_section (callStack Sample.loaded) (force Sample.loaded)
                        (Service.functions (service Sample.loaded))
                      = Ok (Some (VObj [("env", VArr [Sample.bucketArn; VStr "x"])])))
    by (vm_compute; reflexivity).
  rewrite Hresolved in Hfunctions. now injection Hfunctions as <-.
Defined.

(** ** Idempotence *)

(** C8. A subtree without tokens is resolved to itself, whatever the
    deferred values and the depth are; [resolveTokens] returns such a
    section as it is; and on a service whose sections hold no token
    [resolveLazyVariables] returns and leaves every section equal to
    what it was. *)
Theorem forced_resolution_identity_without_tokens (s : LiftPlugin) (t : value) :
  token_free t ->
  providers s <> [] ->
  (forall force depth, Tokenization.resolve depth force t = Ok t)
  /\ resolveTokens (Some t) s = (Ok (Some t), s)
  /\ resolveTokens None s = (Ok None, s)
  /\ (service_token_free (service s) ->
      resolveLazyVariables s
      = (Ok tt, set_trace (trace s ++ [ForcedResolution]) s)
      /\ service (snd (resolveLazyVariables s)) = service s).
Proof.
  intros Hfree Hp.
  split; [intros force depth; now apply resolve_token_free_id|].
  split; [now apply resolveTokens_id|].
  split; [reflexivity|].
  intros Hservice. rewrite (resolveLazyVariables_id s Hp Hservice).
  split; reflexivity.
Qed.

Lemma forced_resolution_identity_without_tokens_witness :
  token_free Sample.bucketArn
  /\ service (snd (resolveLazyVariables Sample.settled)) = service Sample.settled.
Proof.
  assert (H1 : token_free Sample.bucketArn) by reflexivity.
  assert (H2 : providers Sample.settled <> []) by (vm_compute; discriminate).
  assert (H3 : service_token_free (service Sample.settled))
    by (vm_compute; repeat split).
  split; [exact H1|].
  exact (proj2 (proj2 (proj2 (proj2
           (forced_resolution_identity_without_tokens
              Sample.settled Sample.bucketArn H1 H2))) H3)).
Defined.

(** ** The order of the lifecycle steps *)















(** ** Resolving a type name *)

Lemma getConstructClass_found (s : LiftPlugin) (constructType : string) C :
  class_of (getAllConstructClasses s) constructType = Some C ->
  getConstructClass constructType s = (Ok C, s)
  /\ StaticConstructInterface.type C = constructType
  /\ In C (getAllConstructClasses s).
Proof.
  intros H. split.
  - unfold getConstructClass, bind, this. unfold class_of in H. now rewrite H.
  - now apply class_of_type.
Qed.

Lemma getConstructClass_unknown (s : LiftPlugin) (constructType : string) :
  class_of (getAllConstructClasses s) constructType = None ->
  getConstructClass constructType s
  = (Throw (mkError Error ("Unknown construct type " +++ constructType)), s).
Proof.
  intros H. unfold getConstructClass, bind, this. unfold class_of in H.
  now rewrite H.
Qed.

(** C6. The lookup of a type that no class registers, here [database]
    among [storage], [alias] and [odd]: the error names the type, but it
    is a plain [Error], which the host does not present as a
    configuration error; the constructor of a plugin whose configuration
    declares such a type throws that same error. *)
Theorem unknown_type_is_a_plain_error :
  let e := mkError Error "Unknown construct type database" in
  getConstructClass "database" Sample.fresh = (Throw e, Sample.fresh)
  /\ JsString.Contains "database" (message e)
  /\ is_configuration_error e = false
  /\ fst (constructor Sample.context [Sample.Storage; Sample.Alias; Sample.Odd]
            (blank (Some [("db", Declaration.make "database" [])])
                   Sample.service [] 8))
     = Throw e.
Proof.
  intros e. split; [|split; [|split]].
  - apply getConstructClass_unknown. vm_compute. reflexivity.
  - exists "Unknown construct type ", "". reflexivity.
  - reflexivity.
  - vm_compute. reflexivity.
Qed.

(* ================================================================== *)
(** * More of the plugin *)
(* ================================================================== *)

(** ** Loops *)

Lemma for_of_app {A : Type} (l1 l2 : list A) (body : A -> M unit) (s : LiftPlugin) :
  for_of (l1 ++ l2) body s
  = match for_of l1 body s with
    | (Ok _, s1) => for_of l2 body s1
    | (Throw e, s1) => (Throw e, s1)
    end.
Proof.
  revert s. induction l1 as [|x l1 IH]; intros s; simpl; [reflexivity|].
  unfold bind. destruct (body x s) as [[[]|e] s1]; [apply IH | reflexivity].
Qed.

Lemma set_console_same (s : LiftPlugin) : set_console (console s) s = s.
Proof. now destruct s. Qed.

(** A loop whose turns only print. *)
Lemma for_of_prints {A : Type} (body : A -> M unit) (lines : A -> list string)
  (l : list A) :
  (forall x, In x l ->
             forall s, body x s = (Ok tt, set_console (console s ++ lines x) s)) ->
  forall s,
    for_of l body s = (Ok tt, set_console (console s ++ flat_map lines l) s).
Proof.
  induction l as [|x l IH]; intros Hbody s.
  - cbn. unfold ret. now rewrite app_nil_r, set_console_same.
  - cbn [for_of flat_map]. unfold bind.
    rewrite (Hbody x (or_introl eq_refl) s).
    rewrite IH by (intros y Hin; apply Hbody; now right).
    cbn. now rewrite <- app_assoc.
Qed.

(** A loop whose turns only print, until one throws. *)
Lemma for_of_prints_until {A : Type} (body : A -> M unit) (lines : A -> list string)
  (before after : list A) (x : A) (partial : list string) (e : JsError) :
  (forall y, In y before ->
             forall s, body y s = (Ok tt, set_console (console s ++ lines y) s)) ->
  (forall s, body x s = (Throw e, set_console (console s ++ partial) s)) ->
  forall s,
    for_of (before ++ x :: after) body s
    = (Throw e, set_console (console s ++ flat_map lines before ++ partial) s).
Proof.
  intros Hbefore Hx s. rewrite for_of_app, (for_of_prints body lines before Hbefore).
  cbn [for_of]. unfold bind. rewrite Hx. cbn. now rewrite <- app_assoc.
Qed.

(** ** info *)

(** One turn of the loop of [info] over the outputs of a construct. *)
Lemma info_output_resolved (name : string) (o : option string) (s : LiftPlugin) :
  (output <- lift (Ok o) ;;
   match output with
   | Some text => console_log ("  " +++ name +++ ": " +++ text)
   | None => ret tt
   end) s
  = (Ok tt, set_console (console s ++ output_lines [(name, Ok o)]) s).
Proof.
  destruct o as [text|]; cbn.
  - reflexivity.
  - unfold ret. now rewrite app_nil_r, set_console_same.
Qed.

Lemma flat_map_singletons {A B : Type} (f : A -> list B) (l : list A) :
  flat_map f l = flat_map (fun x => flat_map f [x]) l.
Proof.
  induction l as [|x l IH]; simpl; [reflexivity|].
  now rewrite app_nil_r, IH.
Qed.

Lemma output_lines_flat_map (outputs : JsObject.t (result (option string))) :
  output_lines outputs = flat_map (fun o => output_lines [o]) outputs.
Proof.
  unfold output_lines. apply flat_map_singletons.
Qed.

(** One turn of [info] for a construct whose outputs resolve. *)
Lemma info_entry_resolved (entry : string * ConstructInterface.t) (s : LiftPlugin) :
  resolves_all (ConstructInterface.outputs (snd entry)) ->
  (let id := fst entry in
   let outputs := ConstructInterface.outputs (snd entry) in
   if Nat.ltb 0 (length (JsObject.keys outputs)) then
     console_log (chalk_yellow (id +++ ":")) ;;
     for_of (JsObject.entries outputs)
       (fun o =>
          output <- lift (snd o) ;;
          match output with
          | Some text => console_log ("  " +++ fst o +++ ": " +++ text)
          | None => ret tt
          end)
   else ret tt) s
  = (Ok tt, set_console (console s ++ info_lines entry) s).
Proof.
  intros Hall. cbv zeta. unfold info_lines.
  destruct (ConstructInterface.outputs (snd entry)) as [|o outputs] eqn:E.
  - cbn. unfold ret. now rewrite app_nil_r, set_console_same.
  - cbn [JsObject.keys map length Nat.ltb Nat.leb].
    unfold bind at 1, console_log at 1, modify, chalk_yellow, JsObject.entries.
    rewrite (for_of_prints _ (fun o => output_lines [o]) (o :: outputs)).
    + rewrite <- output_lines_flat_map. cbn. now rewrite <- app_assoc.
    + intros [name r] Hin s0. destruct (Hall name r Hin) as [v ->].
      apply info_output_resolved.
Qed.

(** One turn of [info] for a construct one of whose resolvers rejects. *)
Lemma info_entry_rejected (id : string) (c : ConstructInterface.t)
  (resolved rest : JsObject.t (result (option string)))
  (name : string) (e : JsError) (s : LiftPlugin) :
  ConstructInterface.outputs c = resolved ++ (name, Throw e) :: rest ->
  resolves_all resolved ->
  (let outputs := ConstructInterface.outputs c in
   if Nat.ltb 0 (length (JsObject.keys outputs)) then
     console_log (chalk_yellow (id +++ ":")) ;;
     for_of (JsObject.entries outputs)
       (fun o =>
          output <- lift (snd o) ;;
          match output with
          | Some text => console_log ("  " +++ fst o +++ ": " +++ text)
          | None => ret tt
          end)
   else ret tt) s
  = (Throw e, set_console (console s ++ (id +++ ":") :: output_lines resolved) s).
Proof.
  intros Hout Hres. cbv zeta. rewrite Hout.
  assert (Hlen : Nat.ltb 0 (length (JsObject.keys
                                      (resolved ++ (name, Throw e) :: rest))) = true).
  { unfold JsObject.keys. rewrite length_map, length_app. cbn [length].
    apply Nat.ltb_lt. lia. }
  rewrite Hlen.
  unfold bind at 1, console_log at 1, modify, chalk_yellow, JsObject.entries.
  rewrite (for_of_prints_until _ (fun o => output_lines [o]) resolved rest
             (name, Throw e) [] e).
  - rewrite <- output_lines_flat_map, app_nil_r. cbn. now rewrite <- app_assoc.
  - intros [n r] Hin s0. destruct (Hres n r Hin) as [v ->].
    apply info_output_resolved.
  - intros s0. cbn. now rewrite app_nil_r, set_console_same.
Qed.

(** X1. With the constructs loaded and every output resolver resolving,
    [info] returns and changes nothing but the console, on which it
    prints, construct after construct, the id followed by one line per
    output that has a value; a construct without outputs prints nothing,
    and an output without value is left out. *)
Theorem info_prints_outputs (s : LiftPlugin) cs :
  constructs s = Some cs ->
  (forall id c, In (id, c) cs -> resolves_all (ConstructInterface.outputs c)) ->
  info s = (Ok tt, set_console (console s ++ flat_map info_lines cs) s).
Proof.
  intros Hcs Hall. unfold info, getConstructs, bind at 1, bind at 1, this.
  rewrite Hcs. cbn [fst snd ret]. unfold JsObject.entries at 1.
  apply for_of_prints. intros [id c] Hin s0.
  apply (info_entry_resolved (id, c) s0). exact (Hall id c Hin).
Qed.

Lemma info_prints_outputs_witness :
  console (snd (info Sample.loaded)) = ["avatars:"; "  bucketName: app-dev-avatars"].
Proof.
  assert (Hcs : constructs Sample.loaded
                = Some [("avatars", StaticConstructInterface.create Sample.Storage
                                      Sample.context "avatars" []);
                        ("link", StaticConstructInterface.create Sample.Alias
                                   Sample.context "link" []);
                        ("odd", StaticConstructInterface.create Sample.Odd
                                  Sample.context "odd" [])])
    by (vm_compute; reflexivity).
  rewrite (info_prints_outputs Sample.loaded _ Hcs).
  - vm_compute. reflexivity.
  - intros id c [H | [H | [H | []]]]; injection H as <- <-;
      intros name r Hin; cbn in Hin; intuition (try discriminate).
    injection H as <- <-. now eexists.
Defined.

(** X2. When the resolver of an output rejects, [info] rejects with that
    error: what the constructs before it print is on the console, then
    the id of the construct and the outputs before the failing one;
    nothing after it is printed. *)
Theorem info_stops_at_first_rejection (s : LiftPlugin)
  (before after : JsObject.t ConstructInterface.t) (id : string)
  (c : ConstructInterface.t)
  (resolved rest : JsObject.t (result (option string)))
  (name : string) (e : JsError) :
  constructs s = Some (before ++ (id, c) :: after) ->
  (forall id' c', In (id', c') before ->
                  resolves_all (ConstructInterface.outputs c')) ->
  ConstructInterface.outputs c = resolved ++ (name, Throw e) :: rest ->
  resolves_all resolved ->
  info s
  = (Throw e,
     set_console (console s ++ flat_map info_lines before
                    ++ (id +++ ":") :: output_lines resolved) s).
Proof.
  intros Hcs Hbefore Hout Hres.
  unfold info, getConstructs, bind at 1, bind at 1, this.
  rewrite Hcs. cbn [fst snd ret]. unfold JsObject.entries at 1.
  apply for_of_prints_until.
  - intros [id' c'] Hin s0.
    apply (info_entry_resolved (id', c') s0). exact (Hbefore id' c' Hin).
  - intros s0. exact (info_entry_rejected id c resolved rest name e s0 Hout Hres).
Qed.

Lemma info_stops_at_first_rejection_witness :
  fst (info Example.loaded) = Throw Example.offline
  /\ console (snd (info Example.loaded))
     = ["avatars:"; "  bucketName: app-dev-avatars";
        "landing:"; "  url: https://example.com"].
Proof.
  assert (Hcs : constructs Example.loaded
                = Some ([("avatars", Example.avatars)]
                          ++ ("landing", Example.site) :: [("docs", Example.site)]))
    by (vm_compute; reflexivity).
  assert (Hbefore : forall id' c', In (id', c') [("avatars", Example.avatars)] ->
                    resolves_all (ConstructInterface.outputs c')).
  { intros id' c' [H | []]. injection H as <- <-.
    intros name r [H | []]. injection H as <- <-. now eexists. }
  assert (Hout : ConstructInterface.outputs Example.site
                 = [("url", Ok (Some "https://example.com")); ("domain", Ok None)]
                     ++ ("cname", Throw Example.offline)
                     :: [("bucket", Ok (Some "app-dev-landing"))])
    by reflexivity.
  assert (Hres : resolves_all [("url", Ok (Some "https://example.com"));
                               ("domain", Ok None)]).
  { intros name r [H | [H | []]]; injection H as <- <-; now eexists. }
  rewrite (info_stops_at_first_rejection Example.loaded _ _ _ _ _ _ _ _
             Hcs Hbefore Hout Hres).
  vm_compute. split; reflexivity.
Defined.

(** ** postDeploy and preRemove *)

Section ConstructHooks.
Variable hook : ConstructInterface.t -> option (result unit).

(** The loop that awaits a hook of every construct that defines it, when
    every hook returns. *)
Lemma hooks_all_pass (l : JsObject.t ConstructInterface.t) (s : LiftPlugin) :
  (forall id c, In (id, c) l -> passes (hook c)) ->
  for_of l (fun entry =>
              match hook (snd entry) with
              | Some outcome => lift outcome
              | None => ret tt
              end) s
  = (Ok tt, s).
Proof.
  induction l as [|[id c] l IH]; intros Hall; [reflexivity|].
  cbn [for_of snd]. unfold bind.
  destruct (Hall id c (or_introl eq_refl)) as [-> | ->]; cbn;
    apply IH; intros id' c' Hin; apply (Hall id' c'); now right.
Qed.

(** The same loop when a hook rejects. *)
Lemma hooks_first_failure (before after : JsObject.t ConstructInterface.t)
  (id : string) (c : ConstructInterface.t) (e : JsError) (s : LiftPlugin) :
  (forall id' c', In (id', c') before -> passes (hook c')) ->
  hook c = Some (Throw e) ->
  for_of (before ++ (id, c) :: after)
    (fun entry =>
       match hook (snd entry) with
       | Some outcome => lift outcome
       | None => ret tt
       end) s
  = (Throw e, s).
Proof.
  intros Hbefore Hc. rewrite for_of_app.
  rewrite (hooks_all_pass before s Hbefore).
  cbn [for_of snd]. unfold bind. now rewrite Hc.
Qed.

End ConstructHooks.

(** X3. With the constructs loaded, [postDeploy] and [preRemove] await
    the hook of every construct that defines one, in the order of the
    mapping, and leave the plugin as it is. They return when every hook
    returns (a construct without the hook is skipped); otherwise they
    reject with the error of the first construct whose hook rejects. *)
Theorem construct_hooks_fail_fast (s : LiftPlugin) cs :
  constructs s = Some cs ->
  ((forall id c, In (id, c) cs -> passes (ConstructInterface.postDeploy c)) ->
   postDeploy s = (Ok tt, s))
  /\ ((forall id c, In (id, c) cs -> passes (ConstructInterface.preRemove c)) ->
      preRemove s = (Ok tt, s))
  /\ (forall before id c after e,
        cs = before ++ (id, c) :: after ->
        (forall id' c', In (id', c') before ->
                        passes (ConstructInterface.postDeploy c')) ->
        ConstructInterface.postDeploy c = Some (Throw e) ->
        postDeploy s = (Throw e, s))
  /\ (forall before id c after e,
        cs = before ++ (id, c) :: after ->
        (forall id' c', In (id', c') before ->
                        passes (ConstructInterface.preRemove c')) ->
        ConstructInterface.preRemove c = Some (Throw e) ->
        preRemove s = (Throw e, s)).
Proof.
  intros Hcs.
  assert (Hpost : forall l, constructs s = Some l ->
                  postDeploy s
                  = for_of l (fun entry =>
                                match ConstructInterface.postDeploy (snd entry) with
                                | Some outcome => lift outcome
                                | None => ret tt
                                end) s).
  { intros l Hl. unfold postDeploy, getConstructs, bind at 1, bind at 1, this.
    now rewrite Hl. }
  assert (Hpre : forall l, constructs s = Some l ->
                 preRemove s
                 = for_of l (fun entry =>
                               match ConstructInterface.preRemove (snd entry) with
                               | Some outcome => lift outcome
                               | None => ret tt
                               end) s).
  { intros l Hl. unfold preRemove, getConstructs, bind at 1, bind at 1, this.
    now rewrite Hl. }
  repeat split.
  - intros Hall. rewrite (Hpost cs Hcs). now apply hooks_all_pass.
  - intros Hall. rewrite (Hpre cs Hcs). now apply hooks_all_pass.
  - intros before id c after e -> Hbefore Hc. rewrite (Hpost _ Hcs).
    now apply (hooks_first_failure ConstructInterface.postDeploy).
  - intros before id c after e -> Hbefore Hc. rewrite (Hpre _ Hcs).
    now apply (hooks_first_failure ConstructInterface.preRemove).
Qed.

Lemma construct_hooks_fail_fast_witness :
  postDeploy Example.loaded = (Throw Example.upload_failed, Example.loaded)
  /\ preRemove Example.loaded = (Ok tt, Example.loaded).
Proof.
  assert (Hcs : constructs Example.loaded
                = Some [("avatars", Example.avatars); ("landing", Example.site);
                        ("docs", Example.site)])
    by (vm_compute; reflexivity).
  destruct (construct_hooks_fail_fast Example.loaded _ Hcs)
    as (_ & Hremove & Hdeploy & _).
  split.
  - apply (Hdeploy [("avatars", Example.avatars)] "landing" Example.site
             [("docs", Example.site)] Example.upload_failed eq_refl);
      [|reflexivity].
    intros id' c' [H | []]. injection H as <- <-. now left.
  - apply Hremove.
    intros id c [H | [H | [H | []]]]; injection H as <- <-;
      solve [now left | now right].
Defined.

(** ** appendPermissions and initialize without anything to do *)

Lemma appendPermissions_nothing (s : LiftPlugin) cs :
  constructs s = Some cs ->
  (forall id c, In (id, c) cs -> permissions_of c = []) ->
  appendPermissions s
  = (Ok tt, set_trace (trace s ++ [PermissionAggregation]) s).
Proof.
  intros Hcs Hnone.
  assert (Hflat : flat_map (fun entry : string * ConstructInterface.t =>
                              permissions_of (snd entry)) (JsObject.entries cs) = []).
  { unfold JsObject.entries. apply flat_map_nil, Forall_forall.
    intros [id c] Hin. exact (Hnone id c Hin). }
  unfold appendPermissions, getConstructs, bind, this, mark, modify.
  rewrite Hcs. cbn [fst snd ret]. now rewrite Hflat.
Qed.

(** X4. When no construct declares a permission statement (or there is
    no construct), [appendPermissions] returns and leaves the service as
    it is: the provider section gets no [iamRoleStatements] that it did
    not have. *)
Theorem appendPermissions_without_statements (s : LiftPlugin) cs :
  constructs s = Some cs ->
  (forall id c, In (id, c) cs -> permissions_of c = []) ->
  appendPermissions s
  = (Ok tt, set_trace (trace s ++ [PermissionAggregation]) s)
  /\ service (snd (appendPermissions s)) = service s.
Proof.
  intros Hcs Hnone.
  pose proof (appendPermissions_nothing s cs Hcs Hnone) as Hrun.
  split; [exact Hrun | now rewrite Hrun].
Qed.

Lemma appendPermissions_without_statements_witness :
  fst (appendPermissions Example.quiet) = Ok tt
  /\ service (snd (appendPermissions Example.quiet)) = service Example.quiet.
Proof.
  assert (Hcs : constructs Example.quiet = Some [("landing", Example.site)])
    by (vm_compute; reflexivity).
  assert (Hnone : forall id c, In (id, c) [("landing", Example.site)] ->
                  permissions_of c = []).
  { intros id c [H | []]. now injection H as <- <-. }
  destruct (appendPermissions_without_statements Example.quiet _ Hcs Hnone)
    as [Hrun Hservice].
  split; [now rewrite Hrun | exact Hservice].
Defined.

(** X5. A configuration without constructs (the section absent or
    empty): on a fresh plugin whose service holds no token the
    [initialize] hook returns, the constructs mapping is the empty
    object afterwards, and the service and the console are untouched. *)
Theorem initialize_without_constructs (s : LiftPlugin) :
  constructs s = None ->
  constructsInputConfiguration s = [] ->
  providers s <> [] ->
  service_token_free (service s) ->
  exists s',
    hooks initialize s = (Ok tt, s')
    /\ constructs s' = Some []
    /\ service s' = service s
    /\ console s' = console s.
Proof.
  intros Hnone Hempty Hp Hfree. cbn [hooks]. unfold bind.
  rewrite (loadConstructs_fresh s Hnone), Hempty. cbn [JsObject.entries for_of ret].
  set (s1 := set_trace _ (set_constructs (Some []) s)).
  assert (H1 : constructs s1 = Some []) by reflexivity.
  rewrite (appendPermissions_nothing s1 [] H1) by (intros id c []).
  set (s2 := set_trace _ s1).
  assert (Hp2 : providers s2 <> []) by exact Hp.
  assert (Hfree2 : service_token_free (service s2)) by exact Hfree.
  rewrite (resolveLazyVariables_id s2 Hp2 Hfree2).
  eexists. split; [reflexivity|]. repeat split.
Qed.

Lemma initialize_without_constructs_witness :
  exists s',
    hooks initialize Example.bare = (Ok tt, s')
    /\ constructs s' = Some []
    /\ service s' = service Example.bare
    /\ console s' = console Example.bare.
Proof.
  assert (Hnone : constructs Example.bare = None) by (vm_compute; reflexivity).
  assert (Hempty : constructsInputConfiguration Example.bare = [])
    by (vm_compute; reflexivity).
  assert (Hp : providers Example.bare <> [])
    by (vm_compute; discriminate).
  assert (Hfree : service_token_free (service Example.bare))
    by (vm_compute; repeat split).
  exact (initialize_without_constructs Example.bare Hnone Hempty Hp Hfree).
Defined.

(** ** registerCommands *)

(** A loop whose turns return, each a known change of the state, while
    [P] holds of the state. *)
Lemma for_of_steps {A : Type} (body : A -> M unit)
  (step : A -> LiftPlugin -> LiftPlugin) (P : LiftPlugin -> Prop) (l : list A) :
  (forall x, In x l -> forall s, P s -> body x s = (Ok tt, step x s) /\ P (step x s)) ->
  forall s, P s ->
    for_of l body s = (Ok tt, fold_left (fun s x => step x s) l s)
    /\ P (fold_left (fun s x => step x s) l s).
Proof.
  induction l as [|x l IH]; intros Hbody s HP; [now split|].
  cbn [for_of fold_left]. unfold bind.
  destruct (Hbody x (or_introl eq_refl) s HP) as [-> HP'].
  apply IH; [|exact HP']. intros y Hin. apply Hbody. now right.
Qed.

Lemma fold_left_flat_map {A B S : Type} (f : S -> B -> S) (g : A -> list B)
  (l : list A) (s : S) :
  fold_left f (flat_map g l) s = fold_left (fun s x => fold_left f (g x) s) l s.
Proof.
  revert s. induction l as [|x l IH]; intros s; simpl; [reflexivity|].
  now rewrite fold_left_app, IH.
Qed.

Lemma register_commands_frame (ws : list (string * (string * CommandDefinition.t)))
  (s : LiftPlugin) :
  providers (register_commands ws s) = providers s
  /\ constructs (register_commands ws s) = constructs s
  /\ service (register_commands ws s) = service s
  /\ configurationInput (register_commands ws s) = configurationInput s
  /\ commandHooks (register_commands ws s)
     = fold_left (fun o w => JsObject.set (hook_key (fst w) (fst (snd w)))
                               (fst w, snd (snd w)) o)
         ws (commandHooks s)
  /\ commands (register_commands ws s)
     = fold_left (fun o w =>
                    JsObject.set (command_key (fst w) (fst (snd w)))
                      (Build_CommandEntry [fst (snd w)]
                         (CommandDefinition.usage (snd (snd w)))
                         (CommandDefinition.options (snd (snd w)))) o)
         ws (commands s).
Proof.
  unfold register_commands. revert s.
  induction ws as [|w ws IH]; intros s; [repeat split|].
  cbn [fold_left]. destruct (IH (register_command w s)) as (H1 & H2 & H3 & H4 & H5 & H6).
  rewrite H1, H2, H3, H4, H5, H6. repeat split.
Qed.

(** One turn of the loop of [registerCommands] for a declaration whose
    type is registered. *)
Lemma registerCommands_turn (s : LiftPlugin) (id : string) (d : Declaration.t) C :
  class_of (getAllConstructClasses s) (Declaration.type d) = Some C ->
  (constructClass <- getConstructClass (Declaration.type d) ;;
   match StaticConstructInterface.commands constructClass with
   | None => ret tt
   | Some definitions =>
       for_of (JsObject.entries definitions)
         (fun c =>
            let command := fst c in
            let entry :=
              Build_CommandEntry [command] (CommandDefinition.usage (snd c))
                                 (CommandDefinition.options (snd c)) in
            modify (fun s =>
              set_commands
                (JsObject.set (id +++ ":" +++ command) entry (commands s))
                (JsObject.set (id +++ ":" +++ command +++ ":" +++ command)
                              (id, snd c) (commandHooks s)) s))
   end) s
  = (Ok tt,
     register_commands
       (map (fun c => (id, c)) (commands_of (getAllConstructClasses s) d)) s).
Proof.
  intros HC. unfold bind at 1, getConstructClass, bind at 1, this.
  unfold class_of in HC. rewrite HC. cbn [fst snd ret].
  unfold commands_of, class_of. rewrite HC.
  destruct (StaticConstructInterface.commands C) as [definitions|]; [|reflexivity].
  unfold JsObject.entries, register_commands.
  match goal with
  | |- for_of definitions ?body s = _ =>
      destruct (for_of_steps body (fun c s0 => register_command (id, c) s0)
                  (fun _ => True) definitions) with (s := s) as [Hrun _];
      [ intros c _ s0 _; split; [reflexivity | exact I] | exact I | rewrite Hrun ]
  end.
  f_equal. clear HC Hrun. revert s.
  induction definitions as [|c definitions IH]; intros s; [reflexivity|].
  cbn [fold_left map]. apply IH.
Qed.

(** The loop of [registerCommands] over declarations whose types are all
    registered. *)
Lemma registerCommands_loop (l : JsObject.t Declaration.t) (s : LiftPlugin) :
  (forall id d, In (id, d) l ->
                exists C, class_of (getAllConstructClasses s) (Declaration.type d)
                          = Some C) ->
  for_of l
    (fun entry : string * Declaration.t =>
       let id := fst entry in
       constructClass <- getConstructClass (Declaration.type (snd entry)) ;;
       match StaticConstructInterface.commands constructClass with
       | None => ret tt
       | Some definitions =>
           for_of (JsObject.entries definitions)
             (fun c =>
                let command := fst c in
                let entry :=
                  Build_CommandEntry [command]
                    (CommandDefinition.usage (snd c))
                    (CommandDefinition.options (snd c)) in
                modify (fun s =>
                  set_commands
                    (JsObject.set (id +++ ":" +++ command) entry (commands s))
                    (JsObject.set (id +++ ":" +++ command +++ ":" +++ command)
                                  (id, snd c) (commandHooks s)) s))
       end) s
  = (Ok tt, register_commands (declared_commands (getAllConstructClasses s) l) s).
Proof.
  intros Hreg.
  set (classes := getAllConstructClasses s) in *.
  match goal with
  | |- for_of l ?body s = _ =>
      destruct (for_of_steps body
                  (fun entry s0 =>
                     register_commands
                       (map (fun c => (fst entry, c))
                            (commands_of classes (snd entry))) s0)
                  (fun s0 => getAllConstructClasses s0 = classes) l)
        with (s := s) as [Hrun _]
  end.
  - intros [id d] Hin s0 HP. destruct (Hreg id d Hin) as [C HC].
    rewrite <- HP in HC. split.
    + etransitivity; [exact (registerCommands_turn s0 id d C HC)|].
      now rewrite HP.
    + unfold getAllConstructClasses.
      now rewrite (proj1 (register_commands_frame _ s0)).
  - reflexivity.
  - etransitivity; [exact Hrun|].
    f_equal. unfold declared_commands, register_commands.
    now rewrite fold_left_flat_map.
Qed.

(** [registerCommands] when every declared type is registered. *)
Lemma registerCommands_run (s : LiftPlugin) :
  (forall id d, In (id, d) (constructsInputConfiguration s) ->
                exists C, class_of (getAllConstructClasses s) (Declaration.type d)
                          = Some C) ->
  registerCommands s
  = (Ok tt,
     register_commands
       (declared_commands (getAllConstructClasses s) (constructsInputConfiguration s))
       s).
Proof.
  intros Hreg. exact (registerCommands_loop (constructsInputConfiguration s) s Hreg).
Qed.

(** *** The keys of the commands *)

Lemma length_append (a b : string) :
  String.length (a +++ b) = String.length a + String.length b.
Proof.
  induction a as [|c a IH]; simpl; [reflexivity | now rewrite IH].
Qed.

Lemma append_same_length (a b x y : string) :
  a +++ x = b +++ y -> String.length a = String.length b -> a = b /\ x = y.
Proof.
  revert b. induction a as [|c a IH]; intros [|d b] H Hlen; simpl in *;
    try discriminate; [now split|].
  injection H as -> H. injection Hlen as Hlen.
  destruct (IH b H Hlen) as [-> ->]. now split.
Qed.

(** Two texts cut at their first occurrence of a character. *)
Lemma cut_at_first (ch : ascii) (a b x y : string) :
  JsString.has_char ch a = false ->
  JsString.has_char ch b = false ->
  a +++ String ch x = b +++ String ch y ->
  a = b /\ x = y.
Proof.
  revert b. induction a as [|c a IH]; intros [|d b] Ha Hb H; simpl in *.
  - injection H as ->. now split.
  - injection H as -> _. apply orb_false_iff in Hb as [Hb _].
    now rewrite Ascii.eqb_refl in Hb.
  - injection H as -> _. apply orb_false_iff in Ha as [Ha _].
    now rewrite Ascii.eqb_refl in Ha.
  - injection H as -> H.
    apply orb_false_iff in Ha as [_ Ha]. apply orb_false_iff in Hb as [_ Hb].
    destruct (IH b Ha Hb H) as [-> ->]. now split.
Qed.

Lemma command_key_inj (id1 id2 c1 c2 : string) :
  JsString.has_char ":" id1 = false ->
  JsString.has_char ":" id2 = false ->
  command_key id1 c1 = command_key id2 c2 ->
  id1 = id2 /\ c1 = c2.
Proof.
  intros H1 H2 H. exact (cut_at_first ":" id1 id2 c1 c2 H1 H2 H).
Qed.

Lemma hook_key_inj (id1 id2 c1 c2 : string) :
  JsString.has_char ":" id1 = false ->
  JsString.has_char ":" id2 = false ->
  hook_key id1 c1 = hook_key id2 c2 ->
  id1 = id2 /\ c1 = c2.
Proof.
  intros H1 H2 H.
  destruct (cut_at_first ":" id1 id2 (c1 +++ ":" +++ c1) (c2 +++ ":" +++ c2) H1 H2 H)
    as [-> Hc].
  split; [reflexivity|].
  apply (append_same_length c1 c2 (":" +++ c1) (":" +++ c2) Hc).
  apply (f_equal String.length) in Hc. rewrite !length_append in Hc.
  simpl in Hc. lia.
Qed.

(** After a sequence of assignments, a key holds the value that all the
    assignments to it agree on. *)
Lemma get_after_assignments {A W : Type} (key : W -> string) (val : W -> A)
  (ws : list W) (o : JsObject.t A) (w : W) :
  In w ws ->
  (forall w', In w' ws -> key w' = key w -> val w' = val w) ->
  JsObject.get (key w)
    (fold_left (fun o w => JsObject.set (key w) (val w) o) ws o)
  = Some (val w).
Proof.
  induction ws as [|w0 ws IH] using rev_ind; intros Hin Hagree; [destruct Hin|].
  rewrite fold_left_app. cbn [fold_left].
  destruct (String.eqb_spec (key w0) (key w)) as [Heq | Hne].
  - rewrite Heq, get_set_same. f_equal.
    apply Hagree; [apply in_or_app; right; now left | exact Heq].
  - rewrite get_set_other by congruence.
    apply IH.
    + apply in_app_or in Hin as [Hin | [-> | []]]; [exact Hin | congruence].
    + intros w' Hin'. apply Hagree, in_or_app. now left.
Qed.

Lemma in_declared_commands classes declarations id command definition :
  In (id, (command, definition)) (declared_commands classes declarations)
  <-> exists d, In (id, d) declarations
                /\ In (command, definition) (commands_of classes d).
Proof.
  unfold declared_commands. rewrite in_flat_map. split.
  - intros ([id' d] & Hin & Hmap). apply in_map_iff in Hmap as (c & Hc & Hin').
    cbn in Hc. injection Hc as <- <-. now exists d.
  - intros (d & Hin & Hin'). exists (id, d). split; [exact Hin|].
    apply in_map_iff. now exists (command, definition).
Qed.

(** X6. When every declared type is registered, the ids hold no colon
    (they match the id pattern) and declarations and command tables are
    objects, [registerCommands] returns, leaves the constructs alone and
    registers every command of every declared construct: [id:command] in
    [this.commands] with the command as its lifecycle event, its usage
    and its options, and [id:command:command] in [this.hooks]. Once the
    constructs are loaded that hook calls the handler of the command on
    [constructs[id]], with the CLI options, and changes nothing itself:
    on the construct instance that the mapping holds under [id], and for
    the id [__proto__] on the construct that is the prototype of the
    mapping. *)
Theorem commands_are_delegated (s : LiftPlugin) :
  (forall id d, In (id, d) (constructsInputConfiguration s) ->
                exists C, class_of (getAllConstructClasses s) (Declaration.type d)
                          = Some C) ->
  JsObject.well_formed (constructsInputConfiguration s) = true ->
  (forall id d, In (id, d) (constructsInputConfiguration s) ->
                JsString.has_char ":" id = false
                /\ JsObject.well_formed (commands_of (getAllConstructClasses s) d)
                   = true) ->
  exists s',
    registerCommands s = (Ok tt, s')
    /\ constructs s' = constructs s
    /\ forall id d command definition,
         In (id, d) (constructsInputConfiguration s) ->
         In (command, definition) (commands_of (getAllConstructClasses s) d) ->
         JsObject.get (command_key id command) (commands s')
         = Some (Build_CommandEntry [command]
                   (CommandDefinition.usage definition)
                   (CommandDefinition.options definition))
         /\ JsObject.get (hook_key id command) (commandHooks s')
            = Some (id, definition)
         /\ forall s2 cs,
              commandHooks s2 = commandHooks s' ->
              constructs s2 = Some cs ->
              hooks (construct_command (hook_key id command)) s2
              = (CommandDefinition.handler definition
                   (construct_at cs (constructsPrototype s2) id)
                   (cliOptions s2), s2)
              /\ (id <> "__proto__" ->
                  hooks (construct_command (hook_key id command)) s2
                  = (CommandDefinition.handler definition (JsObject.get id cs)
                       (cliOptions s2), s2)).
Proof.
  intros Hreg Hwf Hids.
  eexists. split; [exact (registerCommands_run s Hreg)|].
  set (classes := getAllConstructClasses s) in *.
  set (declarations := constructsInputConfiguration s) in *.
  destruct (register_commands_frame (declared_commands classes declarations) s)
    as (_ & Hc & _ & _ & Hhooks & Hcommands).
  split; [exact Hc|].
  intros id d command definition Hd Hdef.
  assert (Hin : In (id, (command, definition))
                   (declared_commands classes declarations)).
  { apply in_declared_commands. now exists d. }
  assert (Hsame : forall w', In w' (declared_commands classes declarations) ->
                  fst w' = id -> fst (snd w') = command ->
                  snd (snd w') = definition).
  { intros [id' [command' definition']] Hin' Hid Hcmd. cbn in *. subst id' command'.
    apply in_declared_commands in Hin' as (d' & Hd' & Hdef').
    pose proof (get_entry declarations id d Hwf Hd) as G1.
    pose proof (get_entry declarations id d' Hwf Hd') as G2.
    rewrite G1 in G2. injection G2 as <-.
    destruct (Hids id d Hd) as [_ Hwfc].
    pose proof (get_entry _ command definition Hwfc Hdef) as G3.
    pose proof (get_entry _ command definition' Hwfc Hdef') as G4.
    rewrite G3 in G4. now injection G4 as <-. }
  assert (Hcolon : forall w', In w' (declared_commands classes declarations) ->
                   JsString.has_char ":" (fst w') = false).
  { intros [id' [command' definition']] Hin'.
    apply in_declared_commands in Hin' as (d' & Hd' & _).
    exact (proj1 (Hids id' d' Hd')). }
  assert (Hhook : JsObject.get (hook_key id command)
                    (commandHooks (register_commands
                                     (declared_commands classes declarations) s))
                  = Some (id, definition)).
  { rewrite Hhooks.
    apply (get_after_assignments
             (fun w : string * (string * CommandDefinition.t) =>
                hook_key (fst w) (fst (snd w)))
             (fun w => (fst w, snd (snd w))) _ _ (id, (command, definition)) Hin).
    intros w' Hin' Hkey. cbn [fst snd] in *.
    destruct (hook_key_inj _ _ _ _ (Hcolon w' Hin') (proj1 (Hids id d Hd)) Hkey)
      as [Hid Hcmd].
    now rewrite Hid, (Hsame w' Hin' Hid Hcmd). }
  split; [|split; [exact Hhook|]].
  - rewrite Hcommands.
    apply (get_after_assignments
             (fun w : string * (string * CommandDefinition.t) =>
                command_key (fst w) (fst (snd w)))
             (fun w => Build_CommandEntry [fst (snd w)]
                         (CommandDefinition.usage (snd (snd w)))
                         (CommandDefinition.options (snd (snd w))))
             _ _ (id, (command, definition)) Hin).
    intros w' Hin' Hkey. cbn [fst snd] in *.
    destruct (command_key_inj _ _ _ _ (Hcolon w' Hin') (proj1 (Hids id d Hd)) Hkey)
      as [Hid Hcmd].
    now rewrite Hcmd, (Hsame w' Hin' Hid Hcmd).
  - intros s2 cs Heq Hcs.
    assert (Hcall : hooks (construct_command (hook_key id command)) s2
                    = (CommandDefinition.handler definition
                         (construct_at cs (constructsPrototype s2) id)
                         (cliOptions s2), s2)).
    { cbn [hooks]. unfold bind at 1, this. cbn beta iota.
      rewrite Heq, Hhook.
      unfold commandHook, getConstructs, bind, this, lift. now rewrite Hcs. }
    split; [exact Hcall|].
    intros Hne. rewrite Hcall. unfold construct_at.
    destruct (JsObject.get id cs); [reflexivity|].
    apply String.eqb_neq in Hne. now rewrite Hne.
Qed.

Lemma commands_are_delegated_witness :
  exists s',
    registerCommands
      (Example.registered [Sample.Storage; Example.Website] (Some Example.declarations))
    = (Ok tt, s')
    /\ JsObject.get "docs:upload" (commands s')
       = Some (Build_CommandEntry ["upload"] "Upload the files of the website" [])
    /\ JsObject.get "docs:upload:upload" (commandHooks s')
       = Some ("docs", Example.upload).
Proof.
  set (s := Example.registered [Sample.Storage; Example.Website]
              (Some Example.declarations)).
  assert (Hreg : forall id d, In (id, d) (constructsInputConfiguration s) ->
                 exists C, class_of (getAllConstructClasses s) (Declaration.type d)
                           = Some C).
  { intros id d [H | [H | [H | []]]]; injection H as <- <-;
      eexists; vm_compute; reflexivity. }
  assert (Hwf : JsObject.well_formed (constructsInputConfiguration s) = true)
    by (vm_compute; reflexivity).
  assert (Hids : forall id d, In (id, d) (constructsInputConfiguration s) ->
                 JsString.has_char ":" id = false
                 /\ JsObject.well_formed (commands_of (getAllConstructClasses s) d)
                    = true).
  { intros id d [H | [H | [H | []]]]; injection H as <- <-;
      split; vm_compute; reflexivity. }
  destruct (commands_are_delegated s Hreg Hwf Hids) as (s' & Hrun & _ & Hall).
  exists s'. split; [exact Hrun|].
  assert (Hd : In ("docs", Declaration.make "static-website" [])
                  (constructsInputConfiguration s))
    by (right; right; left; reflexivity).
  assert (Hc : In ("upload", Example.upload)
                  (commands_of (getAllConstructClasses s)
                     (Declaration.make "static-website" [])))
    by (left; reflexivity).
  destruct (Hall _ _ _ _ Hd Hc) as (Hcommand & Hhook & _).
  split; [exact Hcommand | exact Hhook].
Defined.

(** X7. When every declared type is registered and no declared class
    has a command (no [commands] member, or an empty table, as
    [Storage] has), [registerCommands] returns and registers nothing. *)
Theorem no_commands_nothing_registered (s : LiftPlugin) :
  (forall id d, In (id, d) (constructsInputConfiguration s) ->
                exists C, class_of (getAllConstructClasses s) (Declaration.type d)
                          = Some C) ->
  (forall id d, In (id, d) (constructsInputConfiguration s) ->
                commands_of (getAllConstructClasses s) d = []) ->
  registerCommands s = (Ok tt, s).
Proof.
  intros Hreg Hnone. rewrite (registerCommands_run s Hreg).
  assert (H : declared_commands (getAllConstructClasses s)
                (constructsInputConfiguration s) = []).
  { unfold declared_commands. apply flat_map_nil, Forall_forall.
    intros [id d] Hin. cbn. now rewrite (Hnone id d Hin). }
  now rewrite H.
Qed.

Lemma no_commands_nothing_registered_witness :
  let s := Example.registered [Sample.Storage; Sample.Alias; Sample.Odd]
             (Some Sample.declarations) in
  registerCommands s = (Ok tt, s).
Proof.
  intros s.
  assert (Hreg : forall id d, In (id, d) (constructsInputConfiguration s) ->
                 exists C, class_of (getAllConstructClasses s) (Declaration.type d)
                           = Some C).
  { intros id d [H | [H | [H | []]]]; injection H as <- <-;
      eexists; vm_compute; reflexivity. }
  assert (Hnone : forall id d, In (id, d) (constructsInputConfiguration s) ->
                  commands_of (getAllConstructClasses s) d = []).
  { intros id d [H | [H | [H | []]]]; injection H as <- <-;
      vm_compute; reflexivity. }
  exact (no_commands_nothing_registered s Hreg Hnone).
Defined.

(** X8. [registerCommands] stops at the first declaration whose type no
    class registers: it throws [Unknown construct type <type>], a plain
    [Error], and the commands of the declarations before it stay
    registered; those of the declarations after it are not. *)
Theorem registerCommands_stops_at_unknown_type (s : LiftPlugin)
  (before after : JsObject.t Declaration.t) (id : string) (d : Declaration.t) :
  constructsInputConfiguration s = before ++ (id, d) :: after ->
  (forall id' d', In (id', d') before ->
                  exists C, class_of (getAllConstructClasses s) (Declaration.type d')
                            = Some C) ->
  class_of (getAllConstructClasses s) (Declaration.type d) = None ->
  registerCommands s
  = (Throw (mkError Error ("Unknown construct type " +++ Declaration.type d)),
     register_commands (declared_commands (getAllConstructClasses s) before) s).
Proof.
  intros Hsplit Hbefore Hnone.
  unfold registerCommands, bind at 1, this. cbn beta iota. rewrite Hsplit.
  unfold JsObject.entries at 1. rewrite for_of_app.
  match goal with
  | |- match for_of before ?body s with _ => _ end = _ =>
      replace (for_of before body s)
        with (Ok tt, register_commands
                       (declared_commands (getAllConstructClasses s) before) s)
        by (symmetry; exact (registerCommands_loop before s Hbefore))
  end.
  cbn [for_of fst snd]. unfold bind at 1. unfold bind at 1.
  rewrite getConstructClass_unknown; [reflexivity|].
  unfold getAllConstructClasses in *.
  now rewrite (proj1 (register_commands_frame _ s)).
Qed.

Lemma registerCommands_stops_at_unknown_type_witness :
  let s := Example.registered [Sample.Storage; Example.Website]
             (Some Example.mistyped) in
  fst (registerCommands s) = Throw (mkError Error "Unknown construct type database")
  /\ JsObject.keys (commandHooks (snd (registerCommands s))) = ["landing:upload:upload"].
Proof.
  intros s.
  assert (Hsplit : constructsInputConfiguration s
                   = [("landing", Declaration.make "static-website" [])]
                       ++ ("db", Declaration.make "database" [])
                       :: [("docs", Declaration.make "static-website" [])])
    by (vm_compute; reflexivity).
  assert (Hbefore : forall id' d',
             In (id', d') [("landing", Declaration.make "static-website" [])] ->
             exists C, class_of (getAllConstructClasses s) (Declaration.type d')
                       = Some C).
  { intros id' d' [H | []]. injection H as <- <-. eexists. vm_compute. reflexivity. }
  assert (Hnone : class_of (getAllConstructClasses s)
                    (Declaration.type (Declaration.make "database" [])) = None)
    by (vm_compute; reflexivity).
  rewrite (registerCommands_stops_at_unknown_type s _ _ _ _ Hsplit Hbefore Hnone).
  vm_compute. split; reflexivity.
Defined.

(** ** loadConstructs when the provider fails *)

(** X9. When the provider fails to create the construct of a
    declaration, [loadConstructs] throws the provider's error, and the
    mapping, assigned before the loop, is left holding the constructs of
    the declarations before it, under their ids (all of them but one
    declared under [__proto__], which is no key of the mapping): from
    then on the plugin counts as initialized, [getConstructs] returns
    that partial mapping and a second [loadConstructs] throws the
    already-initialized error instead of building the rest. *)
Theorem loadConstructs_failure_leaves_partial_mapping (s : LiftPlugin)
  (p : AwsProvider.t) ps (before after : JsObject.t Declaration.t)
  (id : string) (d : Declaration.t) (e : JsError) :
  constructs s = None ->
  providers s = p :: ps ->
  constructsInputConfiguration s = before ++ (id, d) :: after ->
  JsObject.well_formed before = true ->
  forallb (registered p) before = true ->
  AwsProvider.create p (constructsInputConfiguration s) (Declaration.type d) id
  = Throw e ->
  exists s' instances,
    loadConstructs s = (Throw e, s')
    /\ constructs s' = Some instances
    /\ JsObject.keys instances = JsObject.keys (own_ids before)
    /\ (JsObject.get "__proto__" before = None ->
        JsObject.keys instances = JsObject.keys before)
    /\ getConstructs s' = (Ok instances, s')
    /\ loadConstructs s' = (Throw already_initialized, s').
Proof.
  intros Hnone Hp Hsplit Hwf Hreg Hcreate.
  rewrite (loadConstructs_fresh s Hnone).
  unfold JsObject.entries. rewrite Hsplit in Hcreate |- *.
  set (input := before ++ (id, d) :: after) in Hcreate |- * at 2.
  rewrite for_of_app.
  set (s0 := set_trace _ _).
  assert (Hwf0 : JsObject.well_formed ([] ++ before) = true) by exact Hwf.
  destruct (loadConstructs_loop p ps input before Hreg [] s0 [] Hwf0 Hp
              eq_refl eq_refl) as (instances & Hloop & Hall).
  pose proof (Forall2_keys _ _ _ Hall) as Hkeys.
  rewrite Hloop. cbn [app for_of].
  set (s1 := set_object instances _ s0).
  exists s1, instances.
  assert (Hturn : loadConstructs_body input (id, d) s1 = (Throw e, s1)).
  { unfold loadConstructs_body, providers_0, bind, this, lift, ret.
    replace (providers s1) with (p :: ps) by (symmetry; exact Hp).
    cbn [fst snd]. now rewrite Hcreate. }
  split; [unfold bind; now rewrite Hturn|].
  split; [reflexivity|]. split; [exact Hkeys|].
  split; [intros Hnoproto; now rewrite (own_ids_id _ Hnoproto) in Hkeys|].
  split; [reflexivity|].
  apply loadConstructs_again. discriminate.
Qed.

Lemma loadConstructs_failure_leaves_partial_mapping_witness :
  let s := Example.registered [Sample.Storage; Example.Website]
             (Some Example.mistyped) in
  exists s' instances,
    loadConstructs s = (Throw (mkError Error "Unknown construct type database"), s')
    /\ constructs s' = Some instances
    /\ JsObject.keys instances = ["landing"]
    /\ getConstructs s' = (Ok instances, s')
    /\ loadConstructs s' = (Throw already_initialized, s').
Proof.
  intros s.
  assert (Hnone : constructs s = None) by (vm_compute; reflexivity).
  assert (Hp : providers s
               = AwsProvider.make Sample.context [Sample.Storage; Example.Website]
                   :: [])
    by (vm_compute; reflexivity).
  assert (Hsplit : constructsInputConfiguration s
                   = [("landing", Declaration.make "static-website" [])]
                       ++ ("db", Declaration.make "database" [])
                       :: [("docs", Declaration.make "static-website" [])])
    by (vm_compute; reflexivity).
  assert (Hwf : JsObject.well_formed
                  [("landing", Declaration.make "static-website" [])] = true)
    by (vm_compute; reflexivity).
  assert (Hreg : forallb (registered (AwsProvider.make Sample.context
                                        [Sample.Storage; Example.Website]))
                   [("landing", Declaration.make "static-website" [])] = true)
    by (vm_compute; reflexivity).
  assert (Hcreate : AwsProvider.create
                      (AwsProvider.make Sample.context [Sample.Storage; Example.Website])
                      (constructsInputConfiguration s)
                      (Declaration.type (Declaration.make "database" [])) "db"
                    = Throw (mkError Error "Unknown construct type database"))
    by (vm_compute; reflexivity).
  destruct (loadConstructs_failure_leaves_partial_mapping s _ _ _ _ _ _ _
              Hnone Hp Hsplit Hwf Hreg Hcreate)
    as (s' & instances & Hrun & Hcs & _ & Hkeys & Hget & Hagain).
  exists s', instances. split; [exact Hrun|]. split; [exact Hcs|].
  split; [exact (Hkeys eq_refl)|]. split; [exact Hget | exact Hagain].
Defined.

(** ** getConstructClass with several classes of one type *)

(** X10. [getConstructClass] returns the first registered class that
    carries the type: a class registered later under the same type is
    never returned, and the plugin is left as it is. *)
Theorem getConstructClass_first_match (s : LiftPlugin)
  (before after : list StaticConstructInterface.t)
  (C : StaticConstructInterface.t) :
  getAllConstructClasses s = before ++ C :: after ->
  (forall C', In C' before ->
              StaticConstructInterface.type C' <> StaticConstructInterface.type C) ->
  getConstructClass (StaticConstructInterface.type C) s = (Ok C, s).
Proof.
  intros Hsplit Hbefore.
  apply (getConstructClass_found s (StaticConstructInterface.type C) C).
  unfold class_of. rewrite Hsplit. clear Hsplit.
  induction before as [|B before IH]; cbn [app find].
  - now rewrite String.eqb_refl.
  - destruct (String.eqb_spec (StaticConstructInterface.type B)
                (StaticConstructInterface.type C)) as [Heq | _].
    + now destruct (Hbefore B (or_introl eq_refl)).
    + apply IH. intros C' Hin. apply Hbefore. now right.
Qed.

Lemma getConstructClass_first_match_witness :
  let s := Example.registered [Sample.Storage; Sample.Alias; Example.Shadow] None in
  getConstructClass "alias" s = (Ok Sample.Alias, s).
Proof.
  intros s.
  assert (Hsplit : getAllConstructClasses s
                   = [Sample.Storage] ++ Sample.Alias :: [Example.Shadow])
    by (vm_compute; reflexivity).
  assert (Hbefore : forall C', In C' [Sample.Storage] ->
                    StaticConstructInterface.type C'
                    <> StaticConstructInterface.type Sample.Alias).
  { intros C' [<- | []]. vm_compute. discriminate. }
  exact (getConstructClass_first_match s _ _ _ Hsplit Hbefore).
Defined.

(** ** resolveLazyVariables, again *)

Lemma resolveLazyVariables_keeps_providers :
  preserves (keeps providers) resolveLazyVariables.
Proof.
  unfold resolveLazyVariables, mark. frame.
  all: try (intros s'; unfold keeps;
            first [now rewrite resolveTokens_pure
                  | now rewrite resolveTokens_object_pure]).
  all: unfold keeps; reflexivity.
Qed.

(** X11. Once [resolveLazyVariables] has returned, running it again
    returns as well and leaves the service as the first run left it:
    resolved values are not resolved a second time. *)
Theorem resolveLazyVariables_again (s s' : LiftPlugin) :
  resolveLazyVariables s = (Ok tt, s') ->
  resolveLazyVariables s'
  = (Ok tt, set_trace (trace s' ++ [ForcedResolution]) s').
Proof.
  intros Hrun. apply resolveLazyVariables_id.
  - pose proof (resolveLazyVariables_keeps_providers s) as Hkeep.
    unfold keeps in Hkeep. rewrite Hrun in Hkeep. cbn [snd] in Hkeep.
    intros Hempty. rewrite Hempty in Hkeep.
    unfold resolveLazyVariables, bind at 1, bind at 1, bind at 1, mark, modify,
      this, resolveTokens_object, bind at 1, providers_0, bind at 1, this in Hrun.
    cbn [fst snd providers set_trace] in Hrun.
    rewrite Hkeep in Hrun. discriminate.
  - exact (resolveLazyVariables_sound s s' Hrun).
Qed.

Lemma resolveLazyVariables_again_witness :
  resolveLazyVariables Sample.settled
  = (Ok tt, set_trace (trace Sample.settled ++ [ForcedResolution]) Sample.settled).
Proof.
  assert (Hrun : resolveLazyVariables Example.unsettled = (Ok tt, Sample.settled))
    by (vm_compute; reflexivity).
  exact (resolveLazyVariables_again Example.unsettled Sample.settled Hrun).
Defined.

(** ** Object.assign *)

(** What a key holds after [Object.assign(target, source)]: the value of
    [source] when [source] has the key, else what [target] held. *)
Lemma get_Object_assign {A : Type} (target source : JsObject.t A) (k : string) :
  JsObject.well_formed source = true ->
  JsObject.get k (Object_assign target source)
  = match JsObject.get k source with
    | Some v => Some v
    | None => JsObject.get k target
    end.
Proof.
  unfold Object_assign, JsObject.well_formed.
  induction source as [|[k' v'] source IH] using rev_ind; intros Hwf;
    [reflexivity|].
  rewrite fold_left_app. cbn [fold_left fst snd]. rewrite get_app.
  destruct (String.eqb_spec k' k) as [-> | Hne].
  - rewrite get_set_same, (ordered_last_fresh source k v' _ Hwf).
    cbn. now rewrite String.eqb_refl.
  - rewrite get_set_other by congruence.
    rewrite (IH (ordered_prefix _ _ _ Hwf)).
    destruct (JsObject.get k source); [reflexivity|].
    cbn. destruct (String.eqb_spec k' k); [contradiction | reflexivity].
Qed.

(** Assigning to a property the value it holds changes nothing. *)
Lemma set_same_value {A : Type} (k : string) (v : A) (o : JsObject.t A) :
  JsObject.get k o = Some v -> JsObject.set k v o = o.
Proof.
  intros H. unfold JsObject.set, JsObject.hasOwn. rewrite H.
  induction o as [|[k' v'] o IH]; [discriminate|].
  cbn in *. destruct (String.eqb k' k).
  - now injection H as ->.
  - now rewrite (IH H).
Qed.

Lemma Object_assign_again {A : Type} (target source : JsObject.t A) :
  JsObject.well_formed source = true ->
  Object_assign (Object_assign target source) source = Object_assign target source.
Proof.
  intros Hwf.
  assert (Hall : forall k v, In (k, v) source ->
                 JsObject.get k (Object_assign target source) = Some v).
  { intros k v Hin. rewrite (get_Object_assign target source k Hwf).
    now rewrite (get_entry source k v Hwf Hin). }
  generalize dependent (Object_assign target source). intros o.
  unfold Object_assign. clear Hwf.
  induction source as [|[k v] source IH]; intros Hall; [reflexivity|].
  cbn [fold_left fst snd].
  rewrite (set_same_value k v o) by (apply Hall; now left).
  apply IH. intros k' v' Hin. apply Hall. now right.
Qed.

(** ** The storage construct *)

(** In a valid storage configuration [encryption] is "s3" or "kms". *)
Lemma valid_encryption (configuration : JsObject.t value) (v : value) :
  Storage.valid_configuration configuration = true ->
  JsObject.get "encryption" configuration = Some v ->
  v = VStr "s3" \/ v = VStr "kms".
Proof.
  intros Hvalid Hget. apply get_In in Hget.
  unfold Storage.valid_configuration in Hvalid. rewrite forallb_forall in Hvalid.
  specialize (Hvalid _ Hget). unfold Storage.valid_property in Hvalid.
  cbn [fst snd] in Hvalid. destruct v as [ | | b | z | text | n | items | fields ];
    try discriminate.
  cbn in Hvalid.
  apply orb_true_iff in Hvalid as [Hs3 | Hkms].
  - left. f_equal. now apply String.eqb_eq.
  - right. f_equal. now apply String.eqb_eq.
Qed.

(** X12. The bucket of a storage construct with a valid configuration:
    it is encrypted with a KMS-managed key when the configuration says
    [encryption: kms] and with S3-managed keys otherwise, which covers
    the default; and the configuration has no other influence on the
    bucket: configurations with the same [encryption], whatever their
    [archive], give the same bucket. *)
Theorem storage_bucket_follows_encryption (configuration : JsObject.t value) :
  JsObject.well_formed configuration = true ->
  Storage.valid_configuration configuration = true ->
  Storage.encryption (Storage.bucketProps configuration)
  = Some (match JsObject.get "encryption" configuration with
          | Some (VStr name) =>
              if String.eqb name "kms" then Storage.KMS_MANAGED
              else Storage.S3_MANAGED
          | _ => Storage.S3_MANAGED
          end)
  /\ forall configuration' : JsObject.t value,
       JsObject.well_formed configuration' = true ->
       JsObject.get "encryption" configuration'
       = JsObject.get "encryption" configuration ->
       Storage.bucketProps configuration' = Storage.bucketProps configuration.
Proof.
  intros Hwf Hvalid.
  assert (Hresolved : forall c : JsObject.t value,
             JsObject.well_formed c = true ->
             JsObject.get "encryption" (Storage.resolvedConfiguration c)
             = match JsObject.get "encryption" c with
               | Some v => Some v
               | None => Some (VStr "s3")
               end).
  { intros c Hc. unfold Storage.resolvedConfiguration.
    now rewrite (get_Object_assign _ c "encryption" Hc). }
  split.
  - unfold Storage.bucketProps, Storage.bucketEncryption. cbn [Storage.encryption].
    rewrite (Hresolved configuration Hwf).
    destruct (JsObject.get "encryption" configuration) as [v|] eqn:E;
      [|reflexivity].
    destruct (valid_encryption configuration v Hvalid E) as [-> | ->]; reflexivity.
  - intros configuration' Hwf' Hsame.
    unfold Storage.bucketProps, Storage.bucketEncryption.
    now rewrite (Hresolved configuration Hwf), (Hresolved configuration' Hwf'), Hsame.
Qed.

Lemma storage_bucket_follows_encryption_witness :
  Storage.encryption (Storage.bucketProps Example.archive) = Some Storage.KMS_MANAGED
  /\ Storage.bucketProps [("encryption", VStr "kms")]
     = Storage.bucketProps Example.archive.
Proof.
  assert (Hwf : JsObject.well_formed Example.archive = true)
    by (vm_compute; reflexivity).
  assert (Hvalid : Storage.valid_configuration Example.archive = true)
    by (vm_compute; reflexivity).
  destruct (storage_bucket_follows_encryption Example.archive Hwf Hvalid)
    as [Hencryption Hsame].
  split; [exact Hencryption|].
  apply Hsame; vm_compute; reflexivity.
Defined.

(** ** The plugin of the earlier layout *)



(** X14. [configureCloudFormation] can be run again: with the same
    compiled template, a second run returns and leaves the service as
    the first run left it. *)
Theorem configureCloudFormation_twice (stack : Legacy.Stack)
  (sv sv1 : Legacy.Service) (template : Legacy.CloudFormationTemplate) :
  Legacy.compile stack = Ok template ->
  JsObject.well_formed (Legacy.template_Resources template) = true ->
  JsObject.well_formed (Legacy.template_Outputs template) = true ->
  Legacy.configureCloudFormation stack sv = (Ok tt, sv1) ->
  Legacy.configureCloudFormation stack sv1 = (Ok tt, sv1).
Proof.
  intros Hcompile HwfR HwfO Hrun.
  unfold Legacy.configureCloudFormation in *. rewrite Hcompile in *.
  cbv zeta in Hrun. injection Hrun as <-.
  cbn [Legacy.resources Legacy.set_resources Legacy.Resources Legacy.Outputs
       Legacy.or_empty Legacy.custom Legacy.provider].
  now rewrite (Object_assign_again _ _ HwfR), (Object_assign_again _ _ HwfO).
Qed.

Lemma configureCloudFormation_twice_witness :
  let once := snd (Legacy.configureCloudFormation Example.stack Example.legacy_service) in
  Legacy.configureCloudFormation Example.stack once = (Ok tt, once).
Proof.
  intros once.
  assert (HwfR : JsObject.well_formed (Legacy.template_Resources Example.template)
                 = true) by (vm_compute; reflexivity).
  assert (HwfO : JsObject.well_formed (Legacy.template_Outputs Example.template)
                 = true) by (vm_compute; reflexivity).
  assert (Hrun : Legacy.configureCloudFormation Example.stack Example.legacy_service
                 = (Ok tt, once)) by (vm_compute; reflexivity).
  exact (configureCloudFormation_twice Example.stack Example.legacy_service once
           Example.template eq_refl HwfR HwfO Hrun).
Defined.

(** X15. [configurePermissions], when the provider has no
    [iamRoleStatements] (absent or null) or an array: afterwards
    [iamRoleStatements] is the array of the statements it held followed
    by the permissions, in their order, and the other keys of the
    provider hold what they held. The key is written even when there is
    no permission to add. *)
Theorem permissions_pushed_onto_statements (permissions : list value)
  (sv : Legacy.Service) (existing : list value) :
  iamRoleStatements_or_empty (Legacy.provider sv) = VArr existing ->
  exists provider',
    Legacy.configurePermissions permissions sv
    = (Ok tt, Legacy.set_provider provider' sv)
    /\ JsObject.get "iamRoleStatements" provider'
       = Some (VArr (existing ++ permissions))
    /\ forall k, k <> "iamRoleStatements" ->
                 JsObject.get k provider' = JsObject.get k (Legacy.provider sv).
Proof.
  intros Hcurrent. unfold Legacy.configurePermissions. rewrite Hcurrent.
  eexists. split; [reflexivity|].
  cbn [Legacy.provider Legacy.set_provider]. split.
  - apply get_set_same.
  - intros k Hk. now rewrite !get_set_other by congruence.
Qed.

Lemma permissions_pushed_onto_statements_witness :
  exists provider',
    Legacy.configurePermissions [] Example.legacy_service
    = (Ok tt, Legacy.set_provider provider' Example.legacy_service)
    /\ JsObject.get "iamRoleStatements" provider' = Some (VArr [])
    /\ JsObject.get "name" provider' = Some (VStr "aws").
Proof.
  assert (Hcurrent : iamRoleStatements_or_empty (Legacy.provider Example.legacy_service)
                     = VArr []) by (vm_compute; reflexivity).
  destruct (permissions_pushed_onto_statements [] Example.legacy_service []
              Hcurrent) as (provider' & Hrun & Hstatements & Hothers).
  exists provider'. split; [exact Hrun|]. split; [exact Hstatements|].
  rewrite Hothers by discriminate. reflexivity.
Defined.

(** X16. [setup] without a Lift configuration ([custom] absent, no
    [lift] in it, or a [lift] that counts as false) returns and leaves
    the service and the log as they are; with one, the line announcing
    it is logged, once, whether the rest of [setup] returns or
    throws. *)
Theorem setup_announces_configuration (env : Legacy.Environment)
  (st : Legacy.State) :
  (Legacy.lift_configuration (Legacy.service st) = None ->
   Legacy.setup env st = (Ok tt, st))
  /\ (forall v, Legacy.lift_configuration (Legacy.service st) = Some v ->
                Legacy.logged (snd (Legacy.setup env st))
                = Legacy.logged st ++ ["Lift configuration found, applying config."]).
Proof.
  unfold Legacy.setup. split.
  - now intros ->.
  - intros v ->. cbv zeta.
    destruct (Legacy.getStack env _ _ v) as [stack|e]; [|reflexivity].
    destruct (Legacy.configureCloudFormation stack _) as [[[]|e] sv]; [|reflexivity].
    destruct (Legacy.permissionsInStack stack) as [permissions|e]; [|reflexivity].
    now destruct (Legacy.configurePermissions permissions sv) as [r sv'].
Qed.

Lemma setup_announces_configuration_witness :
  Legacy.logged (snd (Legacy.setup (Example.environment Example.unreachable)
                        Example.legacy_state))
  = ["Lift configuration found, applying config."].
Proof.
  assert (Hlift : Legacy.lift_configuration (Legacy.service Example.legacy_state)
                  = Some (VObj [("storage", VObj [("avatars", VObj [])])]))
    by (vm_compute; reflexivity).
  exact (proj2 (setup_announces_configuration
                  (Example.environment Example.unreachable) Example.legacy_state)
           _ Hlift).
Defined.

(** X17. When the permissions of the stack cannot be obtained, [setup]
    rejects with that error after the template has been merged: the
    service is left with the resources of the template in it, and with
    the provider it had. *)
Theorem setup_rejects_after_merging (env : Legacy.Environment)
  (st : Legacy.State) (lift_value : value) (stack : Legacy.Stack)
  (template : Legacy.CloudFormationTemplate) (e : JsError) :
  Legacy.lift_configuration (Legacy.service st) = Some lift_value ->
  Legacy.getStack env (Legacy.getStackName env) (Legacy.getRegion env) lift_value
  = Ok stack ->
  Legacy.compile stack = Ok template ->
  Legacy.permissionsInStack stack = Throw e ->
  exists sv',
    Legacy.setup env st
    = (Throw e,
       {| Legacy.service := sv';
          Legacy.logged := Legacy.logged st
                           ++ ["Lift configuration found, applying config."] |})
    /\ Legacy.configureCloudFormation stack (Legacy.service st) = (Ok tt, sv')
    /\ Legacy.provider sv' = Legacy.provider (Legacy.service st).
Proof.
  intros Hlift Hstack Hcompile Hreject.
  unfold Legacy.setup. rewrite Hlift. cbv zeta.
  cbn [Legacy.logServerless Legacy.service Legacy.logged].
  rewrite Hstack.
  unfold Legacy.configureCloudFormation. rewrite Hcompile. cbv zeta.
  rewrite Hreject. eexists. split; [reflexivity|]. split; reflexivity.
Qed.

Lemma setup_rejects_after_merging_witness :
  exists sv',
    Legacy.setup (Example.environment Example.unreachable) Example.legacy_state
    = (Throw Example.offline,
       {| Legacy.service := sv';
          Legacy.logged := ["Lift configuration found, applying config."] |})
    /\ Legacy.configureCloudFormation Example.unreachable Example.legacy_service
       = (Ok tt, sv')
    /\ Legacy.provider sv' = [("name", VStr "aws")].
Proof.
  assert (Hlift : Legacy.lift_configuration (Legacy.service Example.legacy_state)
                  = Some (VObj [("storage", VObj [("avatars", VObj [])])]))
    by (vm_compute; reflexivity).
  exact (setup_rejects_after_merging (Example.environment Example.unreachable)
           Example.legacy_state _ Example.unreachable Example.template
           Example.offline Hlift eq_refl eq_refl eq_refl).
Defined.



(** ** resolveLazyVariables when a section cannot be resolved *)

(** X19. [resolveLazyVariables] writes each section back before it
    resolves the next one: when the provider section resolves and the
    functions section does not, it throws the error of that resolution
    and leaves the service with the provider section resolved and with
    the functions, custom, resources, layers and outputs sections as
    they were. *)
Theorem resolveLazyVariables_stops_midway (s : LiftPlugin)
  (provider' : JsObject.t value) (v : value) (e : JsError) :
  providers s <> [] ->
  Tokenization.resolve_object (callStack s) (force s) (Service.provider (service s))
  = Ok provider' ->
  Service.functions (service s) = Some v ->
  Tokenization.resolve (callStack s) (force s) v = Throw e ->
  exists s',
    resolveLazyVariables s = (Throw e, s')
    /\ Service.provider (service s') = provider'
    /\ Service.functions (service s') = Some v
    /\ Service.custom (service s') = Service.custom (service s)
    /\ Service.resources (service s') = Service.resources (service s)
    /\ Service.layers (service s') = Service.layers (service s)
    /\ Service.outputs (service s') = Service.outputs (service s).
Proof.
  intros Hp Hprovider Hfunctions Hthrow.
  unfold resolveLazyVariables, bind, mark, modify, this. cbn [fst snd].
  rewrite (resolveTokens_object_as s) by (repeat split; reflexivity || exact Hp).
  cbn [service set_trace]. rewrite Hprovider.
  cbn [fst snd service set_trace set_provider set_service Service.provider
         Service.functions].
  rewrite Hfunctions.
  rewrite (resolveTokens_as s) by (repeat split; reflexivity || exact Hp).
  rewrite Hthrow.
  eexists. split; [reflexivity|]. cbn. rewrite Hfunctions. repeat split.
Qed.

Lemma resolveLazyVariables_stops_midway_witness :
  exists s',
    resolveLazyVariables Example.dangling
    = (Throw (no_construct_named (Some "cache") (Some "arn")), s')
    /\ Service.provider (service s')
       = [("name", VStr "aws"); ("bucket", Sample.bucketName)]
    /\ Service.functions (service s') = Some (VObj [("env", VToken 1)]).
Proof.
  assert (Hp : providers Example.dangling <> []) by (vm_compute; discriminate).
  assert (Hprovider : Tokenization.resolve_object (callStack Example.dangling)
                        (force Example.dangling)
                        (Service.provider (service Example.dangling))
                      = Ok [("name", VStr "aws"); ("bucket", Sample.bucketName)])
    by (vm_compute; reflexivity).
  assert (Hfunctions : Service.functions (service Example.dangling)
                       = Some (VObj [("env", VToken 1)]))
    by (vm_compute; reflexivity).
  assert (Hthrow : Tokenization.resolve (callStack Example.dangling)
                     (force Example.dangling) (VObj [("env", VToken 1)])
                   = Throw (no_construct_named (Some "cache") (Some "arn")))
    by (vm_compute; reflexivity).
  destruct (resolveLazyVariables_stops_midway Example.dangling _ _ _
              Hp Hprovider Hfunctions Hthrow)
    as (s' & Hrun & Hresolved & Hkept & _).
  exists s'. split; [exact Hrun|]. split; [exact Hresolved | exact Hkept].
Defined.

(** ** The constructor *)

(** Assignments to other keys leave a key as it is. *)
Lemma get_after_other_assignments {A W : Type} (key : W -> string) (val : W -> A)
  (ws : list W) (o : JsObject.t A) (k : string) :
  (forall w, In w ws -> key w <> k) ->
  JsObject.get k (fold_left (fun o w => JsObject.set (key w) (val w) o) ws o)
  = JsObject.get k o.
Proof.
  revert o. induction ws as [|w ws IH]; intros o Hother; [reflexivity|].
  cbn [fold_left]. rewrite IH by (intros w' Hin; apply Hother; now right).
  apply get_set_other. intros ->. now apply (Hother w (or_introl eq_refl)).
Qed.

(** X20. On a plugin that has no provider yet, with every declared type
    among the classes, the constructor returns: the plugin then has one
    provider, which holds the classes in the order given, the group
    [lift] with the command [eject] is in [this.commands], and the
    commands of the declared constructs are registered; no construct is
    instantiated (the mapping stays as it was, undefined on a new
    plugin) and the service is not touched. *)
Theorem constructor_instantiates_nothing (context : ProviderContext)
  (classes : list StaticConstructInterface.t) (s : LiftPlugin) :
  providers s = [] ->
  (forall id d, In (id, d) (constructsInputConfiguration s) ->
                exists C, class_of classes (Declaration.type d) = Some C) ->
  exists s',
    constructor context classes s = (Ok tt, s')
    /\ providers s' = [AwsProvider.make context classes]
    /\ getAllConstructClasses s' = classes
    /\ constructs s' = constructs s
    /\ service s' = service s
    /\ commandHooks s'
       = fold_left (fun o w => JsObject.set (hook_key (fst w) (fst (snd w)))
                                 (fst w, snd (snd w)) o)
           (declared_commands classes (constructsInputConfiguration s))
           (commandHooks s)
    /\ JsObject.get "lift" (commands s') = Some lift_commands.
Proof.
  intros Hp Hreg.
  unfold constructor, registerProviders, registerConstructs, providers_0, bind,
    modify, this, ret.
  cbn [fst snd providers set_providers set_commands]. rewrite Hp.
  cbn [app tl fst snd providers set_providers set_commands].
  set (s1 := set_providers _ (set_providers _ (set_commands _ _ s))).
  assert (Hclasses : getAllConstructClasses s1 = classes).
  { unfold getAllConstructClasses. cbn. apply app_nil_r. }
  assert (Hreg1 : forall id d, In (id, d) (constructsInputConfiguration s1) ->
                  exists C, class_of (getAllConstructClasses s1) (Declaration.type d)
                            = Some C).
  { rewrite Hclasses. exact Hreg. }
  pose proof (registerCommands_run s1 Hreg1) as Hrun. rewrite Hclasses in Hrun.
  destruct (register_commands_frame
              (declared_commands classes (constructsInputConfiguration s1)) s1)
    as (Hproviders & Hconstructs & Hservice & _ & Hhooks & Hcommands).
  eexists. split; [exact Hrun|].
  split; [exact Hproviders|].
  split; [unfold getAllConstructClasses; rewrite Hproviders; exact Hclasses|].
  split; [exact Hconstructs|]. split; [exact Hservice|]. split; [exact Hhooks|].
  rewrite Hcommands.
  rewrite (get_after_other_assignments
             (fun w : string * (string * CommandDefinition.t) =>
                command_key (fst w) (fst (snd w)))).
  - apply get_set_same.
  - intros w _ Hkey. apply (f_equal (JsString.has_char ":")) in Hkey.
    unfold command_key in Hkey. rewrite !has_char_append in Hkey.
    cbn in Hkey. rewrite orb_true_r in Hkey. discriminate.
Qed.

Lemma constructor_instantiates_nothing_witness :
  exists s',
    constructor Sample.context [Sample.Storage; Example.Website]
      (blank (Some Example.declarations) Example.service [] 8)
    = (Ok tt, s')
    /\ providers s' = [AwsProvider.make Sample.context [Sample.Storage; Example.Website]]
    /\ constructs s' = None
    /\ JsObject.keys (commandHooks s') = ["landing:upload:upload"; "docs:upload:upload"].
Proof.
  set (s := blank (Some Example.declarations) Example.service [] 8).
  assert (Hp : providers s = []) by reflexivity.
  assert (Hreg : forall id d, In (id, d) (constructsInputConfiguration s) ->
                 exists C, class_of [Sample.Storage; Example.Website]
                             (Declaration.type d) = Some C).
  { intros id d [H | [H | [H | []]]]; injection H as <- <-;
      eexists; vm_compute; reflexivity. }
  destruct (constructor_instantiates_nothing Sample.context
              [Sample.Storage; Example.Website] s Hp Hreg)
    as (s' & Hrun & Hproviders & _ & Hconstructs & _ & Hhooks & _).
  exists s'. split; [exact Hrun|]. split; [exact Hproviders|].
  split; [exact Hconstructs|]. rewrite Hhooks. vm_compute. reflexivity.
Defined.
